(** * OrderAhead: order lifecycle and notification fan-out

    A shallow embedding of the parts of the OrderAhead web client that
    create orders, advance their status, mirror order changes on the owner
    dashboard and register push endpoints:

    - [supabase_schema.sql]: the tables [orders], [order_items] and
      [push_subscriptions] with their defaults and constraints;
    - [src/pages/DashboardPage.jsx]: [STATUS_FLOW], [advanceStatus] and the
      two realtime handlers;
    - [src/pages/MenuPage.jsx]: the cart helpers, [cartItems], [cartTotal]
      and [submitOrder];
    - [src/lib/push.js]: [subscribeToPush].

    JavaScript numbers are binary64 floats; [undefined]/[null] is [None].
    A text that the code only copies and compares (an id, a status, a key)
    is a [string]; a text whose characters the code inspects (the name and
    the note of an order, the slug typed on the welcome page) is a [text],
    the sequence of its UTF-16 code units.  An [async] function is a
    [proc]: a tree that either returns or sends a request to the hosted
    database and goes on with the answer.  The database is a value of type
    [db].  [supabase] is the database with its constraints, as a caller
    meets it whom the row-level policies let through; [hosted] puts the
    policies and the column types of the schema in front of it. *)

From Stdlib Require Import ZArith List String Ascii Bool Floats Lia.
From stdpp Require Import gmap strings list.
Import ListNotations.
Open Scope string_scope.

(** ** Texts

    The UTF-16 code units of a JavaScript string. *)
Definition text := list N.

(** The text of a [string], one code unit for each character. *)
Definition str (s : string) : text := map N_of_ascii (list_ascii_of_string s).

(** The [string] of a text, when every code unit of it is a character of a
    [string]. *)
Definition to_string (t : text) : option string :=
  if forallb (fun c => (c <? 256)%N) t
  then Some (string_of_list_ascii (map ascii_of_N t))
  else None.

(** ** Tables of [supabase_schema.sql]

    One record per table, one field per column that a page reads or
    writes.  Left out: the columns of [products] that only the menu's
    layout uses, and the generated [id] and [created_at] of [order_items]
    and [push_subscriptions]. *)

Module Products.
Record row := mk {
  id : string;
  business_id : string;
  name : string;
  price : float;
  available : bool
}.
End Products.

Module Orders.
Record row := mk {
  id : string;
  business_id : string;
  customer_name : text;
  customer_note : option text;
  status : string;
  total : float;
  created_at : string;
  fulfilled_at : option string
}.

(** [check (status in ('pending','preparing','ready','fulfilled','cancelled'))] *)
Definition status_check (s : string) : bool :=
  existsb (String.eqb s)
    ["pending"; "preparing"; "ready"; "fulfilled"; "cancelled"].

(** The object given to [.update(...)]: a column that is not a key of the
    object is left as it is. *)
Record patch := mk_patch {
  set_status : option string;
  set_fulfilled_at : option string
}.

Definition apply_patch (p : patch) (r : row) : row :=
  {| id := id r;
     business_id := business_id r;
     customer_name := customer_name r;
     customer_note := customer_note r;
     status := default (status r) (set_status p);
     total := total r;
     created_at := created_at r;
     fulfilled_at :=
       match set_fulfilled_at p with
       | Some t => Some t
       | None => fulfilled_at r
       end |}.

(** The object given to [.insert(...)] by the menu page.  The columns it
    does not name take their defaults: [id] a new uuid, [created_at] the
    time of the insert, [fulfilled_at] null. *)
Record insert := mk_insert {
  ins_business_id : string;
  ins_customer_name : text;
  ins_customer_note : option text;
  ins_status : string;
  ins_total : float
}.

Definition new_row (uuid now : string) (p : insert) : row :=
  {| id := uuid;
     business_id := ins_business_id p;
     customer_name := ins_customer_name p;
     customer_note := ins_customer_note p;
     status := ins_status p;
     total := ins_total p;
     created_at := now;
     fulfilled_at := None |}.
End Orders.

Module OrderItems.
Record row := mk {
  order_id : string;
  product_id : string;
  name : string;
  price : float;
  quantity : nat
}.
End OrderItems.

Module PushSubscriptions.
Record row := mk {
  business_id : string;
  endpoint : string;
  p256dh : string;
  auth : string
}.
End PushSubscriptions.

(** ** The database as the client sees it

    [orders] has the primary key [id], so the table is a finite map from
    ids to rows.  [push_subscriptions] is kept as the list of its rows: its
    [unique] constraint on [endpoint] is what the upsert's conflict target
    relies on, and is stated as an invariant ([unique_endpoints]) rather
    than built into the type. *)

Record db := mk_db {
  orders_tbl : gmap string Orders.row;
  order_items_tbl : list OrderItems.row;
  push_tbl : list PushSubscriptions.row
}.

Definition empty_db : db :=
  {| orders_tbl := ∅; order_items_tbl := []; push_tbl := [] |}.

(** The requests the pages send through the supabase client. *)
Inductive request :=
| InsertOrderSelectSingle (p : Orders.insert)
| InsertItems (items : list OrderItems.row)
| UpdateOrderEqId (p : Orders.patch) (id : string)
| SelectOrderWithItemsEqId (id : string)
| UpsertPush (r : PushSubscriptions.row) (onConflict : string).

(** What a request's [data] can hold. *)
Inductive data :=
| DOrder (r : Orders.row)
| DOrderWithItems (r : Orders.row) (items : list OrderItems.row).

Definition data_row (x : data) : Orders.row :=
  match x with DOrder r => r | DOrderWithItems r _ => r end.

Definition data_items (x : data) : list OrderItems.row :=
  match x with DOrder _ => [] | DOrderWithItems _ items => items end.

(** The promise of a request resolves to [{ data, error }] or rejects. *)
Inductive answer :=
| Resolved (data : option data) (error : option string)
| Rejected (reason : string).

(** Code that awaits requests. *)
Inductive proc (R : Type) : Type :=
| Ret (r : R)
| Ask (q : request) (k : answer -> proc R).
Arguments Ret {R} r.
Arguments Ask {R} q k.

Definition server := request -> db -> answer * db.

(** Runs a [proc] against a server: the result, the database afterwards
    and the requests sent, oldest first. *)
Fixpoint run {R} (srv : server) (p : proc R) (d : db) : R * db * list request :=
  match p with
  | Ret r => (r, d, [])
  | Ask q k =>
      let '(a, d1) := srv q d in
      let '(r, d2, log) := run srv (k a) d1 in
      (r, d2, q :: log)
  end.

(** One call after the other. *)
Definition run_both {R} (srv : server) (p1 p2 : proc R) (d : db) : R * R * db :=
  let '(r1, d1, _) := run srv p1 d in
  let '(r2, d2, _) := run srv p2 d1 in
  (r1, r2, d2).

(** Two calls in flight at once: [sched] says whose pending request the
    server takes next ([true]: the first call's); what is still pending
    when [sched] ends is served first call first. *)
Fixpoint race {R} (srv : server) (sched : list bool) (p1 p2 : proc R) (d : db)
  : R * R * db :=
  match sched with
  | [] => run_both srv p1 p2 d
  | first :: sched' =>
      match p1, p2 with
      | Ask q1 k1, Ask q2 k2 =>
          if first
          then let '(a, d1) := srv q1 d in race srv sched' (k1 a) p2 d1
          else let '(a, d1) := srv q2 d in race srv sched' p1 (k2 a) d1
      | _, _ => run_both srv p1 p2 d
      end
  end.

(** *** A model of the hosted database

    [update orders set ... where id = k]: the row with that id, if there is
    one, is patched; a new row that fails the status check is refused. *)
Definition update_order (p : Orders.patch) (k : string) (d : db) : option db :=
  match orders_tbl d !! k with
  | Some r =>
      let r' := Orders.apply_patch p r in
      if Orders.status_check (Orders.status r')
      then Some {| orders_tbl := <[k := r']> (orders_tbl d);
                   order_items_tbl := order_items_tbl d;
                   push_tbl := push_tbl d |}
      else None
  | None => Some d
  end.

(** [insert ... on conflict (endpoint) do update set ...]: a row with the
    same endpoint takes the new row's columns, otherwise the row is added. *)
Definition same_endpoint (e : string) (r : PushSubscriptions.row) : bool :=
  String.eqb (PushSubscriptions.endpoint r) e.

Definition upsert_push (r : PushSubscriptions.row) (t : list PushSubscriptions.row)
  : list PushSubscriptions.row :=
  let e := PushSubscriptions.endpoint r in
  if existsb (same_endpoint e) t
  then map (fun old => if same_endpoint e old then r else old) t
  else t ++ [r].

(** [order_items.order_id] references [orders(id)]. *)
Definition items_reference_orders (items : list OrderItems.row) (d : db) : bool :=
  forallb (fun it => bool_decide (is_Some (orders_tbl d !! OrderItems.order_id it)))
          items.

(** What the server draws on its side for one call: the uuid and the time
    of a new row, and the requests that fail for reasons of its own (the
    network, a policy, a time-out). *)
Record env := mk_env {
  uuid : string;
  server_now : string;
  fails : request -> bool
}.

Definition failed (msg : string) (d : db) : answer * db :=
  (Resolved None (Some msg), d).

Definition supabase (e : env) : server := fun q d =>
  if fails e q then failed "request failed" d
  else
    match q with
    | InsertOrderSelectSingle p =>
        let r := Orders.new_row (uuid e) (server_now e) p in
        if Orders.status_check (Orders.status r)
           && bool_decide (orders_tbl d !! uuid e = None)
        then (Resolved (Some (DOrder r)) None,
              {| orders_tbl := <[uuid e := r]> (orders_tbl d);
                 order_items_tbl := order_items_tbl d;
                 push_tbl := push_tbl d |})
        else failed "constraint violated" d
    | InsertItems items =>
        if items_reference_orders items d
        then (Resolved None None,
              {| orders_tbl := orders_tbl d;
                 order_items_tbl := order_items_tbl d ++ items;
                 push_tbl := push_tbl d |})
        else failed "constraint violated" d
    | UpdateOrderEqId p k =>
        match update_order p k d with
        | Some d' => (Resolved None None, d')
        | None => failed "constraint violated" d
        end
    | SelectOrderWithItemsEqId k =>
        match orders_tbl d !! k with
        | Some r =>
            (Resolved
               (Some (DOrderWithItems r
                        (filter (fun it => OrderItems.order_id it = k)
                                (order_items_tbl d))))
               None, d)
        | None => failed "no rows" d
        end
    | UpsertPush r onConflict =>
        if String.eqb onConflict "endpoint"
        then (Resolved None None,
              {| orders_tbl := orders_tbl d;
                 order_items_tbl := order_items_tbl d;
                 push_tbl := upsert_push r (push_tbl d) |})
        else if existsb (same_endpoint (PushSubscriptions.endpoint r)) (push_tbl d)
        then failed "constraint violated" d
        else (Resolved None None,
              {| orders_tbl := orders_tbl d;
                 order_items_tbl := order_items_tbl d;
                 push_tbl := push_tbl d ++ [r] |})
    end.

(** A server on which nothing fails for reasons of its own. *)
Definition healthy (uuid now : string) : env :=
  {| uuid := uuid; server_now := now; fails := fun _ => false |}.

(** ** [src/pages/DashboardPage.jsx] *)

Module DashboardPage.

Definition STATUS_FLOW : list string :=
  ["pending"; "preparing"; "ready"; "fulfilled"].

(** [Array.prototype.indexOf]: the first index holding the value, [-1] when
    no index does. *)
Fixpoint indexOf (l : list string) (x : string) : Z :=
  match l with
  | [] => -1
  | y :: l' =>
      if String.eqb y x then 0
      else let i := indexOf l' x in if (i <? 0)%Z then -1 else (i + 1)%Z
  end.

(** [l[i]]: [undefined] outside of [0 .. length - 1]. *)
Definition at_index (l : list string) (i : Z) : option string :=
  if (i <? 0)%Z then None else nth_error l (Z.to_nat i).

(** [STATUS_META[s].label], [undefined] for a key the object lacks. *)
Definition STATUS_META_label (s : string) : option string :=
  if String.eqb s "pending" then Some "Pending"
  else if String.eqb s "preparing" then Some "Preparing"
  else if String.eqb s "ready" then Some "Ready!"
  else if String.eqb s "fulfilled" then Some "Done"
  else None.

(** An order as the dashboard holds it: the row and its items, as
    [select("*, order_items(*)")] returns them. *)
Record order := mk_order {
  row : Orders.row;
  order_items : list OrderItems.row
}.

Definition id (o : order) : string := Orders.id (row o).
Definition status (o : order) : string := Orders.status (row o).

Definition of_data (x : data) : order :=
  {| row := data_row x; order_items := data_items x |}.

Inductive toast_msg :=
| ToastAdvanced (order_id label : string)
| ToastNewOrder (customer_name : text)
| ToastPushEnabled.

(** The component's state that the handlers below read or write. *)
Record state := mk_state {
  orders : list order;
  toast : option toast_msg;
  justFulfilled : option string
}.

(** How a call of an action ends: by returning, or by an exception. *)
Inductive completion :=
| Returned
| Thrown (error : string).

(** [{ ...o, status: nextStatus }] *)
Definition with_status (s : string) (o : order) : order :=
  {| row := Orders.apply_patch
              {| Orders.set_status := Some s; Orders.set_fulfilled_at := None |}
              (row o);
     order_items := order_items o |}.

(** The [.update({...})] argument of [advanceStatus]. *)
Definition advance_patch (nextStatus now : string) : Orders.patch :=
  {| Orders.set_status := Some nextStatus;
     Orders.set_fulfilled_at :=
       if String.eqb nextStatus "fulfilled" then Some now else None |}.

(** [advanceStatus(order)], called at time [now] in state [st].  [order] is
    the dashboard's copy of the order.  The timers that clear [toast] and
    [justFulfilled] later are left out.  [nextStatus] is never [undefined]
    after the guard (lemma [next_status_defined]); that branch stands for
    the [TypeError] of [STATUS_META[undefined].label]. *)
Definition advanceStatus (o : order) (now : string) (st : state)
  : proc (completion * state) :=
  let currentIdx := indexOf STATUS_FLOW (status o) in
  if (currentIdx >=? Z.of_nat (length STATUS_FLOW) - 1)%Z
  then Ret (Returned, st)
  else
    match at_index STATUS_FLOW (currentIdx + 1) with
    | Some nextStatus =>
        let st1 :=
          if String.eqb nextStatus "fulfilled"
          then {| orders := orders st; toast := toast st;
                  justFulfilled := Some (id o) |}
          else st in
        Ask (UpdateOrderEqId (advance_patch nextStatus now) (id o))
          (fun a =>
             match a with
             | Rejected reason => Ret (Thrown reason, st1)
             | Resolved _ _ =>
                 let orders' :=
                   map (fun o' => if String.eqb (id o') (id o)
                                  then with_status nextStatus o' else o')
                       (orders st1) in
                 match STATUS_META_label nextStatus with
                 | Some label =>
                     Ret (Returned,
                          {| orders := orders';
                             toast := Some (ToastAdvanced (id o) label);
                             justFulfilled := justFulfilled st1 |})
                 | None =>
                     Ret (Thrown "TypeError",
                          {| orders := orders'; toast := toast st1;
                             justFulfilled := justFulfilled st1 |})
                 end
             end)
    | None =>
        Ask (UpdateOrderEqId
               {| Orders.set_status := None; Orders.set_fulfilled_at := None |}
               (id o))
          (fun a =>
             match a with
             | Rejected reason => Ret (Thrown reason, st)
             | Resolved _ _ => Ret (Thrown "TypeError", st)
             end)
    end.

(** The handler of an [INSERT] event: fetch the order with its items, and
    put it in front of the list. *)
Definition on_insert (payload_new : Orders.row) (st : state) : proc state :=
  Ask (SelectOrderWithItemsEqId (Orders.id payload_new))
    (fun a =>
       match a with
       | Resolved (Some x) _ =>
           Ret {| orders := of_data x :: orders st;
                  toast := Some (ToastNewOrder (Orders.customer_name (data_row x)));
                  justFulfilled := justFulfilled st |}
       | _ => Ret st
       end).

(** [{ ...o, ...payload.new }]: the columns come from the event's row, the
    items stay. *)
Definition merge (o : order) (payload_new : Orders.row) : order :=
  {| row := payload_new; order_items := order_items o |}.

(** The handler of an [UPDATE] event. *)
Definition on_update (payload_new : Orders.row) (st : state) : state :=
  {| orders := map (fun o => if String.eqb (id o) (Orders.id payload_new)
                             then merge o payload_new else o)
                   (orders st);
     toast := toast st;
     justFulfilled := justFulfilled st |}.

(** The two listeners the realtime effect registers on the channel of a
    business. *)
Record listener := mk_listener {
  event : string;
  schema : string;
  table : string;
  filter : string
}.

Definition realtime_listeners (business_id : string) : list listener :=
  [ {| event := "INSERT"; schema := "public"; table := "orders";
       filter := "business_id=eq." ++ business_id |};
    {| event := "UPDATE"; schema := "public"; table := "orders";
       filter := "business_id=eq." ++ business_id |} ].

End DashboardPage.

(** *** The change feed

    A committed change of [orders] and how the feed decides whether a
    listener gets it: event, schema and table agree, and the filter
    [column=eq.value] holds of the new row. *)
Record change := mk_change {
  change_event : string;
  change_new : Orders.row
}.

Definition column_text (r : Orders.row) (col : string) : option string :=
  if String.eqb col "id" then Some (Orders.id r)
  else if String.eqb col "business_id" then Some (Orders.business_id r)
  else if String.eqb col "customer_name" then to_string (Orders.customer_name r)
  else if String.eqb col "customer_note" then Orders.customer_note r ≫= to_string
  else if String.eqb col "status" then Some (Orders.status r)
  else if String.eqb col "created_at" then Some (Orders.created_at r)
  else if String.eqb col "fulfilled_at" then Orders.fulfilled_at r
  else None.

(** Splits at the first ["="]. *)
Fixpoint split_eq (s : string) : option (string * string) :=
  match s with
  | EmptyString => None
  | String c s' =>
      if Ascii.eqb c "="%char then Some (EmptyString, s')
      else match split_eq s' with
           | Some (l, r) => Some (String c l, r)
           | None => None
           end
  end.

Definition filter_holds (f : string) (r : Orders.row) : bool :=
  match split_eq f with
  | Some (col, String "e" (String "q" (String "." v))) =>
      match column_text r col with
      | Some x => String.eqb x v
      | None => false
      end
  | _ => false
  end.

Definition delivers (l : DashboardPage.listener) (c : change) : bool :=
  String.eqb (DashboardPage.event l) (change_event c)
  && String.eqb (DashboardPage.schema l) "public"
  && String.eqb (DashboardPage.table l) "orders"
  && filter_holds (DashboardPage.filter l) (change_new c).

(** ** Binary64 numbers

    A finite binary64 number is [± m × 2^e] with [m < 2^53] and
    [-1074 <= e]: a whole number of units of [2^-1074].  [ticks] is that
    whole number, so that finite numbers are compared with each other and
    with fractions in the integers. *)
Definition ticks (x : float) : option Z :=
  match Prim2SF x with
  | S754_zero _ => Some 0%Z
  | S754_finite s m e =>
      Some ((if s then -1 else 1) * Z.pos m * 2 ^ (e + 1074))%Z
  | _ => None
  end.

(** The integer nearest to [a / b], the even one of two that are as near. *)
Definition round_half_even (a b : Z) : Z :=
  let q := (a / b)%Z in
  let r := (a mod b)%Z in
  if (2 * r <? b)%Z then q
  else if (b <? 2 * r)%Z then (q + 1)%Z
  else if Z.even q then q else (q + 1)%Z.

(** [num / den] as a fraction of [2^e]: the numerator and the denominator
    of [num / (den × 2^e)]. *)
Definition scaled_num (num : positive) (e : Z) : Z :=
  (Z.pos num * 2 ^ Z.max 0 (- e))%Z.

Definition scaled_den (den : positive) (e : Z) : Z :=
  (Z.pos den * 2 ^ Z.max 0 e)%Z.

(** The exponent [e] at which [num / den] has a mantissa of 53 bits,
    [2^52 <= num / (den × 2^e) < 2^53], and not less than [-1074], the
    exponent of the subnormal numbers. *)
Definition exponent_of (num den : positive) : Z :=
  let e0 := (Z.log2 (Z.pos num) - Z.log2 (Z.pos den) - 53)%Z in
  let e := if (scaled_num num e0 / scaled_den den e0 <? 2 ^ 53)%Z
           then e0 else (e0 + 1)%Z in
  Z.max e (-1074).

(** The binary64 number nearest to [± num / den], the one with the even
    mantissa of two that are as near: what a decimal literal denotes, and
    what is read from the decimal text of a number. *)
Definition nearest_float (negative : bool) (num den : positive) : float :=
  let e := exponent_of num den in
  let m := round_half_even (scaled_num num e) (scaled_den den e) in
  let '(m, e) := if (m =? 2 ^ 53)%Z then (2 ^ 52, e + 1)%Z else (m, e) in
  match m with
  | Z.pos p =>
      if (e <=? 971)%Z then SF2Prim (S754_finite negative p e)
      else SF2Prim (S754_infinity negative)
  | _ => SF2Prim (S754_zero negative)
  end.

(** ** JavaScript built-ins used by the menu page *)

Module JS.

(** The number with the value of a count. *)
Definition Number (n : nat) : float :=
  SF2Prim (binary_normalize prec emax (Z.of_nat n) 0 false).

(** What [x.toFixed(2)] prints: an optional sign and the digits of an
    integer number of hundredths, or, for a number that is not finite or is
    at least 10^21, what [String(x)] prints. *)
Inductive fixed :=
| Hundredths (negative : bool) (n : Z)
| AsString (x : float).

(** The integer [n] for which [n / 100] is nearest to [m * 2^e], the larger
    one when two are as near. *)
Definition nearest_hundredths (m : positive) (e : Z) : Z :=
  if (0 <=? e)%Z then 100 * Z.pos m * 2 ^ e
  else (200 * Z.pos m + 2 ^ (- e)) / 2 ^ (1 - e).

Definition at_least_1e21 (m : positive) (e : Z) : bool :=
  if (0 <=? e)%Z then (10 ^ 21 <=? Z.pos m * 2 ^ e)%Z
  else (10 ^ 21 * 2 ^ (- e) <=? Z.pos m)%Z.

Definition toFixed2 (x : float) : fixed :=
  match Prim2SF x with
  | S754_zero _ => Hundredths false 0
  | S754_finite s m e =>
      if at_least_1e21 m e then AsString x
      else Hundredths s (nearest_hundredths m e)
  | _ => AsString x
  end.

(** [parseFloat] of such a print: the number nearest to the decimal. *)
Definition parseFloat (s : fixed) : float :=
  match s with
  | Hundredths negative n =>
      match n with
      | Z.pos k => nearest_float negative k 100
      | _ => if negative then (-0)%float else 0%float
      end
  | AsString x => x
  end.

(** The code points that [String.prototype.trim] strips and that [\s]
    matches, the WhiteSpace and LineTerminator of ECMAScript: U+0009 to
    U+000D, U+0020, U+00A0, U+1680, U+2000 to U+200A, U+2028, U+2029,
    U+202F, U+205F, U+3000 and U+FEFF.  Each of them is one code unit. *)
Definition is_space (c : N) : bool :=
  (((9 <=? c) && (c <=? 13)) || (c =? 32) || (c =? 160) || (c =? 5760)
   || ((8192 <=? c) && (c <=? 8202)) || (c =? 8232) || (c =? 8233)
   || (c =? 8239) || (c =? 8287) || (c =? 12288) || (c =? 65279))%N.

Fixpoint trimStart (s : text) : text :=
  match s with
  | [] => []
  | c :: s' => if is_space c then trimStart s' else s
  end.

Fixpoint trimEnd (s : text) : text :=
  match s with
  | [] => []
  | c :: s' =>
      match trimEnd s' with
      | [] => if is_space c then [] else [c]
      | t => c :: t
      end
  end.

Definition trim (s : text) : text := trimEnd (trimStart s).

End JS.

(** ** The policies and the column types of [supabase_schema.sql]

    [supabase] is the database as a caller meets it whom the policies let
    through and whose numbers fit the columns.  [hosted] is the same
    database behind its row-level policies and with the types of its
    number columns. *)

(** *** [numeric(10,2)]

    What the column makes of a number sent as JSON.  The number travels as
    its shortest decimal text and is rounded to two decimals as a decimal,
    half away from zero; a value of [10^8] or more after rounding is
    refused, and so is [Infinity] or [NaN], which travels as [null] to a
    column that is [not null].  The text of a number is a decimal that
    reads back as the number, so rounding the text differs from rounding
    the number only when the text is a tie of three decimals ([0.285], the
    text of [0.28499999999999998]): [reads_as] tests for that.  The result
    is the number that is read back from the column. *)
Definition reads_as (num den : positive) (m : positive) (e : Z) : bool :=
  match Prim2SF (nearest_float false num den) with
  | S754_finite _ m' e' => Pos.eqb m m' && Z.eqb e e'
  | _ => false
  end.

Definition numeric_10_2 (x : float) : option float :=
  match Prim2SF x with
  | S754_zero _ => Some 0%float
  | S754_finite s m e =>
      let c := JS.nearest_hundredths m e in
      let n := match (10 * c + 5)%Z with
               | Z.pos tie => if reads_as tie 1000 m e then (c + 1)%Z else c
               | _ => c
               end in
      if (10 ^ 10 <=? n)%Z then None
      else match n with
           | Z.pos k => Some (nearest_float s k 100)
           | _ => Some 0%float
           end
  | _ => None
  end.

(** [order_items.price] is [numeric(10,2)], [order_items.quantity] is
    [int]. *)
Definition item_columns (it : OrderItems.row) : option OrderItems.row :=
  if (Z.of_nat (OrderItems.quantity it) <? 2 ^ 31)%Z
  then match numeric_10_2 (OrderItems.price it) with
       | Some price =>
           Some {| OrderItems.order_id := OrderItems.order_id it;
                   OrderItems.product_id := OrderItems.product_id it;
                   OrderItems.name := OrderItems.name it;
                   OrderItems.price := price;
                   OrderItems.quantity := OrderItems.quantity it |}
       | None => None
       end
  else None.

Definition with_total (total : float) (p : Orders.insert) : Orders.insert :=
  {| Orders.ins_business_id := Orders.ins_business_id p;
     Orders.ins_customer_name := Orders.ins_customer_name p;
     Orders.ins_customer_note := Orders.ins_customer_note p;
     Orders.ins_status := Orders.ins_status p;
     Orders.ins_total := total |}.

(** *** Row-level security

    Who calls ([auth.uid()], [None] for a caller who is not signed in), and
    the [owner_id] of each row of [businesses] ([None] where it is null).
    No request of the pages modelled here changes [businesses]. *)
Record access := mk_access {
  auth_uid : option string;
  businesses_tbl : gmap string (option string)
}.

(** [auth.uid() = (select owner_id from businesses where id = business_id)],
    the condition of the policies "owner reads own orders", "owner updates
    own orders", "owner reads items" and "owner manages push".  A
    comparison with null does not hold. *)
Definition is_owner (a : access) (business_id : string) : bool :=
  match auth_uid a, businesses_tbl a !! business_id with
  | Some uid, Some (Some owner_id) => String.eqb uid owner_id
  | _, _ => false
  end.

Definition refused (d : db) : answer * db :=
  failed "new row violates row-level security policy" d.

(** The requests of the pages, policy by policy:
    - [.insert(order).select().single()]: "customers can place orders"
      lets every row in ([with check (true)]), but [.select()] makes the
      insert return the row, and a row that is returned has to pass the
      policy for [select], "owner reads own orders"; the statement fails
      otherwise, and nothing is inserted;
    - [.insert(items)]: "customers insert items" lets every row in;
    - [.update(patch).eq("id", k)]: a row that does not pass "owner updates
      own orders" is not among the rows updated, and that is no error;
    - [.select("*, order_items(*)").eq("id", k).single()]: a row that does
      not pass "owner reads own orders" is not among the rows found;
    - [.upsert(row, { onConflict: "endpoint" })]: "owner manages push" is
      [for all], so the new row has to pass it, and when the endpoint is
      taken the row that has it has to pass it too; the statement fails
      otherwise.
    A foreign key to [businesses] holds of every row that passes a policy
    of its owner; the foreign key of [order_items.product_id] is left out
    (the products are those the page has loaded). *)
Definition hosted (a : access) (e : env) : server := fun q d =>
  if fails e q then failed "request failed" d
  else
    match q with
    | InsertOrderSelectSingle p =>
        match numeric_10_2 (Orders.ins_total p) with
        | Some total =>
            if is_owner a (Orders.ins_business_id p)
            then supabase e (InsertOrderSelectSingle (with_total total p)) d
            else refused d
        | None => failed "numeric field overflow" d
        end
    | InsertItems items =>
        match mapM item_columns items with
        | Some items' => supabase e (InsertItems items') d
        | None => failed "value out of range" d
        end
    | UpdateOrderEqId p k =>
        match orders_tbl d !! k with
        | Some r =>
            if is_owner a (Orders.business_id r) then supabase e q d
            else (Resolved None None, d)
        | None => supabase e q d
        end
    | SelectOrderWithItemsEqId k =>
        match orders_tbl d !! k with
        | Some r =>
            if is_owner a (Orders.business_id r) then supabase e q d
            else failed "no rows" d
        | None => supabase e q d
        end
    | UpsertPush r onConflict =>
        if is_owner a (PushSubscriptions.business_id r)
           && forallb (fun old => is_owner a (PushSubscriptions.business_id old))
                      (List.filter (same_endpoint (PushSubscriptions.endpoint r))
                                   (push_tbl d))
        then supabase e q d
        else refused d
    end.

(** The callers and requests for which [supabase] is the database as the
    schema has it: the caller passes the policies that the request meets,
    and the numbers sent are as the columns keep them. *)
Definition lets_through (a : access) (q : request) (d : db) : Prop :=
  match q with
  | InsertOrderSelectSingle p =>
      is_owner a (Orders.ins_business_id p) = true
      ∧ numeric_10_2 (Orders.ins_total p) = Some (Orders.ins_total p)
  | InsertItems items => mapM item_columns items = Some items
  | UpdateOrderEqId _ k | SelectOrderWithItemsEqId k =>
      ∀ r, orders_tbl d !! k = Some r → is_owner a (Orders.business_id r) = true
  | UpsertPush r _ =>
      is_owner a (PushSubscriptions.business_id r) = true
      ∧ Forall (fun old => is_owner a (PushSubscriptions.business_id old) = true)
               (List.filter (same_endpoint (PushSubscriptions.endpoint r)) (push_tbl d))
  end.

(** ** [src/pages/MenuPage.jsx] *)

Module MenuPage.

(** What the customer is told through [alert]. *)
Inductive alert_msg :=
| PleaseEnterYourName
| YourCartIsEmpty
| SomethingWentWrong.

Record state := mk_state {
  business_id : string;
  products : list Products.row;
  cart : gmap string nat;
  customerName : text;
  customerNote : text;
  submitting : bool;
  confirmed : bool;
  orderId : option string
}.

(** [c[id] || 0] *)
Definition quantity (c : gmap string nat) (id : string) : nat :=
  default 0 (c !! id).

Definition addToCart (id : string) (c : gmap string nat) : gmap string nat :=
  <[id := quantity c id + 1]> c.

Definition removeFromCart (id : string) (c : gmap string nat) : gmap string nat :=
  match c !! id with
  | Some n => if (1 <? n)%nat then <[id := n - 1]> c else delete id c
  | None => c
  end.

(** [products.filter(p => cart[p.id])] *)
Definition cartItems (st : state) : list Products.row :=
  List.filter (fun p => negb (quantity (cart st) (Products.id p) =? 0)%nat)
              (products st).

(** [cartItems.reduce((s, p) => s + p.price * cart[p.id], 0)] *)
Definition cartTotal (st : state) : float :=
  fold_left
    (fun s p => (s + Products.price p * JS.Number (quantity (cart st) (Products.id p)))%float)
    (cartItems st) 0%float.

Definition line_item (st : state) (order_id : string) (p : Products.row)
  : OrderItems.row :=
  {| OrderItems.order_id := order_id;
     OrderItems.product_id := Products.id p;
     OrderItems.name := Products.name p;
     OrderItems.price := Products.price p;
     OrderItems.quantity := quantity (cart st) (Products.id p) |}.

Definition order_insert (st : state) : Orders.insert :=
  {| Orders.ins_business_id := business_id st;
     Orders.ins_customer_name := JS.trim (customerName st);
     Orders.ins_customer_note :=
       match JS.trim (customerNote st) with
       | [] => None
       | note => Some note
       end;
     Orders.ins_status := "pending";
     Orders.ins_total := JS.parseFloat (JS.toFixed2 (cartTotal st)) |}.

Definition setSubmitting (b : bool) (st : state) : state :=
  {| business_id := business_id st; products := products st; cart := cart st;
     customerName := customerName st; customerNote := customerNote st;
     submitting := b; confirmed := confirmed st; orderId := orderId st |}.

(** [setOrderId(order.id); setConfirmed(true)] *)
Definition setConfirmed (id : string) (st : state) : state :=
  {| business_id := business_id st; products := products st; cart := cart st;
     customerName := customerName st; customerNote := customerNote st;
     submitting := submitting st; confirmed := true; orderId := Some id |}.

(** The [catch] and [finally] blocks. *)
Definition caught (st : state) : state * list alert_msg :=
  (setSubmitting false st, [SomethingWentWrong]).

(** [submitOrder()]: the state afterwards and the alerts shown. *)
Definition submitOrder (st : state) : proc (state * list alert_msg) :=
  match JS.trim (customerName st) with
  | [] => Ret (st, [PleaseEnterYourName])
  | _ =>
      if (length (cartItems st) =? 0)%nat then Ret (st, [YourCartIsEmpty])
      else
        let st1 := setSubmitting true st in
        Ask (InsertOrderSelectSingle (order_insert st))
          (fun a =>
             match a with
             | Resolved (Some order) None =>
                 let order_id := Orders.id (data_row order) in
                 Ask (InsertItems (map (line_item st order_id) (cartItems st)))
                   (fun b =>
                      match b with
                      | Resolved _ None =>
                          Ret (setSubmitting false (setConfirmed order_id st1), [])
                      | _ => Ret (caught st1)
                      end)
             | _ => Ret (caught st1)
             end)
  end.

End MenuPage.

(** ** [src/lib/push.js] *)

Module Push.

(** [subscription.toJSON()] *)
Record PushSubscriptionJSON := mk_json {
  endpoint : string;
  keys_p256dh : string;
  keys_auth : string
}.

(** How an awaited browser promise settles. *)
Inductive settled (A : Type) :=
| Fulfilled (v : A)
| Failed (reason : string).
Arguments Fulfilled {A} v.
Arguments Failed {A} reason.

(** The browser as one call of [subscribeToPush] finds it. *)
Record browser := mk_browser {
  has_serviceWorker : bool;
  has_PushManager : bool;
  serviceWorker_ready : settled unit;
  requestPermission : settled string;
  (** whether [urlBase64ToUint8Array(VAPID_PUBLIC_KEY)] returns ([atob]
      throws on a string that is not base64) *)
  vapid_key_decodes : bool;
  subscribe : settled PushSubscriptionJSON
}.

Inductive message :=
| WarnNotSupported
| AlertPleaseAllow
| ErrorSubscriptionFailed (reason : string).

Definition push_row (businessId : string) (j : PushSubscriptionJSON)
  : PushSubscriptions.row :=
  {| PushSubscriptions.business_id := businessId;
     PushSubscriptions.endpoint := endpoint j;
     PushSubscriptions.p256dh := keys_p256dh j;
     PushSubscriptions.auth := keys_auth j |}.

(** [subscribeToPush(businessId)]: the value returned and what was logged
    or alerted. *)
Definition subscribeToPush (businessId : string) (b : browser)
  : proc (bool * list message) :=
  if negb (has_serviceWorker b) || negb (has_PushManager b)
  then Ret (false, [WarnNotSupported])
  else
    match serviceWorker_ready b with
    | Failed reason => Ret (false, [ErrorSubscriptionFailed reason])
    | Fulfilled _ =>
        match requestPermission b with
        | Failed reason => Ret (false, [ErrorSubscriptionFailed reason])
        | Fulfilled permission =>
            if negb (String.eqb permission "granted")
            then Ret (false, [AlertPleaseAllow])
            else if negb (vapid_key_decodes b)
            then Ret (false, [ErrorSubscriptionFailed "InvalidCharacterError"])
            else
              match subscribe b with
              | Failed reason => Ret (false, [ErrorSubscriptionFailed reason])
              | Fulfilled subscription =>
                  Ask (UpsertPush (push_row businessId subscription) "endpoint")
                    (fun a =>
                       match a with
                       | Rejected reason =>
                           Ret (false, [ErrorSubscriptionFailed reason])
                       | Resolved _ _ => Ret (true, [])
                       end)
              end
        end
    end.

End Push.

(** ** The specification's reading of the operations

    Definitions that follow the words of the specification, to compare the
    code with. *)

(** The chain [pending → preparing → ready → fulfilled]. *)
Definition chain_successor (s : string) : option string :=
  if String.eqb s "pending" then Some "preparing"
  else if String.eqb s "preparing" then Some "ready"
  else if String.eqb s "ready" then Some "fulfilled"
  else None.

(** The status of the order [k] in the database. *)
Definition status_in (d : db) (k : string) : option string :=
  Orders.status <$> orders_tbl d !! k.

Definition fulfilled_at_in (d : db) (k : string) : option string :=
  orders_tbl d !! k ≫= Orders.fulfilled_at.

(** [advance] as the specification has it, for one call on the order [o]
    of the database [d]: a forward state moves to its successor, and on
    [fulfilled] or [cancelled] the call fails with InvalidTransitionError
    and the database stays as it is. *)
Definition advance_as_specified
    (srv : server) (o : DashboardPage.order) (now : string)
    (st : DashboardPage.state) (d : db) : Prop :=
  let '(res, d', _) := run srv (DashboardPage.advanceStatus o now st) d in
  (∀ next, chain_successor (DashboardPage.status o) = Some next →
           status_in d' (DashboardPage.id o) = Some next)
  ∧ (DashboardPage.status o = "fulfilled" ∨ DashboardPage.status o = "cancelled" →
     fst res = DashboardPage.Thrown "InvalidTransitionError" ∧ d' = d).

(** The database after [advance] moved the row of [o] with [p]. *)
Definition patched (p : Orders.patch) (o : DashboardPage.order) (d : db) : db :=
  {| orders_tbl :=
       <[DashboardPage.id o := Orders.apply_patch p (DashboardPage.row o)]>
         (orders_tbl d);
     order_items_tbl := order_items_tbl d;
     push_tbl := push_tbl d |}.

(** Concrete orders for the examples. *)
Definition sample_row (id status : string) (fulfilled_at : option string)
  : Orders.row :=
  {| Orders.id := id; Orders.business_id := "biz-a";
     Orders.customer_name := str "Jamie"; Orders.customer_note := None;
     Orders.status := status; Orders.total := 12%float;
     Orders.created_at := "2025-01-01T10:00:00Z";
     Orders.fulfilled_at := fulfilled_at |}.

Definition sample_order (id status : string) (fulfilled_at : option string)
  : DashboardPage.order :=
  {| DashboardPage.row := sample_row id status fulfilled_at;
     DashboardPage.order_items := [] |}.

Definition db_of (o : DashboardPage.order) : db :=
  {| orders_tbl := {[ DashboardPage.id o := DashboardPage.row o ]};
     order_items_tbl := []; push_tbl := [] |}.

Definition dashboard_of (o : DashboardPage.order) : DashboardPage.state :=
  {| DashboardPage.orders := [o]; DashboardPage.toast := None;
     DashboardPage.justFulfilled := None |}.

(** Whether the first of two racing calls is the one served first. *)
Definition served_first (sched : list bool) : bool :=
  match sched with
  | false :: _ => false
  | _ => true
  end.

(** Compare-and-set as the specification has it, for two calls racing on
    the dashboard's copy [o] of an order: the call served second finds the
    status changed and leaves the database as the first call left it. *)
Definition race_as_specified
    (srv : server) (sched : list bool) (o : DashboardPage.order)
    (t1 t2 : string) (st : DashboardPage.state) (d : db) : Prop :=
  let p1 := DashboardPage.advanceStatus o t1 st in
  let p2 := DashboardPage.advanceStatus o t2 st in
  (race srv sched p1 p2 d).2 =
  (run srv (if served_first sched then p1 else p2) d).1.2.

(** [fulfilled_at] is set exactly on the fulfilled orders. *)
Definition fulfilled_iff (d : db) : Prop :=
  ∀ k r, orders_tbl d !! k = Some r →
         (is_Some (Orders.fulfilled_at r) ↔ Orders.status r = "fulfilled").

(** A [fulfilled_at] that is set in [d] is the same in [d']. *)
Definition timestamps_kept (d d' : db) : Prop :=
  ∀ k r t, orders_tbl d !! k = Some r → Orders.fulfilled_at r = Some t →
           fulfilled_at_in d' k = Some t.

(** The orders of [d'] that [d] does not have are pending and not
    fulfilled. *)
Definition new_orders_pending (d d' : db) : Prop :=
  ∀ k r, orders_tbl d !! k = None → orders_tbl d' !! k = Some r →
         Orders.status r = "pending" ∧ Orders.fulfilled_at r = None.

(** The two operations that write [orders]. *)
Inductive call :=
| Intake (st : MenuPage.state)
| Advance (o : DashboardPage.order) (now : string) (st : DashboardPage.state).

Definition db_after (e : env) (c : call) (d : db) : db :=
  match c with
  | Intake st => (run (supabase e) (MenuPage.submitOrder st) d).1.2
  | Advance o now st =>
      (run (supabase e) (DashboardPage.advanceStatus o now st) d).1.2
  end.

(** An [advance] made on a copy of the order that agrees with the row the
    database has. *)
Definition on_current_row (c : call) (d : db) : Prop :=
  match c with
  | Intake _ => True
  | Advance o _ _ =>
      orders_tbl d !! DashboardPage.id o = Some (DashboardPage.row o)
  end.

(** The invariant of [fulfilled_at] as the specification has it, for any
    call at all. *)
Definition fulfilled_at_as_specified (e : env) (c : call) (d : db) : Prop :=
  fulfilled_iff d →
  fulfilled_iff (db_after e c d) ∧ timestamps_kept d (db_after e c d).

(** The status [advanceStatus] writes for an order whose copy has the
    status [s]; [None] when it writes nothing. *)
Definition advance_target (s : string) : option string :=
  if String.eqb "pending" s then Some "preparing"
  else if String.eqb "preparing" s then Some "ready"
  else if String.eqb "ready" s then Some "fulfilled"
  else if String.eqb "fulfilled" s then None
  else Some "pending".

(** [advance] sets [fulfilled_at] to the time of the call exactly when it
    moves the order into [fulfilled] (on a server that does not fail). *)
Definition fulfilment_time_set (e : env) (c : call) (d' : db) : Prop :=
  match c with
  | Intake _ => True
  | Advance o now _ =>
      (∀ q, fails e q = false) →
      fulfilled_at_in d' (DashboardPage.id o) =
      if String.eqb (DashboardPage.status o) "ready" then Some now
      else Orders.fulfilled_at (DashboardPage.row o)
  end.

(** A customer name that is empty or holds white space only. *)
Definition white_space : list N :=
  [9; 10; 11; 12; 13; 32; 160; 5760; 8192; 8193; 8194; 8195; 8196; 8197;
   8198; 8199; 8200; 8201; 8202; 8232; 8233; 8239; 8287; 12288; 65279]%N.

Definition blank (s : text) : Prop := Forall (fun c => In c white_space) s.

(** The alerts that report bad input, and the one that reports a failed
    write. *)
Definition ValidationError (a : MenuPage.alert_msg) : Prop :=
  a = MenuPage.PleaseEnterYourName ∨ a = MenuPage.YourCartIsEmpty.

Definition PersistenceError (a : MenuPage.alert_msg) : Prop :=
  a = MenuPage.SomethingWentWrong.

(** The sum of [price × quantity] over line items, in the order of the
    list, in the arithmetic of JavaScript numbers. *)
Definition sum_of_lines (items : list OrderItems.row) : float :=
  fold_left
    (fun s it => (s + OrderItems.price it * JS.Number (OrderItems.quantity it))%float)
    items 0%float.

(** [t] is a binary64 number nearest to the fraction [n / den]: no finite
    binary64 number is nearer.  Both distances are taken in units of
    [2^-1074] and multiplied by [den]. *)
Definition nearest_to (n : Z) (den : positive) (t : float) : Prop :=
  ∃ zt, ticks t = Some zt
        ∧ ∀ y zy, ticks y = Some zy →
            (Z.abs (Z.pos den * zt - n * 2 ^ 1074)
             <= Z.abs (Z.pos den * zy - n * 2 ^ 1074))%Z.

(** [n / 100] is the number of two decimals nearest to [x], the one
    farther from zero of two that are as near: with [z] the units of
    [2^-1074] in [x], [|n| - 1/2 <= 100 |z| / 2^1074 < |n| + 1/2]. *)
Definition cents_of (x : float) (n : Z) : Prop :=
  ∃ z, ticks x = Some z
       ∧ (0 <= n * z)%Z
       ∧ ((2 * Z.abs n - 1) * 2 ^ 1074 <= 200 * Z.abs z)%Z
       ∧ (200 * Z.abs z < (2 * Z.abs n + 1) * 2 ^ 1074)%Z.

(** [t] is [x] rounded to two decimals: a binary64 number nearest to the
    number of two decimals nearest to [x]. *)
Definition rounded_to_two_decimals (x t : float) : Prop :=
  ∃ n, cents_of x n ∧ nearest_to n 100 t.

(** A sum whose hundredths have at most ten digits, what a column of type
    [numeric(10,2)] holds. *)
Definition fits_numeric_10_2 (x : float) : Prop :=
  ∃ n, cents_of x n ∧ (Z.abs n < 10 ^ 10)%Z.

(** The menu page of the end-to-end scenario: a Latte at 4.50 and a Muffin
    at 3.00. *)
Definition jamie_named (name : text) (c : gmap string nat) : MenuPage.state :=
  {| MenuPage.business_id := "biz-a";
     MenuPage.products :=
       [ {| Products.id := "latte"; Products.business_id := "biz-a";
            Products.name := "Latte"; Products.price := 4.5%float;
            Products.available := true |};
         {| Products.id := "muffin"; Products.business_id := "biz-a";
            Products.name := "Muffin"; Products.price := 3%float;
            Products.available := true |} ];
     MenuPage.cart := c;
     MenuPage.customerName := name;
     MenuPage.customerNote := [];
     MenuPage.submitting := false;
     MenuPage.confirmed := false;
     MenuPage.orderId := None |}.

Definition jamie_state (name : string) (c : gmap string nat) : MenuPage.state :=
  jamie_named (str name) c.

(** The businesses of the scenario and those who call: ["biz-a"] and
    ["biz-b"] belong to one owner, ["biz-c"] to another; a customer is not
    signed in. *)
Definition sample_businesses : gmap string (option string) :=
  {[ "biz-a" := Some "owner-1"; "biz-b" := Some "owner-1";
     "biz-c" := Some "owner-2" ]}.

Definition signed_in (uid : string) : access :=
  {| auth_uid := Some uid; businesses_tbl := sample_businesses |}.

Definition customer : access :=
  {| auth_uid := None; businesses_tbl := sample_businesses |}.

Definition jamie_cart : gmap string nat :=
  MenuPage.addToCart "muffin" (MenuPage.addToCart "latte" (MenuPage.addToCart "latte" ∅)).

(** The order events a dashboard session receives, and the state after
    the handler of one of them has run (against a server in state [d]). *)
Inductive order_event :=
| InsertEvent (payload_new : Orders.row)
| UpdateEvent (payload_new : Orders.row).

Definition apply_event (srv : server) (d : db) (ev : order_event)
    (st : DashboardPage.state) : DashboardPage.state :=
  match ev with
  | InsertEvent r => (run srv (DashboardPage.on_insert r st) d).1.1
  | UpdateEvent r => DashboardPage.on_update r st
  end.

Definition order_ids (st : DashboardPage.state) : list string :=
  map DashboardPage.id (DashboardPage.orders st).

(** An idempotent upsert keyed by order id, as the specification asks of
    every event: applying the event again changes nothing, and the list
    never holds one id twice. *)
Definition upsert_as_specified (srv : server) (d : db) (ev : order_event)
    (st : DashboardPage.state) : Prop :=
  apply_event srv d ev (apply_event srv d ev st) = apply_event srv d ev st
  ∧ (NoDup (order_ids st) → NoDup (order_ids (apply_event srv d ev st))).

(** The [unique] constraint of [push_subscriptions.endpoint]. *)
Definition unique_endpoints (d : db) : Prop :=
  NoDup (map PushSubscriptions.endpoint (push_tbl d)).

(** The stored records of an endpoint. *)
Definition records_for (endpoint : string) (d : db) : list PushSubscriptions.row :=
  List.filter (same_endpoint endpoint) (push_tbl d).

(** A browser that supports push, grants the permission and hands out the
    subscription [j]. *)
Definition granting_browser (j : Push.PushSubscriptionJSON) : Push.browser :=
  {| Push.has_serviceWorker := true;
     Push.has_PushManager := true;
     Push.serviceWorker_ready := Push.Fulfilled tt;
     Push.requestPermission := Push.Fulfilled "granted";
     Push.vapid_key_decodes := true;
     Push.subscribe := Push.Fulfilled j |}.

(** [register(business, endpoint, keys)]: [subscribeToPush], called by [a]
    on a device whose subscription has that endpoint and those keys,
    against the database behind its policies.  [register] is the database
    afterwards, [register_returns] what the call returns. *)
Definition register_call (a : access) (e : env)
    (business endpoint p256dh auth : string) (d : db)
  : (bool * list Push.message) * db * list request :=
  run (hosted a e)
      (Push.subscribeToPush business
         (granting_browser
            {| Push.endpoint := endpoint; Push.keys_p256dh := p256dh;
               Push.keys_auth := auth |}))
      d.

Definition register (a : access) (e : env)
    (business endpoint p256dh auth : string) (d : db) : db :=
  (register_call a e business endpoint p256dh auth d).1.2.

Definition register_returns (a : access) (e : env)
    (business endpoint p256dh auth : string) (d : db) : bool :=
  (register_call a e business endpoint p256dh auth d).1.1.1.

(** The record of a registration. *)
Definition registration (business endpoint p256dh auth : string)
  : PushSubscriptions.row :=
  {| PushSubscriptions.business_id := business;
     PushSubscriptions.endpoint := endpoint;
     PushSubscriptions.p256dh := p256dh;
     PushSubscriptions.auth := auth |}.

(** The registry as the specification has it: after an endpoint was
    registered twice, by whom and for whatever businesses and keys, its one
    record is that of the second registration. *)
Definition registry_as_specified (a1 a2 : access) (e1 e2 : env)
    (endpoint b1 p1 k1 b2 p2 k2 : string) (d : db) : Prop :=
  records_for endpoint
    (register a2 e2 b2 endpoint p2 k2 (register a1 e1 b1 endpoint p1 k1 d))
  = [registration b2 endpoint p2 k2].

(** The conditions under which [subscribeToPush] gives up. *)
Definition push_unavailable (b : Push.browser) : Prop :=
  Push.has_serviceWorker b = false ∨ Push.has_PushManager b = false
  ∨ Push.requestPermission b ≠ Push.Fulfilled "granted"
  ∨ (∃ reason, Push.subscribe b = Push.Failed reason).

(** Every entry of the cart counts at least one item. *)
Definition positive_quantities (c : gmap string nat) : Prop :=
  ∀ k n, c !! k = Some n → (0 < n)%nat.

(** [advanceStatus] called on the order [k] as the database has it, at
    the time [now]. *)
Definition advance_stored (k now : string) (d : db) : db :=
  match orders_tbl d !! k with
  | Some r =>
      let o := {| DashboardPage.row := r; DashboardPage.order_items := [] |} in
      db_after (healthy "-" now) (Advance o now (dashboard_of o)) d
  | None => d
  end.

(** ** [src/lib/push.js]: the key of the application server *)

Module PushKey.

(** [window.atob], the forgiving base64 decoder: white space is dropped,
    one or two [=] at the end of a text whose length is a multiple of four
    are dropped, a length of [4k + 1] or a character outside the alphabet
    is an error, and every four characters give three bytes (the last two
    or three characters give one or two). *)
Definition is_ascii_whitespace (c : ascii) : bool :=
  let n := N_of_ascii c in
  ((n =? 9) || (n =? 10) || (n =? 12) || (n =? 13) || (n =? 32))%N.

(** The position of a character in [A-Za-z0-9+/]. *)
Definition sextet (c : ascii) : option N :=
  let n := N_of_ascii c in
  if ((65 <=? n) && (n <=? 90))%N then Some (n - 65)%N
  else if ((97 <=? n) && (n <=? 122))%N then Some (n - 71)%N
  else if ((48 <=? n) && (n <=? 57))%N then Some (n + 4)%N
  else if (n =? 43)%N then Some 62%N
  else if (n =? 47)%N then Some 63%N
  else None.

(** Drops up to [n] characters [=] from the front of a reversed text. *)
Fixpoint drop_eq (n : nat) (r : list ascii) : list ascii :=
  match n, r with
  | S n', c :: r' => if Ascii.eqb c "=" then drop_eq n' r' else r
  | _, _ => r
  end.

Definition strip_padding (data : list ascii) : list ascii :=
  if (length data mod 4 =? 0)%nat then rev (drop_eq 2 (rev data)) else data.

(** The bytes of a run of six-bit values; the buffer of the decoder is
    emptied every four values, so they are read four at a time. *)
Fixpoint bytes_of_sextets (l : list N) : list N :=
  match l with
  | a :: b :: c :: d :: rest =>
      let n := (((a * 64 + b) * 64 + c) * 64 + d)%N in
      (n / 65536)%N :: ((n / 256) mod 256)%N :: (n mod 256)%N
        :: bytes_of_sextets rest
  | [a; b; c] =>
      let n := (((a * 64 + b) * 64 + c) / 4)%N in
      [(n / 256)%N; (n mod 256)%N]
  | [a; b] => [((a * 64 + b) / 16)%N]
  | _ => []
  end.

(** [None]: [atob] throws [InvalidCharacterError]. *)
Definition atob (s : list ascii) : option (list ascii) :=
  let data := strip_padding (List.filter (fun c => negb (is_ascii_whitespace c)) s) in
  if (length data mod 4 =? 1)%nat then None
  else
    match mapM sextet data with
    | Some l => Some (map ascii_of_N (bytes_of_sextets l))
    | None => None
    end.

(** [s.replace(/from/g, to)] for single characters. *)
Definition replace_all (from to : ascii) (s : list ascii) : list ascii :=
  map (fun c => if Ascii.eqb c from then to else c) s.

(** [urlBase64ToUint8Array(base64String)]: the bytes of the array, [None]
    when [atob] throws. *)
Definition urlBase64ToUint8Array (base64String : string) : option (list N) :=
  let s := list_ascii_of_string base64String in
  let padding := repeat "="%char ((4 - length s mod 4) mod 4) in
  let base64 :=
    replace_all "_" "/" (replace_all "-" "+" (s ++ padding)%list) in
  match atob base64 with
  | Some rawData => Some (map N_of_ascii rawData)
  | None => None
  end.

End PushKey.

(** Base64url without padding (RFC 4648, section 5), the encoding in which
    the key pair generators hand out the public key. *)
Definition base64url_char (n : N) : ascii :=
  if (n <? 26)%N then ascii_of_N (n + 65)
  else if (n <? 52)%N then ascii_of_N (n + 71)
  else if (n <? 62)%N then ascii_of_N (n - 4)
  else if (n =? 62)%N then "-"%char
  else "_"%char.

Fixpoint sextets_of_bytes (bs : list N) : list N :=
  match bs with
  | x :: y :: z :: rest =>
      (x / 4)%N :: ((x mod 4) * 16 + y / 16)%N :: ((y mod 16) * 4 + z / 64)%N
        :: (z mod 64)%N :: sextets_of_bytes rest
  | [x; y] => [(x / 4)%N; ((x mod 4) * 16 + y / 16)%N; ((y mod 16) * 4)%N]
  | [x] => [(x / 4)%N; ((x mod 4) * 16)%N]
  | [] => []
  end.

Definition base64url_encode (bs : list N) : string :=
  string_of_list_ascii (map base64url_char (sextets_of_bytes bs)).

Definition bytes (bs : list N) : Prop := Forall (fun b => (b < 256)%N) bs.

(** What [urlBase64ToUint8Array] makes of a character before [atob]. *)
Definition to_base64_char (c : ascii) : ascii :=
  let c1 := if Ascii.eqb c "-" then "+"%char else c in
  if Ascii.eqb c1 "_" then "/"%char else c1.


(** The check that the decoder reads the character of a six-bit value
    back, and takes it neither for white space nor for padding. *)
Definition sextet_ok (n : N) : bool :=
  let c := to_base64_char (base64url_char n) in
  bool_decide (PushKey.sextet c = Some n)
  && negb (PushKey.is_ascii_whitespace c)
  && negb (Ascii.eqb c "=").


(** The characters a key may hold: the alphabets of base64 and base64url,
    white space, and the padding character. *)
Definition key_char (c : ascii) : bool :=
  match PushKey.sextet c with
  | Some _ => true
  | None =>
      Ascii.eqb c "-" || Ascii.eqb c "_" || PushKey.is_ascii_whitespace c
      || Ascii.eqb c "="
  end.

(** ** [src/pages/MenuPage.jsx]: what the page shows of the cart and the menu *)

Module MenuView.

(** [Object.values(cart).reduce((s, n) => s + n, 0)]: the sum does not
    depend on the order in which the values come. *)
Definition cartCount (c : gmap string nat) : nat :=
  map_fold (fun _ n s => s + n)%nat 0%nat c.

(** A product as the menu lists it: the row and its [category] column
    ([None]: null). *)
Record listed := mk_listed {
  product : Products.row;
  category : option string
}.

(** [Boolean(p.category)]: a category that is neither null nor empty. *)
Definition truthy_category (p : listed) : option string :=
  match category p with
  | Some EmptyString => None
  | other => other
  end.

(** [Array.from(new Set(l))]: the values in the order of their first
    occurrence. *)
Fixpoint set_from (seen l : list string) : list string :=
  match l with
  | [] => []
  | x :: l' =>
      if existsb (String.eqb x) seen then set_from seen l'
      else x :: set_from (x :: seen) l'
  end.

(** [["All", ...Array.from(new Set(products.map(p => p.category).filter(Boolean)))]] *)
Definition categories (products : list listed) : list string :=
  "All" :: set_from [] (omap truthy_category products).

(** [p.category === activeCategory] *)
Definition in_category (activeCategory : string) (p : listed) : bool :=
  match category p with
  | Some c => String.eqb c activeCategory
  | None => false
  end.

Definition visibleProducts (activeCategory : string) (products : list listed)
  : list listed :=
  if String.eqb activeCategory "All" then products
  else List.filter (in_category activeCategory) products.

End MenuView.

(** The number of items on the line items of an order. *)
Definition items_ordered (items : list OrderItems.row) : nat :=
  list_sum (map OrderItems.quantity items).

(** ** [src/pages/WelcomePage.jsx] *)

Module WelcomePage.

(** [String.prototype.toLowerCase] on the letters [A-Z] (the code units
    beyond the first 128 are left as they are). *)
Definition is_upper (c : N) : bool := ((65 <=? c) && (c <=? 90))%N.

Definition toLowerCase_char (c : N) : N :=
  if is_upper c then (c + 32)%N else c.

Definition toLowerCase (s : text) : text := map toLowerCase_char s.

(** [s.replace(/\s+/g, "-")]: every run of white space becomes one dash
    (code unit 45); [in_run] says that the character before was white
    space. *)
Fixpoint dash_runs (in_run : bool) (s : text) : text :=
  match s with
  | [] => []
  | c :: s' =>
      if JS.is_space c
      then if in_run then dash_runs true s' else 45%N :: dash_runs true s'
      else c :: dash_runs false s'
  end.

Definition clean (slug : text) : text :=
  dash_runs false (toLowerCase (JS.trim slug)).

(** [handleGo]: the path navigated to, [None] when it does not navigate. *)
Definition handleGo (slug : text) : option text :=
  match clean slug with
  | [] => None
  | c => Some (str "/order/" ++ c)%list
  end.

End WelcomePage.

(** A text without white space and without capital letters. *)
Definition slug_like (s : text) : Prop :=
  Forall (fun c => JS.is_space c = false ∧ WelcomePage.is_upper c = false) s.

(** A text of characters among the first 128, on which the model of
    [toLowerCase] above is exact. *)
Definition ascii_text (s : text) : Prop :=
  Forall (fun c => (c < 128)%N) s.

(** ** [src/pages/DashboardPage.jsx]: what the dashboard shows *)

Module DashboardView.

(** What [timeAgo] prints: ["just now"], ["<m>m ago"], ["<h>h ago"], and
    ["NaNh ago"] for a date that cannot be read. *)
Inductive time_ago :=
| JustNow
| MinutesAgo (m : Z)
| HoursAgo (h : Z)
| HoursAgoNaN.

(** The largest time value of a [Date], in milliseconds. *)
Definition max_time : Z := 8640000000000000.

(** [a - b] for two time values, in binary64.  Time values are integers of
    at most [max_time] in magnitude, so their difference is below [2^54]:
    it is exact up to [2^53], and beyond that the nearest even integer, the
    multiple of four when two are as near. *)
Definition time_difference (a b : Z) : Z :=
  let d := (a - b)%Z in
  if (Z.abs d <=? 2 ^ 53)%Z then d
  else if Z.even d then d
  else if (d mod 4 =? 1)%Z then (d - 1)%Z else (d + 1)%Z.

(** [timeAgo(date)] at the time [now], both as time values ([None]: an
    invalid date; a number beyond [max_time] is no time value, and the
    date made of it is invalid).  [Math.floor(diff / 1000)] is the integer
    quotient: the quotient in binary64 is below [2^44], where the numbers
    are [2^-9] apart, and a quotient that is not an integer is at least
    [1/1000], more than [2^-10], away from the next integer, so that
    rounding does not reach it.  The same holds of the divisions of the
    seconds by 60 and by 3600. *)
Definition timeAgo (now : Z) (date : option Z) : time_ago :=
  match date with
  | None => HoursAgoNaN
  | Some t =>
      if (max_time <? Z.abs t)%Z then HoursAgoNaN
      else
        let secs := (time_difference now t / 1000)%Z in
        if (secs <? 60)%Z then JustNow
        else if (secs <? 3600)%Z then MinutesAgo (secs / 60)
        else HoursAgo (secs / 3600)
  end.

(** [orders.filter(o => o.status !== "fulfilled")] and
    [orders.filter(o => o.status === "fulfilled")], the two tabs. *)
Definition activeOrders (st : DashboardPage.state) : list DashboardPage.order :=
  List.filter (fun o => negb (String.eqb (DashboardPage.status o) "fulfilled"))
              (DashboardPage.orders st).

Definition fulfilledOrders (st : DashboardPage.state) : list DashboardPage.order :=
  List.filter (fun o => String.eqb (DashboardPage.status o) "fulfilled")
              (DashboardPage.orders st).

(** [STATUS_FLOW[STATUS_FLOW.indexOf(order.status) + 1]] of an order card:
    the advance button is drawn when this is defined, and reads
    "Mark as" with the label of that status. *)
Definition card_nextStatus (o : DashboardPage.order) : option string :=
  DashboardPage.at_index DashboardPage.STATUS_FLOW
    (DashboardPage.indexOf DashboardPage.STATUS_FLOW (DashboardPage.status o) + 1).

End DashboardView.

(** A text that neither starts nor ends with white space. *)
Definition trimmed (s : text) : Prop :=
  match s with
  | [] => True
  | c :: l => ¬ In c white_space ∧ ¬ In (List.last l c) white_space
  end.

(** [sent] is what was typed without the white space at its two ends, and
    is not empty. *)
Definition trimming (typed sent : text) : Prop :=
  sent ≠ [] ∧ trimmed sent
  ∧ ∃ l r, typed = (l ++ sent ++ r)%list ∧ blank l ∧ blank r.

(** The page with the note [note] typed. *)
Definition with_note (note : text) (st : MenuPage.state) : MenuPage.state :=
  {| MenuPage.business_id := MenuPage.business_id st;
     MenuPage.products := MenuPage.products st;
     MenuPage.cart := MenuPage.cart st;
     MenuPage.customerName := MenuPage.customerName st;
     MenuPage.customerNote := note;
     MenuPage.submitting := MenuPage.submitting st;
     MenuPage.confirmed := MenuPage.confirmed st;
     MenuPage.orderId := MenuPage.orderId st |}.

(** A server that refuses every request. *)
Definition offline : env :=
  {| uuid := "-"; server_now := "-"; fails := fun _ => true |}.

(** The browser [b] of a page built with the key [key] as
    [VAPID_PUBLIC_KEY]. *)
Definition with_vapid_key (key : string) (b : Push.browser) : Push.browser :=
  {| Push.has_serviceWorker := Push.has_serviceWorker b;
     Push.has_PushManager := Push.has_PushManager b;
     Push.serviceWorker_ready := Push.serviceWorker_ready b;
     Push.requestPermission := Push.requestPermission b;
     Push.vapid_key_decodes :=
       match PushKey.urlBase64ToUint8Array key with
       | Some _ => true
       | None => false
       end;
     Push.subscribe := Push.subscribe b |}.

(** A menu of two categories, one product without a category. *)
Definition sample_menu : list MenuView.listed :=
  [ {| MenuView.product :=
         {| Products.id := "latte"; Products.business_id := "biz-a";
            Products.name := "Latte"; Products.price := 4.5%float;
            Products.available := true |};
       MenuView.category := Some "Drinks" |};
    {| MenuView.product :=
         {| Products.id := "muffin"; Products.business_id := "biz-a";
            Products.name := "Muffin"; Products.price := 3%float;
            Products.available := true |};
       MenuView.category := Some "Food" |};
    {| MenuView.product :=
         {| Products.id := "water"; Products.business_id := "biz-a";
            Products.name := "Water"; Products.price := 1%float;
            Products.available := true |};
       MenuView.category := None |} ].

(** A server that refuses the line items, and nothing else. *)
Definition refusing_items (uuid now : string) : env :=
  {| uuid := uuid; server_now := now;
     fails := fun q => match q with InsertItems _ => true | _ => false end |}.

(** * Properties *)

(** ** Texts *)

Lemma is_space_spec (c : N) : JS.is_space c = true ↔ In c white_space.
Proof.
  split.
  - unfold JS.is_space.
    rewrite !orb_true_iff, !andb_true_iff, !N.leb_le, !N.eqb_eq.
    unfold white_space. cbn [In]. lia.
  - unfold white_space. cbn [In]. intros H.
    repeat (destruct H as [<-|H]; [reflexivity|]). destruct H.
Qed.

Lemma blank_spaces (s : text) :
  blank s ↔ Forall (fun c => JS.is_space c = true) s.
Proof.
  unfold blank. rewrite !List.Forall_forall.
  split; intros H c Hc; apply is_space_spec, H, Hc.
Qed.

Lemma trimStart_blank s : blank s → JS.trimStart s = [].
Proof.
  rewrite blank_spaces. induction s as [|c s IH]; [reflexivity|].
  cbn [JS.trimStart]. intros H.
  apply Forall_cons in H as [-> H]. now apply IH.
Qed.

Lemma trim_blank s : blank s → JS.trim s = [].
Proof. intros H. unfold JS.trim. now rewrite trimStart_blank. Qed.

Lemma trimStart_head s c t : JS.trimStart s = c :: t → JS.is_space c = false.
Proof.
  induction s as [|a s IH]; cbn [JS.trimStart]; [discriminate|].
  destruct (JS.is_space a) eqn:E; [exact IH|]. intros [= <- _]. exact E.
Qed.

Lemma trimStart_empty s : JS.trimStart s = [] → blank s.
Proof.
  rewrite blank_spaces. induction s as [|a s IH]; cbn [JS.trimStart].
  - constructor.
  - destruct (JS.is_space a) eqn:E; [|discriminate]. intros H. constructor; auto.
Qed.

Lemma trimEnd_empty s : JS.trimEnd s = [] → blank s.
Proof.
  rewrite blank_spaces. induction s as [|a s IH]; cbn [JS.trimEnd].
  - constructor.
  - destruct (JS.trimEnd s) eqn:Et; [|discriminate].
    destruct (JS.is_space a) eqn:E; [|discriminate]. intros _. constructor; auto.
Qed.

Lemma trim_empty_blank s : JS.trim s = [] → blank s.
Proof.
  unfold JS.trim. intros H. apply trimEnd_empty in H.
  apply trimStart_empty. destruct (JS.trimStart s) as [|c t] eqn:E; [reflexivity|].
  apply trimStart_head in E. apply blank_spaces in H.
  apply Forall_cons in H as [Hc _]. congruence.
Qed.

Lemma trim_blank_iff s : JS.trim s = [] ↔ blank s.
Proof. split; [apply trim_empty_blank|apply trim_blank]. Qed.

Lemma trimEnd_last s d :
  JS.trimEnd s ≠ [] → JS.is_space (List.last (JS.trimEnd s) d) = false.
Proof.
  induction s as [|c s IH]; [intros H; now destruct H|].
  cbn [JS.trimEnd]. destruct (JS.trimEnd s) as [|a b] eqn:E.
  - destruct (JS.is_space c) eqn:Hc; [intros H; now destruct H|]. intros _. exact Hc.
  - intros _. specialize (IH ltac:(discriminate)).
    cbn [List.last] in *. exact IH.
Qed.

Lemma not_space (c : N) : JS.is_space c = false → ¬ In c white_space.
Proof. intros H Hin. apply is_space_spec in Hin. congruence. Qed.

Lemma trim_trimmed s : trimmed (JS.trim s).
Proof.
  unfold trimmed, JS.trim.
  destruct (JS.trimStart s) as [|c t] eqn:E; [exact I|].
  apply trimStart_head in E. cbn [JS.trimEnd].
  destruct (JS.trimEnd t) as [|a b] eqn:Et.
  - rewrite E. cbn. split; now apply not_space.
  - split; [now apply not_space|]. apply not_space.
    pose proof (trimEnd_last t c) as H. rewrite Et in H.
    apply H. discriminate.
Qed.

Lemma trimStart_split s : ∃ l, s = (l ++ JS.trimStart s)%list ∧ blank l.
Proof.
  induction s as [|c s (l & Hs & Hl)]; [exists []; split; [reflexivity|constructor]|].
  cbn [JS.trimStart]. destruct (JS.is_space c) eqn:E.
  - exists (c :: l). split; [cbn; now f_equal|].
    constructor; [now apply is_space_spec|exact Hl].
  - exists []. split; [reflexivity|constructor].
Qed.

Lemma trimEnd_split s : ∃ r, s = (JS.trimEnd s ++ r)%list ∧ blank r.
Proof.
  induction s as [|c s (r & Hs & Hr)]; [exists []; split; [reflexivity|constructor]|].
  cbn [JS.trimEnd]. destruct (JS.trimEnd s) as [|a b] eqn:E.
  - destruct (JS.is_space c) eqn:Ec.
    + exists (c :: s). split; [reflexivity|].
      constructor; [now apply is_space_spec|]. now apply trimEnd_empty.
    + exists r. split; [cbn; f_equal; exact Hs|exact Hr].
  - exists r. split; [cbn; f_equal; exact Hs|exact Hr].
Qed.

Lemma trim_split s :
  ∃ l r, s = (l ++ JS.trim s ++ r)%list ∧ blank l ∧ blank r.
Proof.
  destruct (trimStart_split s) as (l & Hs & Hl).
  destruct (trimEnd_split (JS.trimStart s)) as (r & Ht & Hr).
  exists l, r. unfold JS.trim. split; [|auto]. now rewrite <- Ht.
Qed.

Lemma trim_trimming s : JS.trim s ≠ [] → trimming s (JS.trim s).
Proof.
  intros H. split; [exact H|]. split; [apply trim_trimmed|apply trim_split].
Qed.

(** A text of which something is left after trimming is not blank. *)
Lemma trimming_not_blank typed sent : trimming typed sent → ¬ blank typed.
Proof.
  intros (Hne & Ht & l & r & -> & _ & _) Hb.
  destruct sent as [|c t]; [now apply Hne|]. destruct Ht as [Hc _].
  unfold blank in Hb. rewrite Forall_app in Hb. destruct Hb as [_ Hb].
  cbn [app] in Hb. apply Forall_cons in Hb as [Hb _]. now apply Hc.
Qed.

(** What [trim] takes away is white space at the two ends. *)

(** ** Binary64 numbers *)

Lemma digits2_pos_log2 (m : positive) :
  Z.pos (digits2_pos m) = (Z.log2 (Z.pos m) + 1)%Z.
Proof.
  induction m as [m IH|m IH|]; [| |reflexivity]; cbn [digits2_pos];
    rewrite Pos2Z.inj_succ, IH.
  - rewrite Pos2Z.inj_xI, Z.log2_succ_double by lia. lia.
  - rewrite Pos2Z.inj_xO, Z.log2_double by lia. lia.
Qed.

(** The mantissa of a binary64 number is below [2^53]. *)
Lemma finite_mantissa (y : float) s m e :
  Prim2SF y = S754_finite s m e → (Z.pos m < 2 ^ 53)%Z.
Proof.
  intros H. pose proof (Prim2SF_valid y) as Hv. rewrite H in Hv.
  cbn [SpecFloat.valid_binary] in Hv. unfold bounded, canonical_mantissa in Hv.
  apply andb_true_iff in Hv as [Hc _]. apply Z.eqb_eq in Hc.
  unfold fexp in Hc. rewrite digits2_pos_log2 in Hc.
  apply Z.log2_lt_pow2; [lia|]. unfold prec in Hc. lia.
Qed.

Lemma finite_valid (s : bool) (m : positive) (e : Z) :
  (Z.pos m < 2 ^ 53)%Z → (-1074 <= e <= 971)%Z →
  (2 ^ 52 <= Z.pos m ∨ e = -1074)%Z →
  Prim2SF (SF2Prim (S754_finite s m e)) = S754_finite s m e.
Proof.
  intros Hm He Hn. apply Prim2SF_SF2Prim.
  cbn [SpecFloat.valid_binary]. unfold bounded, canonical_mantissa, fexp.
  rewrite digits2_pos_log2. apply andb_true_iff. split.
  - apply Z.eqb_eq. change (SpecFloat.emin prec emax) with (-1074)%Z. unfold prec.
    assert (Z.log2 (Z.pos m) < 53)%Z by (apply Z.log2_lt_pow2; lia).
    destruct Hn as [Hn|Hn]; [|lia].
    assert (52 <= Z.log2 (Z.pos m))%Z by (apply Z.log2_le_pow2; lia). lia.
  - apply Z.leb_le. unfold emax, prec. lia.
Qed.

Lemma round_half_even_near (a b : Z) :
  (0 < b)%Z → (2 * Z.abs (b * round_half_even a b - a) <= b)%Z.
Proof.
  intros Hb. unfold round_half_even.
  pose proof (Z.div_mod a b ltac:(lia)) as Hd.
  pose proof (Z.mod_pos_bound a b Hb) as Hr.
  set (q := (a / b)%Z) in *. set (r := (a mod b)%Z) in *.
  destruct (Z.ltb_spec (2 * r) b); [lia|].
  destruct (Z.ltb_spec b (2 * r)); [lia|].
  destruct (Z.even q); lia.
Qed.

Lemma round_half_even_between (a b lo hi : Z) :
  (0 < b)%Z → (lo * b <= a)%Z → (a <= hi * b)%Z →
  (lo <= round_half_even a b <= hi)%Z.
Proof.
  intros Hb Hlo Hhi. unfold round_half_even.
  pose proof (Z.div_mod a b ltac:(lia)) as Hd.
  pose proof (Z.mod_pos_bound a b Hb) as Hr.
  set (q := (a / b)%Z) in *. set (r := (a mod b)%Z) in *.
  assert (lo <= q)%Z by nia.
  assert (q <= hi)%Z by nia.
  assert (0 < r → q < hi)%Z by nia.
  destruct (Z.ltb_spec (2 * r) b); [lia|].
  destruct (Z.ltb_spec b (2 * r)); [lia|].
  destruct (Z.even q); lia.
Qed.

(** The two scalings of a fraction, brought to the units of [2^-k]. *)
Lemma scaled_num_ticks num e k :
  (0 <= k)%Z → (0 <= e + k)%Z →
  (scaled_num num e * 2 ^ (k - Z.max 0 (- e)) = Z.pos num * 2 ^ k)%Z.
Proof.
  intros Hk Hek. unfold scaled_num.
  rewrite <- Z.mul_assoc, <- Z.pow_add_r by lia. f_equal. f_equal. lia.
Qed.

Lemma scaled_den_ticks den e k :
  (0 <= k)%Z → (0 <= e + k)%Z →
  (scaled_den den e * 2 ^ (k - Z.max 0 (- e)) = Z.pos den * 2 ^ (e + k))%Z.
Proof.
  intros Hk Hek. unfold scaled_den.
  rewrite <- Z.mul_assoc, <- Z.pow_add_r by lia. f_equal. f_equal. lia.
Qed.

Lemma scaled_pos num den e :
  (0 < scaled_num num e ∧ 0 < scaled_den den e)%Z.
Proof.
  unfold scaled_num, scaled_den.
  split; apply Z.mul_pos_pos; try lia; apply Z.pow_pos_nonneg; lia.
Qed.

(** Raising the exponent by one halves the fraction. *)
Lemma scaled_succ num den e x :
  (x * scaled_den den (e + 1) * scaled_num num e
   = 2 * (x * scaled_den den e * scaled_num num (e + 1)))%Z.
Proof.
  unfold scaled_num, scaled_den.
  destruct (Z.le_gt_cases 0 e) as [He|He].
  - replace (Z.max 0 (e + 1)) with (e + 1)%Z by lia.
    replace (Z.max 0 e) with e by lia.
    replace (Z.max 0 (- e)) with 0%Z by lia.
    replace (Z.max 0 (- (e + 1))) with 0%Z by lia.
    rewrite Z.pow_add_r by lia. change (2 ^ 1)%Z with 2%Z. change (2 ^ 0)%Z with 1%Z. ring.
  - replace (Z.max 0 (e + 1)) with 0%Z by lia.
    replace (Z.max 0 e) with 0%Z by lia.
    replace (Z.max 0 (- e)) with (- (e + 1) + 1)%Z by lia.
    replace (Z.max 0 (- (e + 1))) with (- (e + 1))%Z by lia.
    rewrite Z.pow_add_r by lia. change (2 ^ 1)%Z with 2%Z. change (2 ^ 0)%Z with 1%Z. ring.
Qed.

(** At the first guess of the exponent the mantissa has 53 or 54 bits. *)
Lemma first_guess num den :
  let e0 := (Z.log2 (Z.pos num) - Z.log2 (Z.pos den) - 53)%Z in
  (2 ^ 52 * scaled_den den e0 <= scaled_num num e0
   ∧ scaled_num num e0 < 2 ^ 54 * scaled_den den e0)%Z.
Proof.
  cbv zeta. set (a := Z.log2 (Z.pos num)). set (b := Z.log2 (Z.pos den)).
  pose proof (Z.log2_spec (Z.pos num) ltac:(lia)) as Ha.
  pose proof (Z.log2_spec (Z.pos den) ltac:(lia)) as Hb.
  pose proof (Z.log2_nonneg (Z.pos num)). pose proof (Z.log2_nonneg (Z.pos den)).
  fold a in Ha, H. fold b in Hb, H0.
  unfold Z.succ in *. rewrite Z.pow_add_r in Ha, Hb by lia.
  change (2 ^ 1)%Z with 2%Z in *.
  assert (Hpa : (0 < 2 ^ a)%Z) by (apply Z.pow_pos_nonneg; lia).
  assert (Hpb : (0 < 2 ^ b)%Z) by (apply Z.pow_pos_nonneg; lia).
  unfold scaled_num, scaled_den.
  destruct (Z.le_gt_cases 0 (a - b - 53)) as [He|He].
  - replace (Z.max 0 (a - b - 53)) with (a - b - 53)%Z by lia.
    replace (Z.max 0 (- (a - b - 53))) with 0%Z by lia.
    change (2 ^ 0)%Z with 1%Z.
    assert (Hs : (2 ^ a = 2 ^ 53 * 2 ^ b * 2 ^ (a - b - 53))%Z).
    { rewrite <- !Z.pow_add_r by lia. f_equal. lia. }
    assert (Hp : (0 < 2 ^ (a - b - 53))%Z) by (apply Z.pow_pos_nonneg; lia).
    set (u := (2 ^ (a - b - 53))%Z) in *. set (pa := (2 ^ a)%Z) in *.
    set (pb := (2 ^ b)%Z) in *. nia.
  - replace (Z.max 0 (a - b - 53)) with 0%Z by lia.
    replace (Z.max 0 (- (a - b - 53))) with (b + 53 - a)%Z by lia.
    change (2 ^ 0)%Z with 1%Z.
    assert (Hs : (2 ^ a * 2 ^ (b + 53 - a) = 2 ^ 53 * 2 ^ b)%Z).
    { rewrite <- !Z.pow_add_r by lia. f_equal. lia. }
    assert (Hp : (0 < 2 ^ (b + 53 - a))%Z) by (apply Z.pow_pos_nonneg; lia).
    set (u := (2 ^ (b + 53 - a))%Z) in *. set (pa := (2 ^ a)%Z) in *.
    set (pb := (2 ^ b)%Z) in *. nia.
Qed.

(** In the range of the normal numbers, [exponent_of] gives a mantissa of
    53 bits. *)
Lemma exponent_of_normal num den :
  (-1074 <= Z.log2 (Z.pos num) - Z.log2 (Z.pos den) - 53)%Z →
  let e := exponent_of num den in
  (-1074 <= e
   ∧ Z.log2 (Z.pos num) - Z.log2 (Z.pos den) - 53 <= e
     <= Z.log2 (Z.pos num) - Z.log2 (Z.pos den) - 52
   ∧ 2 ^ 52 * scaled_den den e <= scaled_num num e
   ∧ scaled_num num e < 2 ^ 53 * scaled_den den e)%Z.
Proof.
  intros Hn. cbv zeta. unfold exponent_of.
  set (e0 := (Z.log2 (Z.pos num) - Z.log2 (Z.pos den) - 53)%Z) in *.
  destruct (first_guess num den) as [Hlo Hhi]. fold e0 in Hlo, Hhi.
  destruct (scaled_pos num den e0) as [Hn0 Hd0].
  destruct (scaled_pos num den (e0 + 1)) as [Hn1 Hd1].
  pose proof (Z.div_mod (scaled_num num e0) (scaled_den den e0) ltac:(lia)) as Hdm.
  pose proof (Z.mod_pos_bound (scaled_num num e0) (scaled_den den e0) Hd0) as Hmb.
  destruct (Z.ltb_spec (scaled_num num e0 / scaled_den den e0) (2 ^ 53)) as [Hk|Hk].
  - rewrite Z.max_l by lia. split; [lia|split; [lia|split; [exact Hlo|]]].
    change (2 ^ 53)%Z with 9007199254740992%Z in *. nia.
  - rewrite Z.max_l by lia. split; [lia|split; [lia|]].
    assert (Hge : (2 ^ 53 * scaled_den den e0 <= scaled_num num e0)%Z).
    { change (2 ^ 53)%Z with 9007199254740992%Z in *. nia. }
    clear Hdm Hmb Hk.
    pose proof (scaled_succ num den e0 1) as Hs.
    set (n0 := scaled_num num e0) in *. set (d0 := scaled_den den e0) in *.
    set (n1 := scaled_num num (e0 + 1)) in *. set (d1 := scaled_den den (e0 + 1)) in *.
    change (2 ^ 52)%Z with 4503599627370496%Z.
    change (2 ^ 53)%Z with 9007199254740992%Z in *.
    change (2 ^ 54)%Z with 18014398509481984%Z in *.
    split; nia.
Qed.

(** What [nearest_float] gives in the range of the normal numbers: a
    number of [M] units of [2^E], where [M] is an integer nearest to
    [num / (den × 2^E)], which lies between [2^52] and [2^53]. *)
Lemma nearest_float_normal (negative : bool) (num den : positive) :
  (-1074 <= Z.log2 (Z.pos num) - Z.log2 (Z.pos den) - 53)%Z →
  (Z.log2 (Z.pos num) - Z.log2 (Z.pos den) <= 1022)%Z →
  ∃ (m : positive) (e M E : Z),
    Prim2SF (nearest_float negative num den) = S754_finite negative m e
    ∧ (2 ^ 52 <= Z.pos m < 2 ^ 53)%Z
    ∧ (Z.pos m * 2 ^ (e + 1074) = M * 2 ^ (E + 1074))%Z
    ∧ (-1074 <= E)%Z ∧ (E <= e <= E + 1)%Z
    ∧ (2 ^ 52 <= M <= 2 ^ 53)%Z
    ∧ (2 * Z.abs (M * (Z.pos den * 2 ^ (E + 1074)) - Z.pos num * 2 ^ 1074)
       <= Z.pos den * 2 ^ (E + 1074))%Z
    ∧ (2 ^ 52 * (Z.pos den * 2 ^ (E + 1074)) <= Z.pos num * 2 ^ 1074)%Z
    ∧ (Z.pos num * 2 ^ 1074 < 2 ^ 53 * (Z.pos den * 2 ^ (E + 1074)))%Z.
Proof.
  intros Hlo Hhi.
  destruct (exponent_of_normal num den Hlo) as (HE & HE' & Hb1 & Hb2).
  unfold nearest_float. set (E := exponent_of num den) in *.
  destruct (scaled_pos num den E) as [Hsn Hsd].
  pose proof (round_half_even_near (scaled_num num E) (scaled_den den E) Hsd) as Hnear.
  pose proof (round_half_even_between (scaled_num num E) (scaled_den den E)
                (2 ^ 52) (2 ^ 53) Hsd ltac:(lia) ltac:(lia)) as Hbt.
  set (M := round_half_even (scaled_num num E) (scaled_den den E)) in *.
  assert (Hp : (0 < 2 ^ (1074 - Z.max 0 (- E)))%Z) by (apply Z.pow_pos_nonneg; lia).
  pose proof (scaled_num_ticks num E 1074 ltac:(lia) ltac:(lia)) as Hnt.
  pose proof (scaled_den_ticks den E 1074 ltac:(lia) ltac:(lia)) as Hdt.
  assert (Hticks :
    (2 * Z.abs (M * (Z.pos den * 2 ^ (E + 1074)) - Z.pos num * 2 ^ 1074)
       <= Z.pos den * 2 ^ (E + 1074)
     ∧ 2 ^ 52 * (Z.pos den * 2 ^ (E + 1074)) <= Z.pos num * 2 ^ 1074
     ∧ Z.pos num * 2 ^ 1074 < 2 ^ 53 * (Z.pos den * 2 ^ (E + 1074)))%Z).
  { rewrite <- Hnt, <- Hdt.
    set (u := (2 ^ (1074 - Z.max 0 (- E)))%Z) in *.
    set (sn := scaled_num num E) in *. set (sd := scaled_den den E) in *.
    split; [|split].
    - replace (M * (sd * u) - sn * u)%Z with ((sd * M - sn) * u)%Z by ring.
      rewrite Z.abs_mul, (Z.abs_eq u) by lia. nia.
    - change (2 ^ 52)%Z with 4503599627370496%Z in *. nia.
    - change (2 ^ 53)%Z with 9007199254740992%Z in *. nia. }
  destruct Hticks as (Ht1 & Ht2 & Ht3).
  destruct (Z.eqb_spec M (2 ^ 53)) as [HM|HM].
  - change (2 ^ 52)%Z with (Z.pos (2 ^ 52)%positive).
    destruct (Z.leb_spec (E + 1) 971) as [_|Habs]; [|lia].
    exists (2 ^ 52)%positive, (E + 1)%Z, M, E.
    split; [apply finite_valid; [reflexivity|lia|left; reflexivity]|].
    split; [split; [reflexivity|reflexivity]|].
    split; [rewrite HM; replace (E + 1 + 1074)%Z with (1 + (E + 1074))%Z by lia;
            rewrite Z.pow_add_r by lia;
            change (2 ^ 53)%Z with (Z.pos (2 ^ 52) * 2 ^ 1)%Z; ring|].
    repeat (split; [lia|]). exact Ht3.
  - destruct M as [|p|p] eqn:EM; [change (2^52)%Z with 4503599627370496%Z in Hbt; lia| |lia].
    destruct (Z.leb_spec E 971) as [_|Habs]; [|lia].
    exists p, E, (Z.pos p), E.
    split; [apply finite_valid; [lia|lia|left; lia]|].
    repeat (split; [lia|]). exact Ht3.
Qed.

Lemma nearest_among_multiples (M D N j : Z) :
  (0 < D)%Z → (2 * Z.abs (M * D - N) <= D)%Z →
  (Z.abs (M * D - N) <= Z.abs (j * D - N))%Z.
Proof.
  intros HD HM. destruct (Z.eq_dec j M) as [->|Hj]; [lia|].
  assert (H : (j <= M - 1 ∨ M + 1 <= j)%Z) by lia.
  destruct H; nia.
Qed.

Lemma nearest_from_below (M D N w : Z) :
  (0 < D)%Z → (2 * Z.abs (M * D - N) <= D)%Z →
  (2 ^ 52 <= M)%Z → (2 ^ 52 * D <= N)%Z → (w <= 2 ^ 52 * D)%Z →
  (Z.abs (M * D - N) <= Z.abs (w - N))%Z.
Proof.
  change (2 ^ 52)%Z with 4503599627370496%Z. intros HD HM HM2 HN Hw.
  destruct (Z.le_gt_cases (M * D) N) as [H|H]; [nia|].
  assert (4503599627370496 + 1 <= M)%Z by nia. nia.
Qed.

(** [nearest_float] gives a nearest binary64 number. *)
Lemma nearest_float_nearest (negative : bool) (num den : positive) :
  (-1074 <= Z.log2 (Z.pos num) - Z.log2 (Z.pos den) - 53)%Z →
  (Z.log2 (Z.pos num) - Z.log2 (Z.pos den) <= 1022)%Z →
  nearest_to ((if negative then -1 else 1) * Z.pos num) den
             (nearest_float negative num den).
Proof.
  intros Hlo Hhi.
  destruct (nearest_float_normal negative num den Hlo Hhi)
    as (m & e & M & E & Hf & Hm & Hv & HE & He & HM & Hnear & Hge & Hlt).
  unfold nearest_to, ticks. rewrite Hf.
  set (sg := (if negative then -1 else 1)%Z).
  exists (sg * Z.pos m * 2 ^ (e + 1074))%Z. split; [reflexivity|].
  assert (HU : (0 < 2 ^ (E + 1074))%Z) by (apply Z.pow_pos_nonneg; lia).
  set (U := (2 ^ (E + 1074))%Z) in *.
  set (D := (Z.pos den * U)%Z) in *. set (N := (Z.pos num * 2 ^ 1074)%Z) in *.
  assert (HD : (0 < D)%Z) by (unfold D; lia).
  assert (Hsg : (sg = 1 ∨ sg = -1)%Z) by (unfold sg; destruct negative; auto).
  assert (Ht : (Z.abs (Z.pos den * (sg * Z.pos m * 2 ^ (e + 1074)) - sg * Z.pos num * 2 ^ 1074)
                = Z.abs (M * D - N))%Z).
  { rewrite <- Z.mul_assoc, Hv. fold U.
    replace (Z.pos den * (sg * (M * U)) - sg * Z.pos num * 2 ^ 1074)%Z
      with (sg * (M * D - N))%Z by (unfold D, N; ring).
    rewrite Z.abs_mul. destruct Hsg as [-> | ->]; cbn; lia. }
  rewrite Ht. clear Ht.
  assert (Hfar : ∀ w, (w <= 0)%Z → (Z.abs (M * D - N) <= Z.abs (w - N))%Z).
  { intros w Hw. apply nearest_from_below; try lia;
      (change (2 ^ 52)%Z with 4503599627370496%Z; lia). }
  intros y zy Hy.
  assert (Hw : ∀ w, (Z.abs (Z.pos den * (sg * w) - sg * Z.pos num * 2 ^ 1074)
                     = Z.abs (Z.pos den * w - N))%Z).
  { intros w. replace (Z.pos den * (sg * w) - sg * Z.pos num * 2 ^ 1074)%Z
      with (sg * (Z.pos den * w - N))%Z by (unfold N; ring).
    rewrite Z.abs_mul. destruct Hsg as [-> | ->]; cbn; lia. }
  destruct (Prim2SF y) as [s'| | |s' m' e'] eqn:Ey; try discriminate.
  - injection Hy as <-.
    replace (Z.pos den * 0)%Z with (Z.pos den * (sg * 0))%Z by ring.
    rewrite Hw. apply Hfar. lia.
  - injection Hy as <-. pose proof (finite_mantissa y s' m' e' Ey) as Hm'.
    set (sg' := (if s' then -1 else 1)%Z).
    assert (Hsg' : (sg' = sg ∨ sg' = - sg)%Z)
      by (unfold sg', sg; destruct s', negative; auto).
    destruct Hsg' as [-> | ->].
    + rewrite <- Z.mul_assoc, Hw.
      destruct (Z.lt_ge_cases (e' + 1074) 0) as [Hneg|Hpos].
      { rewrite (Z.pow_neg_r 2 (e' + 1074)) by lia. rewrite Z.mul_0_r.
        apply Hfar. lia. }
      destruct (Z.le_gt_cases E e') as [Hee|Hee].
      * replace (e' + 1074)%Z with ((e' - E) + (E + 1074))%Z by lia.
        rewrite Z.pow_add_r by lia. fold U.
        replace (Z.pos den * (Z.pos m' * (2 ^ (e' - E) * U)))%Z
          with ((Z.pos m' * 2 ^ (e' - E)) * D)%Z by (unfold D; ring).
        now apply nearest_among_multiples.
      * apply nearest_from_below; try lia.
        assert (HU' : (U = 2 ^ (E - e') * 2 ^ (e' + 1074))%Z).
        { unfold U. rewrite <- Z.pow_add_r by lia. f_equal. lia. }
        assert (H2 : (2 <= 2 ^ (E - e'))%Z).
        { change 2%Z with (2 ^ 1)%Z at 1. apply Z.pow_le_mono_r; lia. }
        assert (Hp' : (0 <= 2 ^ (e' + 1074))%Z) by (apply Z.pow_nonneg; lia).
        unfold D. rewrite HU'.
        set (u' := (2 ^ (e' + 1074))%Z) in *. set (k := (2 ^ (E - e'))%Z) in *.
        change (2 ^ 52)%Z with 4503599627370496%Z.
        change (2 ^ 53)%Z with 9007199254740992%Z in Hm'.
        assert (Z.pos m' * u' <= 9007199254740992 * u')%Z by nia.
        assert (2 * u' <= k * u')%Z by nia.
        nia.
    + replace (- sg * Z.pos m' * 2 ^ (e' + 1074))%Z
        with (sg * (- (Z.pos m' * 2 ^ (e' + 1074))))%Z by ring.
      rewrite Hw.
      assert (0 <= 2 ^ (e' + 1074))%Z by (apply Z.pow_nonneg; lia).
      replace (Z.pos den * - (Z.pos m' * 2 ^ (e' + 1074)))%Z
        with (- (Z.pos den * Z.pos m' * 2 ^ (e' + 1074)))%Z by ring.
      apply Hfar. nia.
Qed.

Lemma finite_exponent (y : float) s m e :
  Prim2SF y = S754_finite s m e → (-1074 <= e)%Z.
Proof.
  intros H. pose proof (Prim2SF_valid y) as Hv. rewrite H in Hv.
  cbn [SpecFloat.valid_binary] in Hv. unfold bounded, canonical_mantissa in Hv.
  apply andb_true_iff in Hv as [Hc _]. apply Z.eqb_eq in Hc.
  unfold fexp in Hc. change (SpecFloat.emin prec emax) with (-1074)%Z in Hc. lia.
Qed.

(** [nearest_hundredths] in units of [2^-1074]: with [v] the units of
    [m × 2^e], the integer [c] has [c <= 100 v / 2^1074 + 1/2 < c + 1]. *)
Lemma nearest_hundredths_ticks (m : positive) (e : Z) :
  (-1074 <= e)%Z →
  let c := JS.nearest_hundredths m e in
  let v := (Z.pos m * 2 ^ (e + 1074))%Z in
  (2 * c * 2 ^ 1074 <= 200 * v + 2 ^ 1074
   ∧ 200 * v + 2 ^ 1074 < (2 * c + 2) * 2 ^ 1074)%Z.
Proof.
  intros He. cbv zeta. unfold JS.nearest_hundredths.
  destruct (Z.leb_spec 0 e) as [H0|H0].
  - rewrite Z.pow_add_r by lia.
    assert (0 < 2 ^ 1074)%Z by (apply Z.pow_pos_nonneg; lia).
    set (T := (2 ^ 1074)%Z) in *. nia.
  - assert (Hp : (0 < 2 ^ (- e))%Z) by (apply Z.pow_pos_nonneg; lia).
    assert (Hu : (0 < 2 ^ (e + 1074))%Z) by (apply Z.pow_pos_nonneg; lia).
    assert (HT : (2 ^ 1074 = 2 ^ (- e) * 2 ^ (e + 1074))%Z).
    { rewrite <- Z.pow_add_r by lia. f_equal. lia. }
    replace (1 - e)%Z with (1 + - e)%Z by lia. rewrite Z.pow_add_r by lia.
    change (2 ^ 1)%Z with 2%Z.
    rewrite HT. set (p := (2 ^ (- e))%Z) in *. set (u := (2 ^ (e + 1074))%Z) in *.
    pose proof (Z.div_mod (200 * Z.pos m + p) (2 * p) ltac:(lia)) as Hd.
    pose proof (Z.mod_pos_bound (200 * Z.pos m + p) (2 * p) ltac:(lia)) as Hr.
    set (c := ((200 * Z.pos m + p) / (2 * p))%Z) in *.
    set (r := ((200 * Z.pos m + p) mod (2 * p))%Z) in *.
    split; nia.
Qed.

Lemma nearest_hundredths_nonneg m e : (0 <= JS.nearest_hundredths m e)%Z.
Proof.
  unfold JS.nearest_hundredths. destruct (Z.leb_spec 0 e) as [He|He].
  - assert (0 <= 2 ^ e)%Z by (apply Z.pow_nonneg; lia). nia.
  - apply Z.div_pos; [|apply Z.pow_pos_nonneg; lia].
    assert (0 <= 2 ^ (- e))%Z by (apply Z.pow_nonneg; lia). lia.
Qed.

(** A number within half a unit in the last place of [k / den], for a
    fraction below [10^8 + 1] whose denominator is [100] or [1000]:
    its exponent is at most [-25]. *)
Lemma small_exponent (k den : positive) (M E : Z) :
  (Z.pos den <= 1000)%Z → (100 <= Z.pos den)%Z →
  (Z.pos k < (10 ^ 8 + 1) * Z.pos den)%Z →
  (-1074 <= E)%Z → (2 ^ 52 <= M)%Z →
  (2 ^ 52 * (Z.pos den * 2 ^ (E + 1074)) <= Z.pos k * 2 ^ 1074)%Z →
  (E <= -26)%Z.
Proof.
  intros Hd1 Hd2 Hk HE HM Hge.
  destruct (Z.le_gt_cases E (-26)) as [H|H]; [exact H|exfalso].
  assert (HU : (2 ^ (E + 1074) = 2 ^ (E + 25) * 2 ^ 1049)%Z).
  { rewrite <- Z.pow_add_r by lia. f_equal. lia. }
  assert (HT : (2 ^ 1074 = 2 ^ 25 * 2 ^ 1049)%Z) by (rewrite <- Z.pow_add_r by lia; reflexivity).
  assert (H1 : (1 <= 2 ^ (E + 25))%Z).
  { change 1%Z with (2 ^ 0)%Z. apply Z.pow_le_mono_r; lia. }
  assert (Hw : (0 < 2 ^ 1049)%Z) by (apply Z.pow_pos_nonneg; lia).
  rewrite HU, HT in Hge.
  set (w := (2 ^ 1049)%Z) in *. set (g := (2 ^ (E + 25))%Z) in *.
  change (2 ^ 52)%Z with 4503599627370496%Z in *.
  change (2 ^ 25)%Z with 33554432%Z in *.
  change (10 ^ 8 + 1)%Z with 100000001%Z in *.
  assert (4503599627370496 * (Z.pos den * w) <= 4503599627370496 * (Z.pos den * (g * w)))%Z by nia.
  assert (Z.pos k * (33554432 * w) < 100000001 * Z.pos den * (33554432 * w))%Z by nia.
  nia.
Qed.

Lemma log2_below (k : positive) (b : Z) :
  (Z.pos k < 2 ^ b)%Z → (0 <= Z.log2 (Z.pos k) < b)%Z.
Proof.
  intros H. split; [apply Z.log2_nonneg|]. apply Z.log2_lt_pow2; lia.
Qed.

(** A number of two decimals below [10^8] that was sent as the nearest
    binary64 number is stored as it is. *)
Lemma numeric_of_cents (s : bool) (k : positive) :
  (Z.pos k < 10 ^ 10)%Z →
  numeric_10_2 (nearest_float s k 100) = Some (nearest_float s k 100).
Proof.
  intros Hk.
  assert (Hl : (0 <= Z.log2 (Z.pos k) < 34)%Z)
    by (apply log2_below; change (2 ^ 34)%Z with 17179869184%Z;
        change (10 ^ 10)%Z with 10000000000%Z in Hk; lia).
  assert (Hl' : (0 <= Z.log2 (Z.pos (10 * k + 5)) < 38)%Z)
    by (apply log2_below; change (2 ^ 38)%Z with 274877906944%Z;
        change (10 ^ 10)%Z with 10000000000%Z in Hk; lia).
  change (10 ^ 10)%Z with 10000000000%Z in Hk.
  destruct (nearest_float_normal s k 100)
    as (m & e & M & E & Hf & Hm & Hv & HE & He & HM & Hnear & Hge & Hlt);
    [change (Z.log2 100) with 6%Z; lia|change (Z.log2 100) with 6%Z; lia|].
  assert (HE26 : (E <= -26)%Z).
  { apply (small_exponent k 100 M E); try lia;
      (change (10 ^ 8 + 1)%Z with 100000001%Z; lia). }
  unfold numeric_10_2. rewrite Hf. cbv zeta.
  pose proof (nearest_hundredths_ticks m e ltac:(lia)) as Hc. cbv zeta in Hc.
  set (c := JS.nearest_hundredths m e) in *.
  assert (Hu : (0 < 2 ^ (e + 1074))%Z) by (apply Z.pow_pos_nonneg; lia).
  assert (HU : (0 < 2 ^ (E + 1074))%Z) by (apply Z.pow_pos_nonneg; lia).
  assert (HUu : (2 ^ (E + 1074) <= 2 ^ (e + 1074))%Z) by (apply Z.pow_le_mono_r; lia).
  assert (HT : (2 ^ 1074 = 2 ^ (- e) * 2 ^ (e + 1074))%Z).
  { rewrite <- Z.pow_add_r by lia. f_equal. lia. }
  assert (Hp : (2 ^ 25 <= 2 ^ (- e))%Z) by (apply Z.pow_le_mono_r; lia).
  change (2 ^ 25)%Z with 33554432%Z in Hp.
  set (u := (2 ^ (e + 1074))%Z) in *. set (U := (2 ^ (E + 1074))%Z) in *.
  set (p := (2 ^ (- e))%Z) in *.
  assert (Hnear' : (2 * Z.abs (100 * (Z.pos m * u) - Z.pos k * 2 ^ 1074) <= 100 * u)%Z).
  { rewrite Hv. replace (100 * (M * U))%Z with (M * (100 * U))%Z by ring. lia. }
  assert (Hck : c = Z.pos k).
  { rewrite HT in Hc, Hnear'. set (V := (Z.pos m * u)%Z) in *. nia. }
  rewrite Hck.
  replace (10 * Z.pos k + 5)%Z with (Z.pos (10 * k + 5)) by lia.
  assert (Htie : reads_as (10 * k + 5) 1000 m e = false).
  { unfold reads_as.
    destruct (nearest_float_normal false (10 * k + 5) 1000)
      as (m' & e' & M' & E' & Hf' & Hm' & Hv' & HE' & He' & HM' & Hnear2 & Hge' & Hlt');
      [change (Z.log2 1000) with 9%Z; lia|change (Z.log2 1000) with 9%Z; lia|].
    rewrite Hf'.
    destruct (Pos.eqb_spec m m') as [<-|_]; [|reflexivity].
    destruct (Z.eqb_spec e e') as [<-|_]; [|reflexivity]. exfalso.
    fold u in Hv'.
    assert (HU' : (0 < 2 ^ (E' + 1074))%Z) by (apply Z.pow_pos_nonneg; lia).
    assert (HUu' : (2 ^ (E' + 1074) <= u)%Z) by (apply Z.pow_le_mono_r; lia).
    set (U' := (2 ^ (E' + 1074))%Z) in *.
    assert (Hn2 : (2 * Z.abs (1000 * (Z.pos m * u) - Z.pos (10 * k + 5) * 2 ^ 1074)
                   <= 1000 * u)%Z).
    { rewrite Hv'. replace (1000 * (M' * U'))%Z with (M' * (1000 * U'))%Z by ring. lia. }
    rewrite HT in Hn2, Hnear'. set (V := (Z.pos m * u)%Z) in *.
    replace (Z.pos (10 * k + 5)) with (10 * Z.pos k + 5)%Z in Hn2 by lia.
    nia. }
  rewrite Htie.
  destruct (Z.leb_spec 10000000000 (Z.pos k)) as [Hbig|_]; [lia|].
  change (10 ^ 10)%Z with 10000000000%Z.
  destruct (Z.leb_spec 10000000000 (Z.pos k)) as [Hbig|_]; [lia|]. reflexivity.
Qed.

(** [toFixed(2)] prints the hundredths nearest to the number. *)
Lemma toFixed2_cents (x : float) (s : bool) (c : Z) :
  JS.toFixed2 x = JS.Hundredths s c →
  (0 <= c)%Z ∧ cents_of x ((if s then -1 else 1) * c).
Proof.
  unfold JS.toFixed2, cents_of, ticks.
  destruct (Prim2SF x) as [s0| | |s0 m e] eqn:Ex; try discriminate.
  - intros H. injection H as <- <-. split; [lia|]. exists 0%Z.
    split; [reflexivity|]. cbn. split; [lia|split; [lia|reflexivity]].
  - destruct (JS.at_least_1e21 m e); [discriminate|].
    intros H. injection H as <- <-.
    pose proof (nearest_hundredths_nonneg m e) as Hc.
    split; [exact Hc|].
    pose proof (finite_exponent x s0 m e Ex) as He.
    pose proof (nearest_hundredths_ticks m e He) as Ht. cbv zeta in Ht.
    set (c := JS.nearest_hundredths m e) in *.
    assert (Hu : (0 < 2 ^ (e + 1074))%Z) by (apply Z.pow_pos_nonneg; lia).
    set (u := (2 ^ (e + 1074))%Z) in *. set (T := (2 ^ 1074)%Z) in *.
    eexists. split; [reflexivity|].
    destruct s0.
    + replace (Z.abs (-1 * c)) with c by lia.
      replace (Z.abs (-1 * Z.pos m * u)) with (Z.pos m * u)%Z by nia.
      split; [nia|]. split; nia.
    + replace (Z.abs (1 * c)) with c by lia.
      replace (Z.abs (1 * Z.pos m * u)) with (Z.pos m * u)%Z by nia.
      split; [nia|]. split; nia.
Qed.

(** The hundredths that [toFixed(2)] prints stay below [10^23 + 1]. *)
Lemma toFixed2_bound (x : float) (s : bool) (c : Z) :
  JS.toFixed2 x = JS.Hundredths s c → (c <= 10 ^ 23)%Z.
Proof.
  unfold JS.toFixed2.
  destruct (Prim2SF x) as [s0| | |s0 m e] eqn:Ex; try discriminate.
  - intros H. injection H as _ <-. change (10 ^ 23)%Z with 100000000000000000000000%Z. lia.
  - unfold JS.at_least_1e21, JS.nearest_hundredths.
    destruct (Z.leb_spec 0 e) as [He|He].
    + destruct (Z.leb_spec (10 ^ 21) (Z.pos m * 2 ^ e)) as [|Hlt]; [discriminate|].
      intros H. injection H as _ <-.
      change (10 ^ 23)%Z with (100 * 10 ^ 21)%Z. lia.
    + destruct (Z.leb_spec (10 ^ 21 * 2 ^ (- e)) (Z.pos m)) as [|Hlt]; [discriminate|].
      intros H. injection H as _ <-.
      assert (Hp : (0 < 2 ^ (- e))%Z) by (apply Z.pow_pos_nonneg; lia).
      replace (1 - e)%Z with (1 + - e)%Z by lia. rewrite Z.pow_add_r by lia.
      change (2 ^ 1)%Z with 2%Z.
      apply Z.lt_succ_r, Z.div_lt_upper_bound; [lia|].
      change (10 ^ 23)%Z with (100 * 10 ^ 21)%Z.
      set (p := (2 ^ (- e))%Z) in *. set (b := (10 ^ 21)%Z) in *. nia.
Qed.

(** A number of [10^21] or more does not fit the column. *)
Lemma numeric_of_huge (x : float) :
  JS.toFixed2 x = JS.AsString x → numeric_10_2 x = None.
Proof.
  unfold JS.toFixed2, numeric_10_2.
  destruct (Prim2SF x) as [s0| | |s0 m e] eqn:Ex; try discriminate; try reflexivity.
  destruct (JS.at_least_1e21 m e) eqn:Hbig; [|discriminate]. intros _. cbv zeta.
  assert (Hc : (10 ^ 10 <= JS.nearest_hundredths m e)%Z).
  { unfold JS.at_least_1e21 in Hbig. unfold JS.nearest_hundredths.
    destruct (Z.leb_spec 0 e) as [He|He].
    - apply Z.leb_le in Hbig.
      change (10 ^ 21)%Z with 1000000000000000000000%Z in Hbig.
      change (10 ^ 10)%Z with 10000000000%Z. lia.
    - apply Z.leb_le in Hbig.
      assert (Hp : (0 < 2 ^ (- e))%Z) by (apply Z.pow_pos_nonneg; lia).
      replace (1 - e)%Z with (1 + - e)%Z by lia. rewrite Z.pow_add_r by lia.
      change (2 ^ 1)%Z with 2%Z.
      apply Z.div_le_lower_bound; [lia|].
      change (10 ^ 21)%Z with 1000000000000000000000%Z in Hbig.
      change (10 ^ 10)%Z with 10000000000%Z.
      set (p := (2 ^ (- e))%Z) in *. nia. }
  set (c := JS.nearest_hundredths m e) in *.
  set (n := match (10 * c + 5)%Z with
            | Z.pos tie => if reads_as tie 1000 m e then (c + 1)%Z else c
            | _ => c
            end).
  assert (Hn : (c <= n)%Z).
  { unfold n. destruct (10 * c + 5)%Z; try lia. destruct (reads_as _ _ _ _); lia. }
  destruct (Z.leb_spec (10 ^ 10) n) as [_|Hlt]; [reflexivity|lia].
Qed.

(** Hundredths of [10^10] or more do not fit the column. *)
Lemma numeric_of_large (s : bool) (k : positive) :
  (10 ^ 10 <= Z.pos k)%Z → (Z.pos k <= 10 ^ 23)%Z →
  numeric_10_2 (nearest_float s k 100) = None.
Proof.
  intros Hk Hk'.
  assert (Hl : (0 <= Z.log2 (Z.pos k) < 77)%Z).
  { apply log2_below. change (2 ^ 77)%Z with 151115727451828646838272%Z.
    change (10 ^ 23)%Z with 100000000000000000000000%Z in Hk'. lia. }
  destruct (nearest_float_normal s k 100)
    as (m & e & M & E & Hf & Hm & Hv & HE & He & HM & Hnear & Hge & Hlt);
    [change (Z.log2 100) with 6%Z; lia|change (Z.log2 100) with 6%Z; lia|].
  unfold numeric_10_2. rewrite Hf. cbv zeta.
  pose proof (nearest_hundredths_ticks m e ltac:(lia)) as Hc. cbv zeta in Hc.
  set (c := JS.nearest_hundredths m e) in *.
  assert (HT0 : (0 < 2 ^ 1074)%Z) by (apply Z.pow_pos_nonneg; lia).
  assert (Hc10 : (10 ^ 10 <= c)%Z).
  { change (10 ^ 10)%Z with 10000000000%Z in *.
    assert (HU : (0 < 2 ^ (E + 1074))%Z) by (apply Z.pow_pos_nonneg; lia).
    rewrite Hv in Hc.
    replace (M * (100 * 2 ^ (E + 1074)))%Z with (100 * (M * 2 ^ (E + 1074)))%Z in Hnear by ring.
    destruct (Z.le_gt_cases E (-7)) as [H7|H7].
    - assert (HT : (2 ^ 1074 = 2 ^ (- E) * 2 ^ (E + 1074))%Z).
      { rewrite <- Z.pow_add_r by lia. f_equal. lia. }
      assert (Hp : (2 ^ 7 <= 2 ^ (- E))%Z) by (apply Z.pow_le_mono_r; lia).
      change (2 ^ 7)%Z with 128%Z in Hp.
      rewrite HT in *. set (U := (2 ^ (E + 1074))%Z) in *.
      set (p := (2 ^ (- E))%Z) in *. set (V := (M * U)%Z) in *. nia.
    - assert (HU' : (2 ^ (E + 1074) = 2 ^ (E + 6) * 2 ^ 1068)%Z).
      { rewrite <- Z.pow_add_r by lia. f_equal. lia. }
      assert (HT : (2 ^ 1074 = 64 * 2 ^ 1068)%Z)
        by (change 64%Z with (2 ^ 6)%Z; rewrite <- Z.pow_add_r by lia; reflexivity).
      assert (H1 : (1 <= 2 ^ (E + 6))%Z).
      { change 1%Z with (2 ^ 0)%Z. apply Z.pow_le_mono_r; lia. }
      assert (Hw : (0 < 2 ^ 1068)%Z) by (apply Z.pow_pos_nonneg; lia).
      rewrite HU', HT in *. set (w := (2 ^ 1068)%Z) in *.
      set (g := (2 ^ (E + 6))%Z) in *.
      change (2 ^ 52)%Z with 4503599627370496%Z in *.
      assert (4503599627370496 * w <= M * (g * w))%Z by nia. nia. }
  set (n := match (10 * c + 5)%Z with
            | Z.pos tie => if reads_as tie 1000 m e then (c + 1)%Z else c
            | _ => c
            end).
  assert (Hn : (c <= n)%Z).
  { unfold n. destruct (10 * c + 5)%Z; try lia. destruct (reads_as _ _ _ _); lia. }
  destruct (Z.leb_spec (10 ^ 10) n) as [_|Hlt']; [reflexivity|lia].
Qed.

Lemma ticks_zero (s : bool) : ticks (if s then (-0)%float else 0%float) = Some 0%Z.
Proof. destruct s; reflexivity. Qed.

Lemma nearest_to_zero (x : float) : ticks x = Some 0%Z → nearest_to 0 100 x.
Proof. intros H. exists 0%Z. split; [exact H|]. intros y zy _. lia. Qed.

(** The total that the column keeps of what the menu page sends is the
    sum rounded to two decimals, and has less than ten digits of
    hundredths. *)
Lemma numeric_of_total (x t : float) :
  numeric_10_2 (JS.parseFloat (JS.toFixed2 x)) = Some t →
  ∃ n, cents_of x n ∧ nearest_to n 100 t ∧ (Z.abs n < 10 ^ 10)%Z.
Proof.
  destruct (JS.toFixed2 x) as [s c|x'] eqn:Ef.
  - destruct (toFixed2_cents x s c Ef) as [Hc0 Hcents].
    pose proof (toFixed2_bound x s c Ef) as Hc23.
    intros Hq.
    exists ((if s then -1 else 1) * c)%Z. split; [exact Hcents|].
    unfold JS.parseFloat in Hq. destruct c as [|k|k]; [| |lia].
    + assert (Ht : t = 0%float).
      { destruct s; cbn in Hq; now injection Hq as <-. }
      subst t. split; [|now destruct s].
      replace ((if s then -1 else 1) * 0)%Z with 0%Z by (destruct s; reflexivity).
      now apply nearest_to_zero.
    + destruct (Z.le_gt_cases (10 ^ 10) (Z.pos k)) as [Hbig|Hsmall].
      * rewrite numeric_of_large in Hq by assumption. discriminate.
      * rewrite numeric_of_cents in Hq by assumption. injection Hq as <-.
        split; [|destruct s; lia].
        assert (Hl : (0 <= Z.log2 (Z.pos k) < 34)%Z)
          by (apply log2_below; change (2 ^ 34)%Z with 17179869184%Z;
              change (10 ^ 10)%Z with 10000000000%Z in Hsmall; lia).
        apply nearest_float_nearest; change (Z.log2 100) with 6%Z; lia.
  - intros Hq. cbn [JS.parseFloat] in Hq.
    assert (Hx : x' = x).
    { unfold JS.toFixed2 in Ef. destruct (Prim2SF x) as [| | |s0 m e]; try discriminate;
        try (now injection Ef). destruct (JS.at_least_1e21 m e); [now injection Ef|discriminate]. }
    subst x'. rewrite (numeric_of_huge x Ef) in Hq. discriminate.
Qed.

(** And it keeps one whenever the hundredths have less than ten digits. *)
Lemma numeric_keeps_total (x : float) (n : Z) :
  cents_of x n → (Z.abs n < 10 ^ 10)%Z →
  ∃ t, numeric_10_2 (JS.parseFloat (JS.toFixed2 x)) = Some t.
Proof.
  intros (z & Hz & Hs & Hlo & Hhi) Hn.
  unfold JS.toFixed2, ticks in *.
  destruct (Prim2SF x) as [s0| | |s0 m e] eqn:Ex; try discriminate.
  - cbn. eauto.
  - injection Hz as <-.
    pose proof (finite_exponent x s0 m e Ex) as He.
    pose proof (nearest_hundredths_ticks m e He) as Ht. cbv zeta in Ht.
    pose proof (nearest_hundredths_nonneg m e) as Hc.
    assert (Hu : (0 < 2 ^ (e + 1074))%Z) by (apply Z.pow_pos_nonneg; lia).
    assert (HT0 : (0 < 2 ^ 1074)%Z) by (apply Z.pow_pos_nonneg; lia).
    assert (Hcn : JS.nearest_hundredths m e = Z.abs n).
    { set (c := JS.nearest_hundredths m e) in *.
      set (u := (2 ^ (e + 1074))%Z) in *. set (T := (2 ^ 1074)%Z) in *.
      replace (Z.abs ((if s0 then -1 else 1) * Z.pos m * u)) with (Z.pos m * u)%Z in *
        by (destruct s0; nia).
      nia. }
    assert (Hsmall : JS.at_least_1e21 m e = false).
    { unfold JS.at_least_1e21. unfold JS.nearest_hundredths in Hcn.
      change (10 ^ 10)%Z with 10000000000%Z in Hn.
      destruct (Z.leb_spec 0 e) as [He0|He0].
      - apply Z.leb_gt. change (10 ^ 21)%Z with 1000000000000000000000%Z. lia.
      - apply Z.leb_gt.
        assert (Hp : (0 < 2 ^ (- e))%Z) by (apply Z.pow_pos_nonneg; lia).
        replace (1 - e)%Z with (1 + - e)%Z in Hcn by lia.
        rewrite Z.pow_add_r in Hcn by lia. change (2 ^ 1)%Z with 2%Z in Hcn.
        pose proof (Z.div_mod (200 * Z.pos m + 2 ^ (- e)) (2 * 2 ^ (- e)) ltac:(lia)) as Hd.
        pose proof (Z.mod_pos_bound (200 * Z.pos m + 2 ^ (- e)) (2 * 2 ^ (- e)) ltac:(lia)) as Hr.
        rewrite Hcn in Hd.
        change (10 ^ 21)%Z with 1000000000000000000000%Z.
        set (p := (2 ^ (- e))%Z) in *. nia. }
    rewrite Hsmall. cbn [JS.parseFloat]. rewrite Hcn.
    destruct (Z.abs n) as [|k|k] eqn:En; [|rewrite numeric_of_cents by lia; eauto|lia].
    destruct s0; cbn; eauto.
Qed.

(** Some numbers, written in hexadecimal so that each is exactly the
    binary64 number meant.  The nearest numbers to 1/10 and to 285/1000 are
    those that the decimals [0.1] and [0.285] denote.  [(1.005).toFixed(2)]
    is ["1.00"], since the number of [1.005] is below 1.005; a
    [numeric(10,2)] column, which rounds the text, keeps [1.005] as 1.01 and
    [0.285] as 0.29, keeps [0.125] as 0.13, keeps [99999999.994] as
    99999999.99 and refuses [99999999.995]. *)
Example binary64_samples :
  nearest_float false 1 10 = 0x1.999999999999ap-4%float
  ∧ nearest_float false 285 1000 = 0x1.23d70a3d70a3dp-2%float
  ∧ JS.toFixed2 0x1.0147ae147ae14p+0%float = JS.Hundredths false 100
  ∧ JS.parseFloat (JS.toFixed2 0x1.0147ae147ae14p+0%float) = 1%float
  ∧ numeric_10_2 0x1.0147ae147ae14p+0%float = Some 0x1.028f5c28f5c29p+0%float
  ∧ numeric_10_2 0x1.23d70a3d70a3dp-2%float = Some 0x1.28f5c28f5c28fp-2%float
  ∧ numeric_10_2 0x1p-3%float = Some 0x1.0a3d70a3d70a4p-3%float
  ∧ numeric_10_2 0x1.7d783fff9db23p+26%float = Some 0x1.7d783fff5c28fp+26%float
  ∧ numeric_10_2 0x1.7d783fffae148p+26%float = None.
Proof. vm_compute. repeat split. Qed.

(** ** Status transitions *)

Lemma run_Ask {R} (srv : server) q (k : answer → proc R) d :
  run srv (Ask q k) d =
  let '(a, d1) := srv q d in
  let '(r, d2, log) := run srv (k a) d1 in (r, d2, q :: log).
Proof. reflexivity. Qed.

Lemma supabase_update_healthy u t p k d :
  supabase (healthy u t) (UpdateOrderEqId p k) d =
  match update_order p k d with
  | Some d' => (Resolved None None, d')
  | None => failed "constraint violated" d
  end.
Proof. reflexivity. Qed.

Lemma update_order_hit p k d r :
  orders_tbl d !! k = Some r →
  Orders.status_check (Orders.status (Orders.apply_patch p r)) = true →
  update_order p k d =
  Some {| orders_tbl := <[k := Orders.apply_patch p r]> (orders_tbl d);
          order_items_tbl := order_items_tbl d;
          push_tbl := push_tbl d |}.
Proof. intros Hk Hc. unfold update_order. now rewrite Hk, Hc. Qed.

Lemma chain_successor_cases s next :
  chain_successor s = Some next →
  (s = "pending" ∧ next = "preparing")
  ∨ (s = "preparing" ∧ next = "ready")
  ∨ (s = "ready" ∧ next = "fulfilled").
Proof.
  unfold chain_successor.
  destruct (String.eqb_spec s "pending") as [->|_]; [intros H; injection H as <-; auto|].
  destruct (String.eqb_spec s "preparing") as [->|_]; [intros H; injection H as <-; auto|].
  destruct (String.eqb_spec s "ready") as [->|_]; [intros H; injection H as <-; auto 6|].
  discriminate.
Qed.

(** After the guard of [advanceStatus], [STATUS_FLOW[currentIdx + 1]] is
    never [undefined]. *)
Lemma next_status_defined s :
  let i := DashboardPage.indexOf DashboardPage.STATUS_FLOW s in
  (i >=? Z.of_nat (length DashboardPage.STATUS_FLOW) - 1)%Z = false →
  is_Some (DashboardPage.at_index DashboardPage.STATUS_FLOW (i + 1)).
Proof.
  cbn -[String.eqb]. unfold DashboardPage.at_index.
  destruct (String.eqb "pending" s); [cbn; eauto|].
  destruct (String.eqb "preparing" s); [cbn; eauto|].
  destruct (String.eqb "ready" s); [cbn; eauto|].
  destruct (String.eqb "fulfilled" s); [cbn; discriminate|].
  cbn; eauto.
Qed.

Lemma next_status_defined_witness :
  is_Some (DashboardPage.at_index DashboardPage.STATUS_FLOW
             (DashboardPage.indexOf DashboardPage.STATUS_FLOW "cancelled" + 1)).
Proof. apply (next_status_defined "cancelled"). reflexivity. Defined.

Lemma advanceStatus_on_forward o now st next :
  chain_successor (DashboardPage.status o) = Some next →
  ∃ k, DashboardPage.advanceStatus o now st =
       Ask (UpdateOrderEqId (DashboardPage.advance_patch next now) (DashboardPage.id o)) k
     ∧ (∀ x e, ∃ st', k (Resolved x e) = Ret (DashboardPage.Returned, st')
          ∧ DashboardPage.orders st' =
            map (fun o' => if String.eqb (DashboardPage.id o') (DashboardPage.id o)
                           then DashboardPage.with_status next o' else o')
                (DashboardPage.orders st))
     ∧ Orders.status_check next = true.
Proof.
  intros H. unfold DashboardPage.advanceStatus.
  destruct (chain_successor_cases _ _ H) as [[-> ->]|[[-> ->]|[-> ->]]];
    (eexists; split; [reflexivity|]; split; [intros; eexists; split; reflexivity|reflexivity]).
Qed.

Lemma advanceStatus_on_fulfilled o now st :
  DashboardPage.status o = "fulfilled" →
  DashboardPage.advanceStatus o now st = Ret (DashboardPage.Returned, st).
Proof. intros H. unfold DashboardPage.advanceStatus. now rewrite H. Qed.

(** C1, amended: called on the dashboard's copy [o] of an order of the
    database, with a server that does not fail, [advanceStatus] moves an
    order in [pending], [preparing] or [ready] to the successor of its status
    in the chain by one update keyed on the order's id (which also sets
    [fulfilled_at] to the time of the call when the successor is
    [fulfilled]) and returns; on a [fulfilled] order it returns at once,
    raising no error, sending no request and changing neither the database
    nor the dashboard. *)
Theorem advanceStatus_forward_or_noop
    (o : DashboardPage.order) (now u t : string)
    (st : DashboardPage.state) (d : db) :
  orders_tbl d !! DashboardPage.id o = Some (DashboardPage.row o) →
  let '(res, d', log) :=
    run (supabase (healthy u t)) (DashboardPage.advanceStatus o now st) d in
  (∀ next, chain_successor (DashboardPage.status o) = Some next →
     fst res = DashboardPage.Returned
     ∧ log = [UpdateOrderEqId (DashboardPage.advance_patch next now)
                              (DashboardPage.id o)]
     ∧ d' = patched (DashboardPage.advance_patch next now) o d
     ∧ status_in d' (DashboardPage.id o) = Some next)
  ∧ (DashboardPage.status o = "fulfilled" →
     res = (DashboardPage.Returned, st) ∧ log = [] ∧ d' = d).
Proof.
  intros Hrow.
  destruct (chain_successor (DashboardPage.status o)) as [next|] eqn:Hs.
  - destruct (advanceStatus_on_forward o now st next Hs) as (k & -> & Hk & Hc).
    rewrite run_Ask, supabase_update_healthy.
    rewrite (update_order_hit _ _ _ _ Hrow) by exact Hc.
    destruct (Hk None None) as (st' & -> & _). cbn [run fst].
    split.
    + intros next' [= <-]. repeat split.
      unfold status_in, patched; cbn [orders_tbl].
      rewrite lookup_insert_eq. cbn.
      destruct (chain_successor_cases _ _ Hs) as [[_ ->]|[[_ ->]|[_ ->]]]; reflexivity.
    + intros Hf. unfold chain_successor in Hs. rewrite Hf in Hs. discriminate.
  - destruct (String.eqb_spec (DashboardPage.status o) "fulfilled") as [Hf|Hf].
    + rewrite (advanceStatus_on_fulfilled _ _ _ Hf). cbn. split; [discriminate|auto].
    + destruct (run _ _ _) as [[res d'] log]. split; [discriminate|tauto].
Qed.

(** C1, as stated, fails on the code: on a [cancelled] order [advanceStatus]
    sends an update that sets the status to [pending] and returns, and on a
    [fulfilled] order it returns without any error. *)
Lemma advance_as_specified_fails :
  let srv := supabase (healthy "u" "t") in
  let c := sample_order "o-1" "cancelled" None in
  let f := sample_order "o-2" "fulfilled" (Some "T0") in
  ¬ advance_as_specified srv c "T" (dashboard_of c) (db_of c)
  ∧ status_in (run srv (DashboardPage.advanceStatus c "T" (dashboard_of c)) (db_of c)).1.2
              "o-1" = Some "pending"
  ∧ ¬ advance_as_specified srv f "T" (dashboard_of f) (db_of f)
  ∧ (run srv (DashboardPage.advanceStatus f "T" (dashboard_of f)) (db_of f)).1.1.1
    = DashboardPage.Returned.
Proof.
  cbv zeta. split; [|split; [vm_compute; reflexivity|split; [|reflexivity]]].
  - unfold advance_as_specified.
    destruct (run _ _ _) as [[res d'] log] eqn:E.
    intros [_ H]. destruct H as [H _]; [now right|].
    vm_compute in E. injection E as <- _ _. discriminate H.
  - unfold advance_as_specified.
    destruct (run _ _ _) as [[res d'] log] eqn:E.
    intros [_ H]. destruct H as [H _]; [now left|].
    vm_compute in E. injection E as <- _ _. discriminate H.
Qed.

Lemma advanceStatus_forward_or_noop_witness :
  let o := sample_order "o-1" "ready" None in
  let '(res, d', log) :=
    run (supabase (healthy "u" "t"))
        (DashboardPage.advanceStatus o "T" (dashboard_of o)) (db_of o) in
  (∀ next, chain_successor (DashboardPage.status o) = Some next →
     fst res = DashboardPage.Returned
     ∧ log = [UpdateOrderEqId (DashboardPage.advance_patch next "T")
                              (DashboardPage.id o)]
     ∧ d' = patched (DashboardPage.advance_patch next "T") o (db_of o)
     ∧ status_in d' (DashboardPage.id o) = Some next)
  ∧ (DashboardPage.status o = "fulfilled" →
     res = (DashboardPage.Returned, dashboard_of o) ∧ log = [] ∧ d' = db_of o).
Proof.
  exact (advanceStatus_forward_or_noop (sample_order "o-1" "ready" None) "T" "u" "t"
           (dashboard_of (sample_order "o-1" "ready" None))
           (db_of (sample_order "o-1" "ready" None)) eq_refl).
Defined.

(** ** Racing transitions *)

Lemma advance_patch_twice next t1 t2 r :
  Orders.apply_patch (DashboardPage.advance_patch next t2)
    (Orders.apply_patch (DashboardPage.advance_patch next t1) r)
  = Orders.apply_patch (DashboardPage.advance_patch next t2) r.
Proof.
  unfold Orders.apply_patch, DashboardPage.advance_patch; cbn.
  now destruct (String.eqb next "fulfilled").
Qed.

Lemma run_Ret {R} (srv : server) (r : R) d : run srv (Ret r) d = (r, d, []).
Proof. reflexivity. Qed.

(** One call on a forward state, run alone on a healthy server. *)
Lemma run_advance_forward o now u t st d r next :
  orders_tbl d !! DashboardPage.id o = Some r →
  chain_successor (DashboardPage.status o) = Some next →
  ∃ st',
    run (supabase (healthy u t)) (DashboardPage.advanceStatus o now st) d =
    ((DashboardPage.Returned, st'),
     {| orders_tbl :=
          <[DashboardPage.id o :=
              Orders.apply_patch (DashboardPage.advance_patch next now) r]>
            (orders_tbl d);
        order_items_tbl := order_items_tbl d;
        push_tbl := push_tbl d |},
     [UpdateOrderEqId (DashboardPage.advance_patch next now) (DashboardPage.id o)]).
Proof.
  intros Hrow Hs.
  destruct (advanceStatus_on_forward o now st next Hs) as (k & -> & Hk & Hc).
  rewrite run_Ask, supabase_update_healthy.
  rewrite (update_order_hit _ _ _ _ Hrow) by exact Hc.
  destruct (Hk None None) as (st' & -> & _). now exists st'.
Qed.

Lemma run_both_advance o t1 t2 u t st d next :
  orders_tbl d !! DashboardPage.id o = Some (DashboardPage.row o) →
  chain_successor (DashboardPage.status o) = Some next →
  ∃ st1 st2,
    run_both (supabase (healthy u t))
      (DashboardPage.advanceStatus o t1 st) (DashboardPage.advanceStatus o t2 st) d
    = ((DashboardPage.Returned, st1), (DashboardPage.Returned, st2),
       patched (DashboardPage.advance_patch next t2) o d).
Proof.
  intros Hrow Hs. unfold run_both.
  destruct (run_advance_forward o t1 u t st d _ next Hrow Hs) as (st1 & ->).
  edestruct (run_advance_forward o t2 u t st) as (st2 & ->); [|exact Hs|].
  { cbn [orders_tbl]. apply lookup_insert_eq. }
  exists st1, st2. unfold patched. cbn [orders_tbl order_items_tbl push_tbl].
  now rewrite insert_insert_eq, advance_patch_twice.
Qed.

(** C2, amended: the update of [advanceStatus] is keyed on the order's id
    alone and is not conditioned on the order's status.  When two calls
    race on the same copy [o] of an order in [pending], [preparing] or
    [ready], on a server that does not fail, both updates are applied and
    both calls return without an error; the order ends in the successor of
    the status of [o] (no state is skipped), with the columns written by the
    call served last: when the successor is [fulfilled], [fulfilled_at] is
    the time of the call served last. *)
Theorem racing_advances_both_apply
    (o : DashboardPage.order) (t1 t2 u t : string)
    (st : DashboardPage.state) (d : db) (sched : list bool) (next : string) :
  orders_tbl d !! DashboardPage.id o = Some (DashboardPage.row o) →
  chain_successor (DashboardPage.status o) = Some next →
  let '(r1, r2, d') :=
    race (supabase (healthy u t)) sched
         (DashboardPage.advanceStatus o t1 st)
         (DashboardPage.advanceStatus o t2 st) d in
  fst r1 = DashboardPage.Returned ∧ fst r2 = DashboardPage.Returned
  ∧ d' = patched (DashboardPage.advance_patch next
                    (if served_first sched then t2 else t1)) o d
  ∧ status_in d' (DashboardPage.id o) = Some next.
Proof.
  intros Hrow Hs.
  assert (Hst : ∀ tl, status_in (patched (DashboardPage.advance_patch next tl) o d)
                        (DashboardPage.id o) = Some next).
  { intros tl. unfold status_in, patched; cbn [orders_tbl].
    rewrite lookup_insert_eq. cbn.
    destruct (chain_successor_cases _ _ Hs) as [[_ ->]|[[_ ->]|[_ ->]]]; reflexivity. }
  destruct sched as [|b sched].
  - cbn [race served_first].
    destruct (run_both_advance o t1 t2 u t st d next Hrow Hs) as (st1 & st2 & ->).
    cbn; auto.
  - cbn [race].
    destruct (advanceStatus_on_forward o t1 st next Hs) as (k1 & E1 & Hk1 & Hc).
    destruct (advanceStatus_on_forward o t2 st next Hs) as (k2 & E2 & Hk2 & _).
    rewrite E1, E2. cbn [race]. destruct b; cbn [served_first].
    + rewrite supabase_update_healthy, (update_order_hit _ _ _ _ Hrow) by exact Hc.
      destruct (Hk1 None None) as (st1 & -> & _).
      assert (R : ∀ X, race (supabase (healthy u t)) sched
                    (Ret (DashboardPage.Returned, st1)) X =
                  run_both (supabase (healthy u t)) (Ret (DashboardPage.Returned, st1)) X)
        by (intros X; destruct sched; reflexivity).
      rewrite R. unfold run_both. rewrite run_Ret, <- E2.
      edestruct (run_advance_forward o t2 u t st) as (st2 & ->); [|exact Hs|].
      { cbn [orders_tbl]. apply lookup_insert_eq. }
      cbn [fst orders_tbl order_items_tbl push_tbl].
      rewrite insert_insert_eq, advance_patch_twice.
      split; [reflexivity|split; [reflexivity|split; [reflexivity|apply Hst]]].
    + rewrite supabase_update_healthy, (update_order_hit _ _ _ _ Hrow) by exact Hc.
      destruct (Hk2 None None) as (st2 & -> & _).
      assert (R : ∀ X, race (supabase (healthy u t)) sched X
                    (Ret (DashboardPage.Returned, st2)) =
                  run_both (supabase (healthy u t)) X (Ret (DashboardPage.Returned, st2))).
      { intros X; destruct sched; [reflexivity|]. cbn [race]. now destruct X. }
      rewrite R. unfold run_both.
      rewrite <- E1.
      edestruct (run_advance_forward o t1 u t st) as (st1 & ->); [|exact Hs|].
      { cbn [orders_tbl]. apply lookup_insert_eq. }
      rewrite run_Ret. cbn [fst orders_tbl order_items_tbl push_tbl].
      rewrite insert_insert_eq, advance_patch_twice.
      split; [reflexivity|split; [reflexivity|split; [reflexivity|apply Hst]]].
Qed.

Lemma racing_advances_both_apply_witness :
  let o := sample_order "o-1" "preparing" None in
  let '(r1, r2, d') :=
    race (supabase (healthy "u" "t")) [false; true]
         (DashboardPage.advanceStatus o "T1" (dashboard_of o))
         (DashboardPage.advanceStatus o "T2" (dashboard_of o)) (db_of o) in
  fst r1 = DashboardPage.Returned ∧ fst r2 = DashboardPage.Returned
  ∧ d' = patched (DashboardPage.advance_patch "ready" "T1") o (db_of o)
  ∧ status_in d' (DashboardPage.id o) = Some "ready".
Proof.
  exact (racing_advances_both_apply (sample_order "o-1" "preparing" None)
           "T1" "T2" "u" "t"
           (dashboard_of (sample_order "o-1" "preparing" None))
           (db_of (sample_order "o-1" "preparing" None))
           [false; true] "ready" eq_refl eq_refl).
Defined.

(** C2, as stated, fails on the code: two calls racing on a [ready] order
    both set [fulfilled_at]; the call served second overwrites the time the
    first one stored. *)
Lemma race_as_specified_fails :
  let o := sample_order "o-1" "ready" None in
  let srv := supabase (healthy "u" "t") in
  ¬ race_as_specified srv [true; false] o "T1" "T2" (dashboard_of o) (db_of o)
  ∧ fulfilled_at_in
      (run srv (DashboardPage.advanceStatus o "T1" (dashboard_of o)) (db_of o)).1.2
      "o-1" = Some "T1"
  ∧ fulfilled_at_in
      (race srv [true; false]
         (DashboardPage.advanceStatus o "T1" (dashboard_of o))
         (DashboardPage.advanceStatus o "T2" (dashboard_of o)) (db_of o)).2
      "o-1" = Some "T2".
Proof.
  cbv zeta. split; [|split; vm_compute; reflexivity].
  unfold race_as_specified. intros H.
  apply (f_equal (fun d => fulfilled_at_in d "o-1")) in H.
  vm_compute in H. discriminate H.
Qed.

(** ** The fulfilment time *)

Lemma advanceStatus_shape o now st :
  match advance_target (DashboardPage.status o) with
  | None => DashboardPage.advanceStatus o now st = Ret (DashboardPage.Returned, st)
  | Some next =>
      ∃ k, DashboardPage.advanceStatus o now st =
           Ask (UpdateOrderEqId (DashboardPage.advance_patch next now)
                                (DashboardPage.id o)) k
           ∧ ∀ a, ∃ r, k a = Ret r
  end.
Proof.
  unfold advance_target, DashboardPage.advanceStatus.
  cbn -[String.eqb DashboardPage.advance_patch].
  destruct (String.eqb "pending" (DashboardPage.status o));
    [|destruct (String.eqb "preparing" (DashboardPage.status o));
      [|destruct (String.eqb "ready" (DashboardPage.status o));
        [|destruct (String.eqb "fulfilled" (DashboardPage.status o))]]];
    cbn -[DashboardPage.advance_patch]; try reflexivity;
    (eexists; split; [reflexivity|]; intros [x e|reason]; eexists; reflexivity).
Qed.

Lemma advance_target_cases s next :
  advance_target s = Some next →
  s ≠ "fulfilled"
  ∧ (String.eqb s "ready" = true ∧ next = "fulfilled"
     ∨ String.eqb s "ready" = false
       ∧ (next = "preparing" ∨ next = "ready" ∨ next = "pending")).
Proof.
  unfold advance_target.
  destruct (String.eqb_spec "pending" s) as [<-|_];
    [intros H; injection H as <-; split; [discriminate|right; auto]|].
  destruct (String.eqb_spec "preparing" s) as [<-|_];
    [intros H; injection H as <-; split; [discriminate|right; auto]|].
  destruct (String.eqb_spec "ready" s) as [<-|Hr];
    [intros H; injection H as <-; split; [discriminate|left; auto]|].
  destruct (String.eqb_spec "fulfilled" s) as [<-|Hf]; [discriminate|].
  intros H; injection H as <-. split; [congruence|right].
  split; [|auto]. apply String.eqb_neq. congruence.
Qed.

Lemma supabase_update e p k d :
  supabase e (UpdateOrderEqId p k) d =
  if fails e (UpdateOrderEqId p k) then failed "request failed" d
  else match update_order p k d with
       | Some d' => (Resolved None None, d')
       | None => failed "constraint violated" d
       end.
Proof. reflexivity. Qed.

(** What one [advanceStatus] on a current copy does to the database. *)
Lemma advance_db_after e o now st d :
  orders_tbl d !! DashboardPage.id o = Some (DashboardPage.row o) →
  db_after e (Advance o now st) d = d
  ∨ ∃ next, advance_target (DashboardPage.status o) = Some next
            ∧ db_after e (Advance o now st) d
              = patched (DashboardPage.advance_patch next now) o d.
Proof.
  intros Hrow. unfold db_after.
  pose proof (advanceStatus_shape o now st) as Hshape.
  destruct (advance_target (DashboardPage.status o)) as [next|] eqn:Ht.
  - destruct Hshape as (k & -> & Hk).
    rewrite run_Ask, supabase_update. unfold failed.
    destruct (fails e _).
    + destruct (Hk (Resolved None (Some "request failed"))) as [r ->]. now left.
    + unfold update_order. rewrite Hrow.
      destruct (Orders.status_check _).
      * destruct (Hk (Resolved None None)) as [r ->]. right. now exists next.
      * destruct (Hk (Resolved None (Some "constraint violated"))) as [r ->]. now left.
  - rewrite Hshape. now left.
Qed.

Lemma advance_db_after_healthy u t o now st d next :
  orders_tbl d !! DashboardPage.id o = Some (DashboardPage.row o) →
  advance_target (DashboardPage.status o) = Some next →
  db_after (healthy u t) (Advance o now st) d
  = patched (DashboardPage.advance_patch next now) o d.
Proof.
  intros Hrow Ht. unfold db_after.
  pose proof (advanceStatus_shape o now st) as Hshape. rewrite Ht in Hshape.
  destruct Hshape as (k & -> & Hk).
  rewrite run_Ask, supabase_update_healthy.
  rewrite (update_order_hit _ _ _ _ Hrow).
  - now destruct (Hk (Resolved None None)) as [r ->].
  - destruct (advance_target_cases _ _ Ht) as [_ [[_ ->]|[_ [->|[->| ->]]]]]; reflexivity.
Qed.

Lemma patched_fulfilled_iff o now d next :
  orders_tbl d !! DashboardPage.id o = Some (DashboardPage.row o) →
  advance_target (DashboardPage.status o) = Some next →
  fulfilled_iff d →
  fulfilled_iff (patched (DashboardPage.advance_patch next now) o d)
  ∧ timestamps_kept d (patched (DashboardPage.advance_patch next now) o d)
  ∧ new_orders_pending d (patched (DashboardPage.advance_patch next now) o d).
Proof.
  intros Hrow Ht Hinv.
  destruct (advance_target_cases _ _ Ht) as [Hnf Hnext].
  assert (Hnone : Orders.fulfilled_at (DashboardPage.row o) = None).
  { destruct (Orders.fulfilled_at (DashboardPage.row o)) eqn:E; [|done].
    exfalso. apply Hnf. apply (Hinv _ _ Hrow). rewrite E. eauto. }
  split; [|split].
  - intros k r. unfold patched; cbn [orders_tbl].
    destruct (decide (DashboardPage.id o = k)) as [<-|Hne].
    + rewrite lookup_insert_eq. intros [= <-].
      unfold Orders.apply_patch, DashboardPage.advance_patch; cbn.
      rewrite Hnone.
      destruct Hnext as [[_ ->]|[_ [->|[->| ->]]]]; cbn;
        (split; [intros [x Hx]; (done || discriminate Hx)|intros Hx; (eauto || discriminate Hx)]).
    + rewrite lookup_insert_ne by done. apply Hinv.
  - intros k r t Hk Hset. unfold fulfilled_at_in, patched; cbn [orders_tbl].
    destruct (decide (DashboardPage.id o = k)) as [<-|Hne].
    + exfalso. rewrite Hrow in Hk. injection Hk as <-. congruence.
    + rewrite lookup_insert_ne by done. now rewrite Hk.
  - intros k r Hk. unfold patched; cbn [orders_tbl].
    destruct (decide (DashboardPage.id o = k)) as [<-|Hne]; [congruence|].
    rewrite lookup_insert_ne by done. congruence.
Qed.

Lemma supabase_insert_order e p d :
  supabase e (InsertOrderSelectSingle p) d =
  if fails e (InsertOrderSelectSingle p) then failed "request failed" d
  else
    let r := Orders.new_row (uuid e) (server_now e) p in
    if Orders.status_check (Orders.status r)
       && bool_decide (orders_tbl d !! uuid e = None)
    then (Resolved (Some (DOrder r)) None,
          {| orders_tbl := <[uuid e := r]> (orders_tbl d);
             order_items_tbl := order_items_tbl d;
             push_tbl := push_tbl d |})
    else failed "constraint violated" d.
Proof. reflexivity. Qed.

Lemma supabase_insert_items e items d :
  supabase e (InsertItems items) d =
  if fails e (InsertItems items) then failed "request failed" d
  else if items_reference_orders items d
       then (Resolved None None,
             {| orders_tbl := orders_tbl d;
                order_items_tbl := order_items_tbl d ++ items;
                push_tbl := push_tbl d |})
       else failed "constraint violated" d.
Proof. reflexivity. Qed.

(** [submitOrder] adds at most one order, the row of [order_insert] under
    an id the table did not have. *)
Lemma submitOrder_orders_tbl e st d :
  let d' := db_after e (Intake st) d in
  orders_tbl d' = orders_tbl d
  ∨ (orders_tbl d !! uuid e = None
     ∧ orders_tbl d' =
       <[uuid e := Orders.new_row (uuid e) (server_now e) (MenuPage.order_insert st)]>
         (orders_tbl d)).
Proof.
  unfold db_after, MenuPage.submitOrder.
  destruct (JS.trim (MenuPage.customerName st)); [now left|].
  destruct (length (MenuPage.cartItems st) =? 0)%nat; [now left|].
  rewrite run_Ask, supabase_insert_order. unfold failed.
  destruct (fails e _); [now left|]. cbv zeta.
  destruct (Orders.status_check _); [|now left].
  destruct (bool_decide_reflect (orders_tbl d !! uuid e = None)) as [Hfresh|_];
    [|now left].
  cbn [andb]. rewrite run_Ask, supabase_insert_items. unfold failed.
  right. split; [exact Hfresh|].
  destruct (fails e _); [reflexivity|].
  destruct (items_reference_orders _ _); reflexivity.
Qed.

(** C4, amended: the database keeps "[fulfilled_at] is set if and only if
    the status is [fulfilled]" under Order Intake and under every
    [advanceStatus] that is called on a copy of the order that agrees with
    the stored row.  Such a call never changes a [fulfilled_at] that is set;
    an order that a call creates is [pending] with [fulfilled_at] unset; and
    on a server that does not fail [advanceStatus] sets [fulfilled_at] to
    the time of the call exactly when the order was [ready]. *)
Theorem fulfilled_at_tracks_status (e : env) (c : call) (d : db) :
  fulfilled_iff d →
  on_current_row c d →
  fulfilled_iff (db_after e c d)
  ∧ timestamps_kept d (db_after e c d)
  ∧ new_orders_pending d (db_after e c d)
  ∧ fulfilment_time_set e c (db_after e c d).
Proof.
  intros Hinv Hcur.
  assert (Hsame : ∀ d', orders_tbl d' = orders_tbl d →
            fulfilled_iff d' ∧ timestamps_kept d d' ∧ new_orders_pending d d').
  { intros d' E. unfold fulfilled_iff, timestamps_kept, new_orders_pending, fulfilled_at_in.
    rewrite E. split; [exact Hinv|split].
    - intros k r t Hk Ht. now rewrite Hk.
    - congruence. }
  destruct c as [st|o now st].
  - assert (H : fulfilled_iff (db_after e (Intake st) d)
                ∧ timestamps_kept d (db_after e (Intake st) d)
                ∧ new_orders_pending d (db_after e (Intake st) d));
      [|cbn [fulfilment_time_set]; tauto].
    destruct (submitOrder_orders_tbl e st d) as [E|[Hfresh E]]; [now apply Hsame|].
    unfold fulfilled_iff, timestamps_kept, new_orders_pending, fulfilled_at_in.
    rewrite E. split; [|split].
    + intros k r. destruct (decide (uuid e = k)) as [<-|Hne].
      * rewrite lookup_insert_eq. intros [= <-]. cbn.
        split; [intros [x Hx]; discriminate Hx|discriminate].
      * rewrite lookup_insert_ne by done. apply Hinv.
    + intros k r t Hk Ht. destruct (decide (uuid e = k)) as [<-|Hne]; [congruence|].
      rewrite lookup_insert_ne by done. now rewrite Hk.
    + intros k r Hk. destruct (decide (uuid e = k)) as [<-|Hne].
      * rewrite lookup_insert_eq. intros [= <-]. now cbn.
      * rewrite lookup_insert_ne by done. congruence.
  - cbn [on_current_row] in Hcur.
    assert (H : fulfilled_iff (db_after e (Advance o now st) d)
                ∧ timestamps_kept d (db_after e (Advance o now st) d)
                ∧ new_orders_pending d (db_after e (Advance o now st) d)).
    { destruct (advance_db_after e o now st d Hcur) as [->|(next & Ht & ->)];
        [now apply Hsame|now apply patched_fulfilled_iff]. }
    destruct H as (H1 & H2 & H3).
    split; [exact H1|split; [exact H2|split; [exact H3|]]].
    cbn [fulfilment_time_set]. intros Hok.
    assert (He : db_after e (Advance o now st) d
                 = db_after (healthy (uuid e) (server_now e)) (Advance o now st) d).
    { unfold db_after. pose proof (advanceStatus_shape o now st) as Hshape.
      destruct (advance_target (DashboardPage.status o)); [|now rewrite Hshape].
      destruct Hshape as (kont & -> & Hk).
      rewrite !run_Ask, (supabase_update e), Hok, supabase_update_healthy.
      destruct (match update_order _ _ _ with Some _ => _ | None => _ end) as [a d1].
      now destruct (Hk a) as [r ->]. }
    rewrite He.
    destruct (advance_target (DashboardPage.status o)) as [next|] eqn:Ht.
    + rewrite (advance_db_after_healthy _ _ _ _ _ _ _ Hcur Ht).
      unfold fulfilled_at_in, patched; cbn [orders_tbl].
      rewrite lookup_insert_eq. cbn.
      destruct (advance_target_cases _ _ Ht) as [_ [[-> ->]|[-> [->|[->| ->]]]]];
        reflexivity.
    + pose proof (advanceStatus_shape o now st) as Hshape. rewrite Ht in Hshape.
      unfold db_after. rewrite Hshape. cbn [run fst snd].
      unfold fulfilled_at_in. rewrite Hcur. cbn.
      unfold advance_target in Ht.
      destruct (String.eqb_spec (DashboardPage.status o) "ready") as [Hr|_]; [|done].
      rewrite Hr in Ht. discriminate Ht.
Qed.

(** C4, as stated, fails on the code: a call made on a stale copy (still
    [ready]) of an order that is already fulfilled replaces the stored
    [fulfilled_at]. *)
Lemma fulfilled_at_as_specified_fails :
  let stale := sample_order "o-1" "ready" None in
  let d := db_of (sample_order "o-1" "fulfilled" (Some "T1")) in
  ¬ fulfilled_at_as_specified (healthy "u" "t") (Advance stale "T2" (dashboard_of stale)) d
  ∧ fulfilled_at_in d "o-1" = Some "T1"
  ∧ fulfilled_at_in (db_after (healthy "u" "t") (Advance stale "T2" (dashboard_of stale)) d)
                    "o-1" = Some "T2".
Proof.
  cbv zeta. split; [|split; vm_compute; reflexivity].
  intros H. destruct H as [_ Hkept].
  - intros k r. unfold db_of; cbn [orders_tbl].
    intros [<- <-]%lookup_singleton_Some. cbn. split; eauto.
  - specialize (Hkept "o-1" (sample_row "o-1" "fulfilled" (Some "T1")) "T1"
                      eq_refl eq_refl).
    vm_compute in Hkept. discriminate Hkept.
Qed.

Lemma fulfilled_at_tracks_status_witness :
  let o := sample_order "o-1" "ready" None in
  let e := healthy "u" "t" in
  let c := Advance o "T" (dashboard_of o) in
  fulfilled_iff (db_after e c (db_of o))
  ∧ timestamps_kept (db_of o) (db_after e c (db_of o))
  ∧ new_orders_pending (db_of o) (db_after e c (db_of o))
  ∧ fulfilment_time_set e c (db_after e c (db_of o)).
Proof.
  refine (fulfilled_at_tracks_status (healthy "u" "t")
            (Advance (sample_order "o-1" "ready" None) "T"
                     (dashboard_of (sample_order "o-1" "ready" None)))
            (db_of (sample_order "o-1" "ready" None)) _ eq_refl).
  intros k r. unfold db_of; cbn [orders_tbl].
  intros [<- <-]%lookup_singleton_Some. cbn. split; [intros [x Hx]; discriminate Hx|discriminate].
Defined.


(** ** The cart *)

(** [addToCart] and [removeFromCart] keep every quantity of the cart
    positive: an entry that would drop to zero is deleted. *)
Theorem cart_quantities_stay_positive (id : string) (c : gmap string nat) :
  positive_quantities c →
  positive_quantities (MenuPage.addToCart id c)
  ∧ positive_quantities (MenuPage.removeFromCart id c)
  ∧ (c !! id = Some 1 → MenuPage.removeFromCart id c !! id = None).
Proof.
  intros Hc. split; [|split]; [intros k n|intros k n|intros E].
  - unfold MenuPage.addToCart. destruct (decide (id = k)) as [<-|Hne].
    + rewrite lookup_insert_eq. intros [= <-]. lia.
    + rewrite lookup_insert_ne by done. apply Hc.
  - unfold MenuPage.removeFromCart. destruct (c !! id) as [m|] eqn:E; [|apply Hc].
    destruct (Nat.ltb_spec 1 m) as [Hm|Hm].
    + destruct (decide (id = k)) as [<-|Hne].
      * rewrite lookup_insert_eq. intros [= <-]. lia.
      * rewrite lookup_insert_ne by done. apply Hc.
    + destruct (decide (id = k)) as [<-|Hne].
      * now rewrite lookup_delete_eq.
      * rewrite lookup_delete_ne by done. apply Hc.
  - unfold MenuPage.removeFromCart. rewrite E. cbn. apply lookup_delete_eq.
Qed.

(** Jamie's cart holds two lattes and one muffin: taking the muffin out
    deletes its entry, and the lattes stay. *)
Lemma cart_quantities_stay_positive_witness :
  positive_quantities (MenuPage.addToCart "muffin" jamie_cart)
  ∧ positive_quantities (MenuPage.removeFromCart "muffin" jamie_cart)
  ∧ (jamie_cart !! "muffin" = Some 1 →
     MenuPage.removeFromCart "muffin" jamie_cart !! "muffin" = None).
Proof.
  apply (cart_quantities_stay_positive "muffin" jamie_cart).
  intros k n H.
  destruct (decide (k = "muffin")) as [->|Hm]; [vm_compute in H; injection H as <-; lia|].
  destruct (decide (k = "latte")) as [->|Hl]; [vm_compute in H; injection H as <-; lia|].
  unfold jamie_cart, MenuPage.addToCart in H.
  rewrite !lookup_insert_ne, lookup_empty in H by congruence. discriminate H.
Defined.

Example jamie_cart_without_muffin :
  jamie_cart !! "muffin" = Some 1
  ∧ MenuPage.removeFromCart "muffin" jamie_cart !! "muffin" = None
  ∧ MenuPage.removeFromCart "muffin" jamie_cart !! "latte" = Some 2.
Proof. repeat split. Qed.

(** Removing an item that was just added gives the cart back. *)
Theorem removeFromCart_addToCart (id : string) (c : gmap string nat) :
  c !! id ≠ Some 0 →
  MenuPage.removeFromCart id (MenuPage.addToCart id c) = c.
Proof.
  intros H0. unfold MenuPage.removeFromCart, MenuPage.addToCart, MenuPage.quantity.
  rewrite lookup_insert_eq. destruct (c !! id) as [n|] eqn:E; simpl.
  - destruct (Nat.ltb_spec 1 (n + 1)) as [_|Hn]; [|destruct n; [congruence|lia]].
    rewrite insert_insert_eq. replace (n + 1 - 1) with n by lia. now apply insert_id.
  - now rewrite delete_insert_id.
Qed.

Lemma removeFromCart_addToCart_witness :
  MenuPage.removeFromCart "latte" (MenuPage.addToCart "latte" jamie_cart) = jamie_cart.
Proof.
  apply (removeFromCart_addToCart "latte" jamie_cart).
  intros H; vm_compute in H; discriminate H.
Defined.

(** ** Order intake *)

Lemma cartItems_empty_cart st : MenuPage.cart st = ∅ → MenuPage.cartItems st = [].
Proof.
  intros H. unfold MenuPage.cartItems, MenuPage.quantity. rewrite H.
  induction (MenuPage.products st) as [|p l IH]; [reflexivity|].
  cbn [List.filter]. now rewrite lookup_empty.
Qed.

Lemma submitOrder_invalid st :
  JS.trim (MenuPage.customerName st) = [] ∨ MenuPage.cartItems st = [] →
  ∃ a, ValidationError a ∧ MenuPage.submitOrder st = Ret (st, [a]).
Proof.
  unfold MenuPage.submitOrder, ValidationError. intros [H|H].
  - rewrite H. eauto.
  - rewrite H. destruct (JS.trim _); cbn; eauto.
Qed.

(** C5: when the customer name is empty or white space only (every code
    unit of it is one of the white space and line terminator characters of
    Unicode that [white_space] lists), or the cart is empty, [submitOrder]
    ends with one of the two validation alerts; it sends no request, so
    whatever the server is, the database is as before (no order row, no line
    item), and the page state is unchanged. *)
Theorem submitOrder_rejects_blank_name_or_empty_cart
    (srv : server) (st : MenuPage.state) (d : db) :
  blank (MenuPage.customerName st) ∨ MenuPage.cart st = ∅ →
  ∃ a, ValidationError a
       ∧ run srv (MenuPage.submitOrder st) d = ((st, [a]), d, []).
Proof.
  intros H.
  destruct (submitOrder_invalid st) as (a & Ha & ->).
  - destruct H as [H|H]; [left; now apply trim_blank|right; now apply cartItems_empty_cart].
  - now exists a.
Qed.

Lemma submitOrder_rejects_witness :
  let st := jamie_named [160; 8232; 32; 65279]%N jamie_cart in
  ∃ a, ValidationError a
       ∧ run (supabase (healthy "u" "t")) (MenuPage.submitOrder st) empty_db
         = ((st, [a]), empty_db, []).
Proof.
  intros st.
  apply (submitOrder_rejects_blank_name_or_empty_cart
           (supabase (healthy "u" "t")) st empty_db).
  left. apply blank_spaces. repeat constructor.
Defined.

(** C6: a call of [submitOrder] either confirms the order, and then the
    server answered the order insert with a row and no error and answered the
    insert of the line items with no error, or it leaves [confirmed] false
    and shows exactly one alert: a validation alert when nothing was sent,
    the "something went wrong" alert when a request was sent.  So an order
    whose row was created and whose line items were refused is reported as a
    failure. *)
Theorem success_only_after_both_inserts
    (srv : server) (st : MenuPage.state) (d : db) :
  MenuPage.confirmed st = false →
  let '((st', alerts), d', log) := run srv (MenuPage.submitOrder st) d in
  (MenuPage.confirmed st' = true ∧ alerts = []
   ∧ ∃ order x d1,
       srv (InsertOrderSelectSingle (MenuPage.order_insert st)) d
       = (Resolved (Some order) None, d1)
       ∧ srv (InsertItems (map (MenuPage.line_item st (Orders.id (data_row order)))
                               (MenuPage.cartItems st))) d1
         = (Resolved x None, d')
       ∧ MenuPage.orderId st' = Some (Orders.id (data_row order)))
  ∨ (MenuPage.confirmed st' = false
     ∧ ∃ a, alerts = [a]
            ∧ (ValidationError a ∧ log = [] ∨ PersistenceError a ∧ log ≠ [])).
Proof.
  intros Hc. unfold MenuPage.submitOrder, ValidationError, PersistenceError.
  destruct (JS.trim (MenuPage.customerName st)) as [|c0 s0] eqn:Hn.
  { cbn. right. eauto 7. }
  destruct (length (MenuPage.cartItems st) =? 0)%nat.
  { cbn. right. eauto 7. }
  rewrite run_Ask.
  destruct (srv (InsertOrderSelectSingle _) d) as [a d1] eqn:E1.
  destruct a as [[order|] [err|]|reason];
    try (cbn; right; split; [done|]; eexists; split; [done|right; done]).
  rewrite run_Ask.
  destruct (srv (InsertItems _) d1) as [b d2] eqn:E2.
  destruct b as [x [err|]|reason];
    try (cbn; right; split; [done|]; eexists; split; [done|right; done]).
  cbn. left. split; [done|split; [done|]]. exists order, x, d1. auto.
Qed.

Lemma success_only_after_both_inserts_witness :
  let srv := supabase (healthy "order-1" "t") in
  let st := jamie_state "Jamie" jamie_cart in
  let '((st', alerts), d', log) := run srv (MenuPage.submitOrder st) empty_db in
  (MenuPage.confirmed st' = true ∧ alerts = []
   ∧ ∃ order x d1,
       srv (InsertOrderSelectSingle (MenuPage.order_insert st)) empty_db
       = (Resolved (Some order) None, d1)
       ∧ srv (InsertItems (map (MenuPage.line_item st (Orders.id (data_row order)))
                               (MenuPage.cartItems st))) d1
         = (Resolved x None, d')
       ∧ MenuPage.orderId st' = Some (Orders.id (data_row order)))
  ∨ (MenuPage.confirmed st' = false
     ∧ ∃ a, alerts = [a]
            ∧ (ValidationError a ∧ log = [] ∨ PersistenceError a ∧ log ≠ [])).
Proof.
  exact (success_only_after_both_inserts (supabase (healthy "order-1" "t"))
           (jamie_state "Jamie" jamie_cart) empty_db eq_refl).
Defined.

Lemma fold_left_map_lines (f : Products.row → OrderItems.row) (g : Products.row → float)
    (l : list Products.row) (z : float) :
  (∀ p, (OrderItems.price (f p) * JS.Number (OrderItems.quantity (f p)))%float = g p) →
  fold_left (fun s it => (s + OrderItems.price it * JS.Number (OrderItems.quantity it))%float)
            (map f l) z
  = fold_left (fun s p => (s + g p)%float) l z.
Proof.
  intros H. revert z. induction l as [|p l IH]; intros z; [reflexivity|].
  cbn [map fold_left]. now rewrite IH, H.
Qed.

Lemma cartTotal_sum_of_lines st k :
  MenuPage.cartTotal st
  = sum_of_lines (map (MenuPage.line_item st k) (MenuPage.cartItems st)).
Proof.
  unfold MenuPage.cartTotal, sum_of_lines. symmetry.
  now apply fold_left_map_lines.
Qed.

Lemma items_reference_new_order (f : Products.row → OrderItems.row)
    (l : list Products.row) (u : string) (d : db) :
  (∀ p, OrderItems.order_id (f p) = u) → is_Some (orders_tbl d !! u) →
  items_reference_orders (map f l) d = true.
Proof.
  intros Hf Hu. unfold items_reference_orders. apply forallb_forall.
  intros it [p [<- _]]%in_map_iff. rewrite Hf. now apply bool_decide_eq_true.
Qed.

(** [supabase] is [hosted] for the callers and requests that the policies
    and the column types let through: the owner's dashboard, and an order
    placed in the owner's session. *)
Lemma hosted_lets_through a e q d :
  lets_through a q d → hosted a e q d = supabase e q d.
Proof.
  unfold hosted. destruct q as [p|items|p k|k|r c]; cbn [lets_through].
  - intros [Hown Hnum]. rewrite Hnum, Hown.
    replace (with_total (Orders.ins_total p) p) with p by now destruct p.
    unfold supabase. now destruct (fails e (InsertOrderSelectSingle p)).
  - intros ->. unfold supabase. now destruct (fails e (InsertItems items)).
  - intros H. destruct (fails e _) eqn:Hf; [unfold supabase; now rewrite Hf|].
    destruct (orders_tbl d !! k) as [r|] eqn:Hk; [|reflexivity].
    now rewrite (H r eq_refl).
  - intros H. destruct (fails e _) eqn:Hf; [unfold supabase; now rewrite Hf|].
    destruct (orders_tbl d !! k) as [r|] eqn:Hk; [|reflexivity].
    now rewrite (H r eq_refl).
  - intros [Hown Hold]. destruct (fails e _) eqn:Hf; [unfold supabase; now rewrite Hf|].
    rewrite Hown. cbn [andb].
    replace (forallb _ _) with true; [reflexivity|].
    symmetry. apply forallb_forall. now apply List.Forall_forall.
Qed.

(** The owner places Jamie's order: the policies and the columns change
    nothing. *)
Example hosted_jamie_order :
  run (hosted (signed_in "owner-1") (healthy "order-1" "t"))
      (MenuPage.submitOrder (jamie_state "Jamie" jamie_cart)) empty_db
  = run (supabase (healthy "order-1" "t"))
        (MenuPage.submitOrder (jamie_state "Jamie" jamie_cart)) empty_db.
Proof. vm_compute. reflexivity. Qed.


Lemma hosted_insert_order a e p d :
  hosted a e (InsertOrderSelectSingle p) d =
  if fails e (InsertOrderSelectSingle p) then failed "request failed" d
  else match numeric_10_2 (Orders.ins_total p) with
       | Some total =>
           if is_owner a (Orders.ins_business_id p)
           then supabase e (InsertOrderSelectSingle (with_total total p)) d
           else refused d
       | None => failed "numeric field overflow" d
       end.
Proof. reflexivity. Qed.



Lemma jamie_total_fits :
  fits_numeric_10_2
    (sum_of_lines (map (MenuPage.line_item (jamie_state "Jamie" jamie_cart) "order-1")
                       (MenuPage.cartItems (jamie_state "Jamie" jamie_cart)))).
Proof.
  exists 1200%Z. split; [|vm_compute; reflexivity].
  eexists. split; [vm_compute; reflexivity|]. vm_compute. repeat split; discriminate.
Qed.


(** Three items at 0.10 add up to 0.30000000000000004 as JavaScript
    numbers; the total sent and stored is 0.3.  (The numbers are written
    in hexadecimal: [0x1.999999999999ap-4] is the binary64 number of 0.1,
    [0x1.3333333333334p-2] that of 0.30000000000000004 and
    [0x1.3333333333333p-2] that of 0.3.) *)
Example three_tenths_stored :
  let st := {| MenuPage.business_id := "biz-a";
               MenuPage.products :=
                 [ {| Products.id := "mint"; Products.business_id := "biz-a";
                      Products.name := "Mint"; Products.price := 0x1.999999999999ap-4%float;
                      Products.available := true |} ];
               MenuPage.cart := {[ "mint" := 3 ]};
               MenuPage.customerName := str "Jamie";
               MenuPage.customerNote := [];
               MenuPage.submitting := false;
               MenuPage.confirmed := false;
               MenuPage.orderId := None |} in
  let d' := (run (hosted (signed_in "owner-1") (healthy "order-1" "t"))
                 (MenuPage.submitOrder st) empty_db).1.2 in
  sum_of_lines (map (MenuPage.line_item st "order-1") (MenuPage.cartItems st))
  = 0x1.3333333333334p-2%float
  ∧ Orders.total <$> orders_tbl d' !! "order-1" = Some 0x1.3333333333333p-2%float.
Proof. vm_compute. split; reflexivity. Qed.

(** A customer, who is not signed in, places no order: the insert with
    [.select()] has no policy for [select] to pass. *)
Example customer_order_refused :
  let st := jamie_state "Jamie" jamie_cart in
  let '(res, d', log) :=
    run (hosted customer (healthy "order-1" "t")) (MenuPage.submitOrder st) empty_db in
  res.2 = [MenuPage.SomethingWentWrong]
  ∧ MenuPage.confirmed res.1 = false
  ∧ d' = empty_db
  ∧ log = [InsertOrderSelectSingle (MenuPage.order_insert st)].
Proof. vm_compute. repeat split. Qed.

(** The cart [{Latte ×2 @ 4.50, Muffin ×1 @ 3.00}] of "Jamie": the stored
    order is pending with total 12.00 and has two line items. *)
Example jamie_order_stored :
  let d' := (run (supabase (healthy "order-1" "t"))
                 (MenuPage.submitOrder (jamie_state "Jamie" jamie_cart)) empty_db).1.2 in
  Orders.total <$> orders_tbl d' !! "order-1" = Some 12%float
  ∧ status_in d' "order-1" = Some "pending"
  ∧ fulfilled_at_in d' "order-1" = None
  ∧ map OrderItems.quantity (order_items_tbl d') = [2; 1].
Proof. vm_compute. repeat split. Qed.

(** The end-to-end scenario: after Jamie's order is placed, three calls of
    [advanceStatus] take it through preparing, ready and fulfilled,
    [fulfilled_at] is set by the third call only, and a fourth call changes
    nothing. *)
Example jamie_order_lifecycle :
  let d0 := (run (supabase (healthy "order-1" "t"))
                 (MenuPage.submitOrder (jamie_state "Jamie" jamie_cart)) empty_db).1.2 in
  let d1 := advance_stored "order-1" "T1" d0 in
  let d2 := advance_stored "order-1" "T2" d1 in
  let d3 := advance_stored "order-1" "T3" d2 in
  let d4 := advance_stored "order-1" "T4" d3 in
  map (fun d => (status_in d "order-1", fulfilled_at_in d "order-1")) [d0; d1; d2; d3; d4]
  = [ (Some "pending", None); (Some "preparing", None); (Some "ready", None);
      (Some "fulfilled", Some "T3"); (Some "fulfilled", Some "T3") ]
  ∧ d4 = d3.
Proof. vm_compute. split; reflexivity. Qed.

(** [nearest_hundredths m e] is the integer [n] with
    [n <= 100 * m * 2^e + 1/2 < n + 1]: the nearest number of hundredths,
    the larger one on a tie. *)
Lemma nearest_hundredths_spec m e :
  let n := JS.nearest_hundredths m e in
  if (0 <=? e)%Z then n = (100 * Z.pos m * 2 ^ e)%Z
  else (n * 2 ^ (1 - e) <= 200 * Z.pos m + 2 ^ (- e) < (n + 1) * 2 ^ (1 - e))%Z.
Proof.
  unfold JS.nearest_hundredths. destruct (Z.leb_spec 0 e) as [He|He]; [reflexivity|].
  cbv zeta.
  assert (Hpos : (0 < 2 ^ (1 - e))%Z) by (apply Z.pow_pos_nonneg; lia).
  pose proof (Z.mul_div_le (200 * Z.pos m + 2 ^ (- e)) _ Hpos).
  pose proof (Z.mul_succ_div_gt (200 * Z.pos m + 2 ^ (- e)) _ Hpos).
  lia.
Qed.

(** ** Events on the dashboard *)

Lemma merge_id o r : DashboardPage.id (DashboardPage.merge o r) = Orders.id r.
Proof. reflexivity. Qed.

Lemma on_update_ids r st :
  order_ids (DashboardPage.on_update r st) = order_ids st.
Proof.
  unfold order_ids, DashboardPage.on_update; cbn [DashboardPage.orders].
  induction (DashboardPage.orders st) as [|o l IH]; [reflexivity|].
  cbn [map]. rewrite IH. f_equal.
  destruct (String.eqb_spec (DashboardPage.id o) (Orders.id r)) as [E|_]; [|reflexivity].
  now rewrite merge_id.
Qed.

Lemma on_update_idempotent r st :
  DashboardPage.on_update r (DashboardPage.on_update r st) = DashboardPage.on_update r st.
Proof.
  unfold DashboardPage.on_update; cbn [DashboardPage.orders DashboardPage.toast
                                       DashboardPage.justFulfilled].
  f_equal. rewrite map_map. apply map_ext. intros o.
  destruct (String.eqb_spec (DashboardPage.id o) (Orders.id r)) as [E|E].
  - rewrite merge_id, String.eqb_refl. reflexivity.
  - apply String.eqb_neq in E. now rewrite E.
Qed.

(** C7, amended: an [UPDATE] event is applied as an idempotent merge keyed
    by order id: applying it twice is applying it once, and the list keeps
    its ids, in order (no entry is added, none removed, so distinct ids stay
    distinct).  An [INSERT] event puts the fetched order in front of the
    list, whether or not the list already holds that id (and leaves the
    state alone when the fetch brings no row). *)
Theorem update_events_merge_insert_events_prepend
    (srv : server) (d : db) (ev : order_event) (st : DashboardPage.state) :
  match ev with
  | UpdateEvent r =>
      apply_event srv d ev (apply_event srv d ev st) = apply_event srv d ev st
      ∧ order_ids (apply_event srv d ev st) = order_ids st
  | InsertEvent r =>
      match (srv (SelectOrderWithItemsEqId (Orders.id r)) d).1 with
      | Resolved (Some x) _ =>
          DashboardPage.orders (apply_event srv d ev st)
          = DashboardPage.of_data x :: DashboardPage.orders st
      | _ => apply_event srv d ev st = st
      end
  end.
Proof.
  destruct ev as [r|r]; cbn [apply_event].
  - unfold DashboardPage.on_insert. rewrite run_Ask.
    destruct (srv _ d) as [[[x|] e|reason] d1]; reflexivity.
  - split; [apply on_update_idempotent|apply on_update_ids].
Qed.

(** C7, as stated, fails on the code: an [INSERT] event for an order that
    the list already holds adds a second entry with the same id. *)
Lemma upsert_as_specified_fails :
  let o := sample_order "o-1" "pending" None in
  let srv := supabase (healthy "u" "t") in
  let ev := InsertEvent (DashboardPage.row o) in
  let empty := {| DashboardPage.orders := []; DashboardPage.toast := None;
                  DashboardPage.justFulfilled := None |} in
  ¬ upsert_as_specified srv (db_of o) ev (apply_event srv (db_of o) ev empty)
  ∧ order_ids (apply_event srv (db_of o) ev empty) = ["o-1"]
  ∧ order_ids (apply_event srv (db_of o) ev (apply_event srv (db_of o) ev empty))
    = ["o-1"; "o-1"].
Proof.
  cbv zeta. split; [|split; vm_compute; reflexivity].
  intros [_ H].
  assert (Hdup : NoDup ["o-1"; "o-1"]).
  { apply H. vm_compute. apply NoDup_singleton. }
  apply NoDup_cons in Hdup as [Hin _]. apply Hin. left.
Qed.

(** ** The change feed *)

(** C8: a change of [orders] that the feed delivers to one of the two
    listeners a dashboard registers for the business [business_id] is a
    change of an order of that business. *)
Theorem listeners_get_own_business_only
    (business_id : string) (l : DashboardPage.listener) (c : change) :
  In l (DashboardPage.realtime_listeners business_id) →
  delivers l c = true →
  Orders.business_id (change_new c) = business_id.
Proof.
  intros Hl Hd.
  assert (Hf : filter_holds ("business_id=eq." ++ business_id) (change_new c) = true).
  { destruct Hl as [<-|[<-|[]]]; unfold delivers in Hd;
      apply andb_true_iff in Hd as [_ Hd]; exact Hd. }
  cbn in Hf. now apply String.eqb_eq in Hf.
Qed.

Lemma listeners_get_own_business_only_witness :
  Orders.business_id
    (change_new {| change_event := "INSERT";
                   change_new := sample_row "o-1" "pending" None |})
  = "biz-a".
Proof.
  apply (listeners_get_own_business_only "biz-a"
           {| DashboardPage.event := "INSERT"; DashboardPage.schema := "public";
              DashboardPage.table := "orders";
              DashboardPage.filter := "business_id=eq.biz-a" |}).
  - left. reflexivity.
  - reflexivity.
Defined.

(** ** Push subscriptions *)

Section Upsert.
Variable r : PushSubscriptions.row.
Let e := PushSubscriptions.endpoint r.

Lemma same_endpoint_new : same_endpoint e r = true.
Proof. apply String.eqb_refl. Qed.

Lemma existsb_same_endpoint t :
  existsb (same_endpoint e) t = true ↔ In e (map PushSubscriptions.endpoint t).
Proof.
  rewrite existsb_exists, in_map_iff. unfold same_endpoint.
  split; intros (x & H1 & H2); exists x.
  - apply String.eqb_eq in H2. auto.
  - split; [exact H2|now apply String.eqb_eq].
Qed.

Lemma filter_absent t :
  ¬ In e (map PushSubscriptions.endpoint t) →
  List.filter (same_endpoint e) t = [].
Proof.
  induction t as [|x t IH]; [reflexivity|]. cbn [map List.filter]. intros H.
  destruct (same_endpoint e x) eqn:E.
  - exfalso. apply H. left. now apply String.eqb_eq in E.
  - apply IH. intros Hin. apply H. now right.
Qed.

(** Replacing the rows of the endpoint keeps the endpoints of the table. *)
Lemma replace_endpoints t :
  map PushSubscriptions.endpoint
      (map (fun old => if same_endpoint e old then r else old) t)
  = map PushSubscriptions.endpoint t.
Proof.
  rewrite map_map. apply map_ext. intros x. unfold same_endpoint.
  destruct (String.eqb_spec (PushSubscriptions.endpoint x) e) as [E|_]; [|reflexivity].
  now rewrite E.
Qed.

Lemma filter_replaced t :
  NoDup (map PushSubscriptions.endpoint t) →
  In e (map PushSubscriptions.endpoint t) →
  List.filter (same_endpoint e)
    (map (fun old => if same_endpoint e old then r else old) t) = [r].
Proof.
  induction t as [|x t IH]; [intros _ []|].
  cbn [map List.filter]. intros Hnd Hin.
  apply NoDup_cons in Hnd as [Hx Hnd].
  destruct (same_endpoint e x) eqn:E.
  - rewrite same_endpoint_new. f_equal.
    apply String.eqb_eq in E.
    assert (Habs : ¬ In e (map PushSubscriptions.endpoint t)).
    { rewrite <- E. intros H. apply Hx. now apply list_elem_of_In. }
    rewrite <- (replace_endpoints t) in Habs. now apply filter_absent.
  - rewrite E. apply IH; [exact Hnd|].
    destruct Hin as [Hin|Hin]; [|exact Hin].
    apply String.eqb_neq in E. congruence.
Qed.

Lemma upsert_push_records t :
  NoDup (map PushSubscriptions.endpoint t) →
  List.filter (same_endpoint e) (upsert_push r t) = [r].
Proof.
  intros Hnd. unfold upsert_push. fold e.
  destruct (existsb (same_endpoint e) t) eqn:Hex.
  - apply filter_replaced; [exact Hnd|now apply existsb_same_endpoint].
  - rewrite List.filter_app, filter_absent.
    + cbn [List.filter]. now rewrite same_endpoint_new.
    + rewrite <- existsb_same_endpoint. now rewrite Hex.
Qed.

Lemma upsert_push_unique t :
  NoDup (map PushSubscriptions.endpoint t) →
  NoDup (map PushSubscriptions.endpoint (upsert_push r t)).
Proof.
  intros Hnd. unfold upsert_push. fold e.
  destruct (existsb (same_endpoint e) t) eqn:Hex.
  - now rewrite replace_endpoints.
  - rewrite map_app. cbn [map]. apply NoDup_app. split; [exact Hnd|split].
    + intros x Hx [<-|[]]%list_elem_of_In. apply list_elem_of_In in Hx.
      apply existsb_same_endpoint in Hx. congruence.
    + apply NoDup_singleton.
Qed.

End Upsert.

(** One registration by a caller who owns the business and every business
    that holds the endpoint: the upsert goes through. *)
Lemma register_allowed a e business endpoint p256dh auth d :
  (∀ q, fails e q = false) →
  is_owner a business = true →
  Forall (fun r => is_owner a (PushSubscriptions.business_id r) = true)
         (records_for endpoint d) →
  push_tbl (register a e business endpoint p256dh auth d)
  = upsert_push (registration business endpoint p256dh auth) (push_tbl d).
Proof.
  intros Hok Hown Hold. unfold register, register_call. cbn.
  unfold hosted. rewrite Hok.
  cbn [PushSubscriptions.business_id PushSubscriptions.endpoint Push.push_row
       Push.endpoint Push.keys_p256dh Push.keys_auth].
  rewrite Hown. cbn [andb].
  replace (forallb _ _) with true.
  - unfold supabase. now rewrite Hok.
  - symmetry. apply forallb_forall. intros r Hr.
    unfold records_for in Hold. rewrite List.Forall_forall in Hold. now apply Hold.
Qed.

(** One registration of an endpoint that a business of another owner
    holds: the policy refuses the statement, and the database stays as it
    is. *)
Lemma register_refused a e business endpoint p256dh auth d r :
  In r (records_for endpoint d) →
  is_owner a (PushSubscriptions.business_id r) = false →
  register a e business endpoint p256dh auth d = d.
Proof.
  intros Hr Hown. unfold register, register_call. cbn.
  unfold hosted. destruct (fails e _); [reflexivity|].
  cbn [PushSubscriptions.business_id PushSubscriptions.endpoint Push.push_row
       Push.endpoint Push.keys_p256dh Push.keys_auth].
  replace (forallb _ _) with false; [now rewrite andb_false_r|].
  symmetry. apply not_true_is_false. intros Hall.
  rewrite forallb_forall in Hall. specialize (Hall r Hr). congruence.
Qed.

(** Whatever the database answers, the call reports success. *)
Lemma register_reports_success a e business endpoint p256dh auth d :
  (∀ q, fails e q = false) →
  register_returns a e business endpoint p256dh auth d = true.
Proof.
  intros Hok. unfold register_returns, register_call. cbn.
  unfold hosted. rewrite Hok.
  destruct (_ && _); [unfold supabase; rewrite Hok|]; reflexivity.
Qed.

(** C9, as stated, fails on the code behind the policies of the schema: a
    device registered for a business of one owner and then for a business
    of another keeps the record of the first registration, although each
    caller owns the business registered and the second call returns
    [true]. *)
Lemma registry_as_specified_fails :
  let a1 := signed_in "owner-1" in
  let a2 := signed_in "owner-2" in
  let e1 := healthy "u1" "t1" in
  let e2 := healthy "u2" "t2" in
  let d1 := register a1 e1 "biz-a" "https://push.example/dev1" "key1" "auth1" empty_db in
  ¬ registry_as_specified a1 a2 e1 e2 "https://push.example/dev1"
      "biz-a" "key1" "auth1" "biz-c" "key2" "auth2" empty_db
  ∧ is_owner a1 "biz-a" = true
  ∧ is_owner a2 "biz-c" = true
  ∧ records_for "https://push.example/dev1" d1
    = [registration "biz-a" "https://push.example/dev1" "key1" "auth1"]
  ∧ register a2 e2 "biz-c" "https://push.example/dev1" "key2" "auth2" d1 = d1
  ∧ register_returns a2 e2 "biz-c" "https://push.example/dev1" "key2" "auth2" d1 = true.
Proof.
  cbv zeta. split; [|repeat split].
  unfold registry_as_specified. vm_compute. discriminate.
Qed.

(** C9, amended: on a table whose endpoints are unique, let an endpoint be
    registered twice, with any keys, each time by a caller who owns the
    business registered, the first caller owning also the business that
    held the endpoint before, if any, and the server not failing.  Then
    there is exactly one record of that endpoint and the endpoints stay
    unique.  The record is that of the second registration when the second
    caller owns the business of the first; otherwise the policy "owner
    manages push" refuses the second upsert, the database stays as the
    first registration left it and the record is that of the first.  The
    second call returns [true] in both cases. *)
Theorem register_twice_keeps_one_record
    (a1 a2 : access) (e1 e2 : env) (endpoint b1 p1 k1 b2 p2 k2 : string) (d : db) :
  (∀ q, fails e1 q = false) → (∀ q, fails e2 q = false) →
  unique_endpoints d →
  Forall (fun r => is_owner a1 (PushSubscriptions.business_id r) = true)
         (records_for endpoint d) →
  is_owner a1 b1 = true → is_owner a2 b2 = true →
  let d1 := register a1 e1 b1 endpoint p1 k1 d in
  let d2 := register a2 e2 b2 endpoint p2 k2 d1 in
  unique_endpoints d2
  ∧ records_for endpoint d2
    = [ if is_owner a2 b1 then registration b2 endpoint p2 k2
        else registration b1 endpoint p1 k1 ]
  ∧ (is_owner a2 b1 = false → d2 = d1)
  ∧ register_returns a2 e2 b2 endpoint p2 k2 d1 = true.
Proof.
  intros H1 H2 Hu Hold Ho1 Ho2. cbv zeta.
  pose proof (register_allowed a1 e1 b1 endpoint p1 k1 d H1 Ho1 Hold) as Hd1.
  assert (Hu1 : unique_endpoints (register a1 e1 b1 endpoint p1 k1 d)).
  { unfold unique_endpoints. rewrite Hd1. now apply upsert_push_unique. }
  assert (Hr1 : records_for endpoint (register a1 e1 b1 endpoint p1 k1 d)
                = [registration b1 endpoint p1 k1]).
  { unfold records_for. rewrite Hd1.
    now apply (upsert_push_records (registration b1 endpoint p1 k1)). }
  destruct (is_owner a2 b1) eqn:Ho21.
  - assert (Hd2 : push_tbl (register a2 e2 b2 endpoint p2 k2
                              (register a1 e1 b1 endpoint p1 k1 d))
                  = upsert_push (registration b2 endpoint p2 k2)
                      (push_tbl (register a1 e1 b1 endpoint p1 k1 d))).
    { apply register_allowed; [exact H2|exact Ho2|].
      rewrite Hr1. now repeat constructor. }
    split; [|split; [|split]].
    + unfold unique_endpoints. rewrite Hd2. now apply upsert_push_unique.
    + unfold records_for. rewrite Hd2.
      now apply (upsert_push_records (registration b2 endpoint p2 k2)).
    + discriminate.
    + now apply register_reports_success.
  - assert (Hd2 : register a2 e2 b2 endpoint p2 k2
                    (register a1 e1 b1 endpoint p1 k1 d)
                  = register a1 e1 b1 endpoint p1 k1 d).
    { apply (register_refused a2 e2 b2 endpoint p2 k2 _ (registration b1 endpoint p1 k1)).
      - rewrite Hr1. now left.
      - exact Ho21. }
    rewrite Hd2. split; [exact Hu1|]. split; [exact Hr1|].
    split; [reflexivity|]. now apply register_reports_success.
Qed.

Lemma register_twice_keeps_one_record_witness :
  let a := signed_in "owner-1" in
  let d1 := register a (healthy "u1" "t1") "biz-a" "https://push.example/dev1"
              "key1" "auth1" empty_db in
  let d2 := register a (healthy "u2" "t2") "biz-b" "https://push.example/dev1"
              "key2" "auth2" d1 in
  unique_endpoints d2
  ∧ records_for "https://push.example/dev1" d2
    = [ if is_owner a "biz-a"
        then registration "biz-b" "https://push.example/dev1" "key2" "auth2"
        else registration "biz-a" "https://push.example/dev1" "key1" "auth1" ]
  ∧ (is_owner a "biz-a" = false → d2 = d1)
  ∧ register_returns a (healthy "u2" "t2") "biz-b" "https://push.example/dev1"
      "key2" "auth2" d1 = true.
Proof.
  apply (register_twice_keeps_one_record
           (signed_in "owner-1") (signed_in "owner-1")
           (healthy "u1" "t1") (healthy "u2" "t2")
           "https://push.example/dev1" "biz-a" "key1" "auth1" "biz-b" "key2" "auth2"
           empty_db).
  - reflexivity.
  - reflexivity.
  - apply NoDup_nil. exact I.
  - constructor.
  - reflexivity.
  - reflexivity.
Defined.

(** The same device and owner, a second business: the one record is that
    of the second registration. *)
Example register_twice_same_owner :
  let a := signed_in "owner-1" in
  records_for "https://push.example/dev1"
    (register a (healthy "u2" "t2") "biz-b" "https://push.example/dev1" "key2" "auth2"
       (register a (healthy "u1" "t1") "biz-a" "https://push.example/dev1"
          "key1" "auth1" empty_db))
  = [registration "biz-b" "https://push.example/dev1" "key2" "auth2"].
Proof. vm_compute. reflexivity. Qed.

Lemma subscribeToPush_gives_up (srv : server) businessId b d :
  push_unavailable b →
  ∃ msgs, run srv (Push.subscribeToPush businessId b) d = ((false, msgs), d, []).
Proof.
  unfold push_unavailable, Push.subscribeToPush.
  intros H.
  destruct (Push.has_serviceWorker b); [|cbn; eauto].
  destruct (Push.has_PushManager b); [|cbn; eauto].
  cbn [negb orb].
  destruct (Push.serviceWorker_ready b); [|cbn; eauto].
  destruct (Push.requestPermission b) as [permission|reason]; [|cbn; eauto].
  destruct (String.eqb_spec permission "granted") as [->|Hp]; [|cbn; eauto].
  cbn [negb].
  destruct (Push.vapid_key_decodes b); [|cbn; eauto].
  cbn [negb].
  destruct (Push.subscribe b) as [j|reason]; [|cbn; eauto].
  exfalso. destruct H as [H|[H|[H|[reason H]]]]; congruence.
Qed.

(** A request of [subscribeToPush] is the upsert of the subscription the
    browser handed out. *)
Lemma subscribeToPush_writes_after_subscribing businessId b q k :
  Push.subscribeToPush businessId b = Ask q k →
  ∃ j, Push.subscribe b = Push.Fulfilled j
       ∧ Push.requestPermission b = Push.Fulfilled "granted"
       ∧ q = UpsertPush (Push.push_row businessId j) "endpoint".
Proof.
  unfold Push.subscribeToPush.
  destruct (negb (Push.has_serviceWorker b) || negb (Push.has_PushManager b));
    [discriminate|].
  destruct (Push.serviceWorker_ready b); [|discriminate].
  destruct (Push.requestPermission b) as [permission|reason]; [|discriminate].
  destruct (String.eqb_spec permission "granted") as [->|Hp]; [|discriminate].
  cbn [negb].
  destruct (negb (Push.vapid_key_decodes b)); [discriminate|].
  destruct (Push.subscribe b) as [j|reason]; [|discriminate].
  intros H. injection H as <- _. now exists j.
Qed.

(** C10: when push is not supported, the permission is not granted or the
    browser's subscription fails, [subscribeToPush] returns [false] and sends
    nothing, so the database is as before; and whenever it sends a request,
    the browser's subscription had succeeded and the request is the upsert of
    that subscription's row. *)
Theorem subscribeToPush_writes_only_after_subscribing
    (srv : server) (businessId : string) (b : Push.browser) (d : db) :
  let '((ok, msgs), d', log) := run srv (Push.subscribeToPush businessId b) d in
  (push_unavailable b → ok = false ∧ d' = d ∧ log = [])
  ∧ (log ≠ [] →
     ∃ j, Push.subscribe b = Push.Fulfilled j
          ∧ Push.requestPermission b = Push.Fulfilled "granted"
          ∧ log = [UpsertPush (Push.push_row businessId j) "endpoint"]).
Proof.
  destruct (run srv _ d) as [[[ok msgs] d'] log] eqn:Heqp.
  split.
  - intros H. destruct (subscribeToPush_gives_up srv businessId b d H) as [m E].
    rewrite E in Heqp. now injection Heqp as <- <- <- <-.
  - intros Hlog.
    destruct (Push.subscribeToPush businessId b) as [r|q k] eqn:E.
    + cbn in Heqp. injection Heqp as _ _ <-. done.
    + destruct (subscribeToPush_writes_after_subscribing _ _ _ _ E) as (j & Hj & Hp & ->).
      exists j. split; [exact Hj|split; [exact Hp|]].
      unfold Push.subscribeToPush in E. rewrite Hj, Hp in E.
      destruct (negb (Push.has_serviceWorker b) || negb (Push.has_PushManager b));
        [discriminate|].
      destruct (Push.serviceWorker_ready b); [|discriminate].
      cbn [String.eqb negb] in E.
      destruct (negb (Push.vapid_key_decodes b)); [discriminate|].
      injection E as <-. rewrite run_Ask in Heqp.
      destruct (srv _ d) as [[x e|reason] d1]; cbn in Heqp;
        now injection Heqp as _ _ _ <-.
Qed.

(** A device on which the permission is denied: nothing is written. *)
Example subscribeToPush_denied :
  run (supabase (healthy "u" "t"))
      (Push.subscribeToPush "biz-a"
         {| Push.has_serviceWorker := true; Push.has_PushManager := true;
            Push.serviceWorker_ready := Push.Fulfilled tt;
            Push.requestPermission := Push.Fulfilled "denied";
            Push.vapid_key_decodes := true;
            Push.subscribe :=
              Push.Fulfilled {| Push.endpoint := "https://push.example/dev1";
                                Push.keys_p256dh := "key1";
                                Push.keys_auth := "auth1" |} |})
      empty_db
  = ((false, [Push.AlertPleaseAllow]), empty_db, []).
Proof. reflexivity. Qed.

(** ** The key of the application server *)

Ltac N_arith := zify; Z.to_euclidean_division_equations; lia.

Section Base64.
Open Scope list_scope.

Lemma list_ind3 {A} (P : list A → Prop) :
  P [] → (∀ x, P [x]) → (∀ x y, P [x; y]) →
  (∀ x y z l, P l → P (x :: y :: z :: l)) →
  ∀ l, P l.
Proof.
  intros H0 H1 H2 H3 l.
  enough (P l ∧ (∀ x, P (x :: l)) ∧ (∀ x y, P (x :: y :: l))) by tauto.
  induction l as [|a l (IH0 & IH1 & IH2)]; [auto|].
  split; [apply IH1|split; [intros x; apply IH2|]]. intros x y. now apply H3.
Qed.

Lemma bytes_of_sextets_of_bytes bs :
  bytes bs → PushKey.bytes_of_sextets (sextets_of_bytes bs) = bs.
Proof.
  unfold bytes. induction bs as [|x|x y|x y z l IH] using list_ind3; intros H.
  - reflexivity.
  - apply Forall_cons in H as [Hx _]. cbn. f_equal. N_arith.
  - apply Forall_cons in H as [Hx H]. apply Forall_cons in H as [Hy _].
    cbn. f_equal; [|f_equal]; N_arith.
  - apply Forall_cons in H as [Hx H]. apply Forall_cons in H as [Hy H].
    apply Forall_cons in H as [Hz H].
    cbn [sextets_of_bytes PushKey.bytes_of_sextets]. rewrite (IH H).
    f_equal; [|f_equal; [|f_equal]]; N_arith.
Qed.

Lemma sextets_of_bytes_length bs :
  (length (sextets_of_bytes bs) mod 4 ≠ 1)%nat.
Proof.
  induction bs as [|x|x y|x y z l IH] using list_ind3; cbn [sextets_of_bytes length];
    try (cbn; lia).
  change (S (S (S (S (length (sextets_of_bytes l))))))
    with (4 + length (sextets_of_bytes l))%nat.
  rewrite <- Nat.Div0.add_mod_idemp_l. exact IH.
Qed.

Lemma sextets_of_bytes_bound bs :
  bytes bs → Forall (fun n => (n < 64)%N) (sextets_of_bytes bs).
Proof.
  unfold bytes. induction bs as [|x|x y|x y z l IH] using list_ind3; intros H;
    cbn [sextets_of_bytes].
  - constructor.
  - apply Forall_cons in H as [Hx _]. repeat constructor; N_arith.
  - apply Forall_cons in H as [Hx H]. apply Forall_cons in H as [Hy _].
    repeat constructor; N_arith.
  - apply Forall_cons in H as [Hx H]. apply Forall_cons in H as [Hy H].
    apply Forall_cons in H as [Hz H].
    repeat (constructor; [N_arith|]). now apply IH.
Qed.

Lemma to_base64_replace s :
  PushKey.replace_all "_" "/" (PushKey.replace_all "-" "+" s) = map to_base64_char s.
Proof. unfold PushKey.replace_all. now rewrite map_map. Qed.

Lemma sextet_ok_all n : (n < 64)%N → sextet_ok n = true.
Proof.
  intros Hn.
  assert (H : forallb sextet_ok (map N.of_nat (seq 0 64)) = true) by (vm_compute; reflexivity).
  rewrite forallb_forall in H. apply H. apply in_map_iff.
  exists (N.to_nat n). split; [lia|]. apply in_seq. lia.
Qed.

Lemma drop_eq_padding n p r :
  (p ≤ n)%nat → Forall (fun c => Ascii.eqb c "=" = false) r →
  PushKey.drop_eq n (repeat "="%char p ++ r) = r.
Proof.
  revert n. induction p as [|p IH]; intros n Hp Hr.
  - cbn [repeat app]. destruct n as [|n]; [reflexivity|].
    destruct Hr as [|c r Hc _]; [reflexivity|]. cbn [PushKey.drop_eq]. now rewrite Hc.
  - destruct n as [|n]; [lia|]. cbn [repeat app PushKey.drop_eq].
    rewrite Ascii.eqb_refl. apply IH; [lia|exact Hr].
Qed.

Lemma repeat_eq_not_whitespace p :
  List.filter (fun c => negb (PushKey.is_ascii_whitespace c)) (repeat "="%char p)
  = repeat "="%char p.
Proof. induction p as [|p IH]; [reflexivity|]. cbn [repeat List.filter]. now rewrite IH. Qed.

Lemma rev_repeat {A} (x : A) p : rev (repeat x p) = repeat x p.
Proof.
  induction p as [|p IH]; [reflexivity|]. cbn [repeat rev]. rewrite IH.
  clear IH. induction p as [|p IH]; [reflexivity|]. cbn [repeat app]. now rewrite IH.
Qed.

Lemma padding_length (m : nat) :
  (m mod 4 ≠ 1 → (4 - m mod 4) mod 4 ≤ 2 ∧ (m + (4 - m mod 4) mod 4) mod 4 = 0)%nat.
Proof.
  intros H. rewrite (Nat.Div0.add_mod m).
  pose proof (Nat.mod_upper_bound m 4).
  destruct (m mod 4)%nat as [|[|[|[|k]]]]; cbn; lia.
Qed.

(** [atob] on the padded text of a run of six-bit values. *)
Lemma atob_padded (l : list N) :
  Forall (fun n => (n < 64)%N) l → (length l mod 4 ≠ 1)%nat →
  PushKey.atob (map to_base64_char (map base64url_char l)
                ++ repeat "="%char ((4 - length l mod 4) mod 4))
  = Some (map ascii_of_N (PushKey.bytes_of_sextets l)).
Proof.
  intros Hl Hlen. unfold PushKey.atob.
  set (chars := map to_base64_char (map base64url_char l)).
  set (p := ((4 - length l mod 4) mod 4)%nat).
  assert (Hchars : Forall (fun c => PushKey.is_ascii_whitespace c = false
                                    ∧ Ascii.eqb c "=" = false) chars).
  { unfold chars. rewrite map_map. apply List.Forall_forall.
    intros c [n [<- Hn]]%in_map_iff.
    rewrite List.Forall_forall in Hl. pose proof (sextet_ok_all n (Hl n Hn)) as Hok.
    unfold sextet_ok in Hok. apply andb_true_iff in Hok as [Hok H3].
    apply andb_true_iff in Hok as [_ H2].
    split; [now apply negb_true_iff in H2|now apply negb_true_iff in H3]. }
  assert (Hfilter : List.filter (fun c => negb (PushKey.is_ascii_whitespace c))
                      (chars ++ repeat "="%char p) = chars ++ repeat "="%char p).
  { rewrite List.filter_app, repeat_eq_not_whitespace. f_equal.
    clear -Hchars. induction Hchars as [|c r [Hc _] _ IH]; [reflexivity|].
    cbn [List.filter]. now rewrite Hc, IH. }
  rewrite Hfilter.
  assert (Hclen : length chars = length l) by (unfold chars; now rewrite !length_map).
  assert (Hp : (p ≤ 2 ∧ (length l + p) mod 4 = 0)%nat).
  { unfold p. now apply padding_length. }
  destruct Hp as [Hp2 Hp0].
  assert (Hstrip : PushKey.strip_padding (chars ++ repeat "="%char p) = chars).
  { unfold PushKey.strip_padding. rewrite length_app, repeat_length, Hclen, Hp0.
    cbn [Nat.eqb]. rewrite rev_app_distr, rev_repeat, drop_eq_padding.
    - apply rev_involutive.
    - exact Hp2.
    - apply List.Forall_forall. intros c Hc%in_rev.
      rewrite List.Forall_forall in Hchars. now apply Hchars. }
  rewrite Hstrip, Hclen.
  destruct (Nat.eqb_spec (length l mod 4) 1) as [E|_]; [contradiction|].
  rewrite (mapM_Some_2 PushKey.sextet chars l); [reflexivity|].
  unfold chars. rewrite map_map. apply Forall2_fmap_l.
  apply Forall_Forall2_diag. rewrite List.Forall_forall in Hl.
  apply List.Forall_forall. intros n Hn. cbn.
  pose proof (sextet_ok_all n (Hl n Hn)) as Hok. unfold sextet_ok in Hok.
  apply andb_true_iff in Hok as [Hok _]. apply andb_true_iff in Hok as [Hok _].
  now apply bool_decide_eq_true in Hok.
Qed.

(** [urlBase64ToUint8Array] reads a key in unpadded base64url back: on the
    encoding of any bytes it returns those bytes (the padding it adds and
    its replacing of [-] and [_] make the text one that [atob] accepts). *)
Theorem urlBase64ToUint8Array_decodes_base64url (bs : list N) :
  bytes bs →
  PushKey.urlBase64ToUint8Array (base64url_encode bs) = Some bs.
Proof.
  intros Hbs. unfold PushKey.urlBase64ToUint8Array, base64url_encode.
  rewrite list_ascii_of_string_of_list_ascii, to_base64_replace, map_app.
  rewrite length_map.
  assert (Hpad : ∀ p, map to_base64_char (repeat "="%char p) = repeat "="%char p).
  { induction p as [|p IH]; [reflexivity|]. cbn [repeat map]. now rewrite IH. }
  rewrite Hpad, atob_padded.
  - rewrite bytes_of_sextets_of_bytes by exact Hbs. f_equal.
    rewrite map_map. unfold bytes in Hbs.
    induction Hbs as [|b r Hb _ IH]; [reflexivity|].
    cbn [map]. now rewrite N_ascii_embedding, IH.
  - now apply sextets_of_bytes_bound.
  - apply sextets_of_bytes_length.
Qed.

Lemma urlBase64ToUint8Array_decodes_witness :
  PushKey.urlBase64ToUint8Array (base64url_encode [4; 251; 255; 16; 0]%N)
  = Some [4; 251; 255; 16; 0]%N.
Proof.
  apply urlBase64ToUint8Array_decodes_base64url.
  unfold bytes. repeat constructor.
Defined.

Lemma length_list_ascii (s : string) :
  length (list_ascii_of_string s) = String.length s.
Proof. induction s as [|c s IH]; [reflexivity|]. cbn. now rewrite IH. Qed.

Lemma atob_ends_with_eq (Y : list ascii) data :
  data = Y ++ ["="%char] →
  (if (length data mod 4 =? 1)%nat then None
   else match mapM PushKey.sextet data with
        | Some l => Some (map ascii_of_N (PushKey.bytes_of_sextets l))
        | None => None
        end) = None.
Proof.
  intros ->. destruct (_ =? 1)%nat; [reflexivity|].
  rewrite (mapM_None_2 PushKey.sextet); [reflexivity|].
  apply Exists_app. right. now left.
Qed.

Lemma key_of_length_4k_plus_1 (s : string) :
  (String.length s mod 4 = 1)%nat →
  PushKey.urlBase64ToUint8Array s = None.
Proof.
  intros Hs. unfold PushKey.urlBase64ToUint8Array.
  rewrite length_list_ascii, Hs. cbn [Nat.sub Nat.modulo Nat.divmod snd repeat].
  rewrite to_base64_replace, map_app. cbn [map].
  change (to_base64_char "=") with "="%char.
  set (l := map to_base64_char (list_ascii_of_string s)).
  unfold PushKey.atob. rewrite List.filter_app.
  cbn [List.filter]. change (negb (PushKey.is_ascii_whitespace "=")) with true.
  cbv iota.
  set (X := List.filter _ l).
  rewrite (atob_ends_with_eq
             (if (length (X ++ ["="; "="; "="]%char) mod 4 =? 0)%nat
              then X else X ++ ["="; "="]%char)); [reflexivity|].
  unfold PushKey.strip_padding.
  destruct (_ =? 0)%nat.
  - rewrite rev_app_distr. cbn [rev app PushKey.drop_eq].
    change (Ascii.eqb "=" "=") with true. cbv iota.
    cbn [rev]. now rewrite rev_involutive.
  - now rewrite <- app_assoc.
Qed.

Lemma drop_eq_keeps n (r : list ascii) c :
  In c r → Ascii.eqb c "=" = false → In c (PushKey.drop_eq n r).
Proof.
  revert r. induction n as [|n IH]; intros [|x r] Hin Hc; try exact Hin.
  cbn [PushKey.drop_eq]. destruct (Ascii.eqb_spec x "=") as [->|_]; [|exact Hin].
  apply IH; [|exact Hc]. destruct Hin as [<-|Hin]; [|exact Hin].
  now rewrite Ascii.eqb_refl in Hc.
Qed.

Lemma key_with_foreign_char (s : string) c :
  In c (list_ascii_of_string s) → key_char c = false →
  PushKey.urlBase64ToUint8Array s = None.
Proof.
  intros Hin Hc. unfold key_char in Hc.
  destruct (PushKey.sextet c) eqn:Hsx; [discriminate|].
  apply orb_false_iff in Hc as [Hc Heq]. apply orb_false_iff in Hc as [Hc Hws].
  apply orb_false_iff in Hc as [Hd Hu].
  assert (Hto : to_base64_char c = c) by (unfold to_base64_char; now rewrite Hd, Hu).
  unfold PushKey.urlBase64ToUint8Array. rewrite to_base64_replace.
  set (base64 := map to_base64_char _).
  assert (H1 : In c base64).
  { unfold base64. rewrite <- Hto. apply in_map, in_or_app. now left. }
  unfold PushKey.atob.
  set (data := List.filter _ base64).
  assert (H2 : In c data).
  { unfold data. apply filter_In. split; [exact H1|now rewrite Hws]. }
  assert (H3 : In c (PushKey.strip_padding data)).
  { unfold PushKey.strip_padding. destruct (_ =? 0)%nat; [|exact H2].
    apply in_rev. rewrite rev_involutive.
    apply drop_eq_keeps; [|exact Heq]. now apply in_rev in H2. }
  destruct (_ =? 1)%nat; [reflexivity|].
  rewrite (mapM_None_2 PushKey.sextet); [reflexivity|].
  apply List.Exists_exists. exists c. split; [exact H3|exact Hsx].
Qed.

(** [urlBase64ToUint8Array] throws (the [InvalidCharacterError] of [atob])
    on a key whose length is [4k + 1], and on a key that holds a character
    which is neither of the base64 or base64url alphabet, nor white space,
    nor [=]. *)
Theorem urlBase64ToUint8Array_rejects_malformed_key (s : string) :
  (String.length s mod 4 = 1)%nat
  ∨ Exists (fun c => key_char c = false) (list_ascii_of_string s) →
  PushKey.urlBase64ToUint8Array s = None.
Proof.
  intros [H|H]; [now apply key_of_length_4k_plus_1|].
  apply List.Exists_exists in H as (c & Hin & Hc).
  now apply (key_with_foreign_char s c).
Qed.

Lemma urlBase64ToUint8Array_rejects_witness :
  PushKey.urlBase64ToUint8Array "BP!v" = None.
Proof.
  apply urlBase64ToUint8Array_rejects_malformed_key.
  right. apply Exists_cons_tl, Exists_cons_tl, Exists_cons_hd. reflexivity.
Defined.

End Base64.

(** ** The cart badge *)

Lemma cartCount_insert i n (c : gmap string nat) :
  c !! i = None → MenuView.cartCount (<[i := n]> c) = (MenuView.cartCount c + n)%nat.
Proof.
  intros H. unfold MenuView.cartCount.
  rewrite map_fold_insert_L; [reflexivity| |exact H].
  intros. lia.
Qed.

Lemma cartCount_delete i n (c : gmap string nat) :
  c !! i = Some n → MenuView.cartCount c = (MenuView.cartCount (delete i c) + n)%nat.
Proof.
  intros H. rewrite <- (insert_delete_id c i n H) at 1.
  apply cartCount_insert. apply lookup_delete_eq.
Qed.

(** Every [addToCart] raises the count on the cart badge by one. *)
Theorem cartCount_addToCart (id : string) (c : gmap string nat) :
  MenuView.cartCount (MenuPage.addToCart id c) = (MenuView.cartCount c + 1)%nat.
Proof.
  unfold MenuPage.addToCart, MenuPage.quantity.
  destruct (c !! id) as [n|] eqn:E; simpl.
  - rewrite <- insert_delete_eq, cartCount_insert by apply lookup_delete_eq.
    rewrite (cartCount_delete id n c E). lia.
  - rewrite cartCount_insert by exact E. lia.
Qed.

(** [removeFromCart] lowers the count on the cart badge by one when the
    product is in the cart, and leaves it when the product is not. *)
Theorem cartCount_removeFromCart (id : string) (c : gmap string nat) :
  MenuView.cartCount (MenuPage.removeFromCart id c)
  = (MenuView.cartCount c - (if MenuPage.quantity c id =? 0 then 0 else 1))%nat.
Proof.
  unfold MenuPage.removeFromCart, MenuPage.quantity.
  destruct (c !! id) as [n|] eqn:E; simpl; [|lia].
  rewrite (cartCount_delete id n c E).
  destruct (Nat.ltb_spec 1 n) as [Hn|Hn].
  - rewrite <- insert_delete_eq, cartCount_insert by apply lookup_delete_eq.
    destruct n as [|n]; [lia|]. cbn [Nat.eqb]. lia.
  - destruct n as [|[|n]]; cbn [Nat.eqb]; lia.
Qed.

Lemma list_sum_cons x l : list_sum (x :: l) = (x + list_sum l)%nat.
Proof. reflexivity. Qed.

(** The quantities of the products of a list, looked up in a cart. *)
Lemma quantities_of_products (l : list Products.row) (c : gmap string nat) :
  NoDup (map Products.id l) →
  (∀ k, is_Some (c !! k) → In k (map Products.id l)) →
  list_sum (map (fun p => MenuPage.quantity c (Products.id p)) l) = MenuView.cartCount c.
Proof.
  revert c. induction l as [|p l IH]; intros c Hnd Hdom.
  - assert (c = ∅) as ->; [|reflexivity].
    apply map_empty. intros k. destruct (c !! k) eqn:E; [|reflexivity].
    destruct (Hdom k); eauto.
  - cbn [map list_sum fold_right]. apply NoDup_cons in Hnd as [Hp Hnd].
    assert (Hrest : map (fun q => MenuPage.quantity (delete (Products.id p) c) (Products.id q)) l
                    = map (fun q => MenuPage.quantity c (Products.id q)) l).
    { apply map_ext_in. intros q Hq. unfold MenuPage.quantity.
      rewrite lookup_delete_ne; [reflexivity|].
      intros E. apply Hp. rewrite E. apply list_elem_of_In. now apply in_map. }
    rewrite <- Hrest, (IH (delete (Products.id p) c)); [|exact Hnd|].
    + unfold MenuPage.quantity at 1.
      destruct (c !! Products.id p) as [n|] eqn:E; simpl.
      * rewrite (cartCount_delete _ n c E). lia.
      * now rewrite delete_id.
    + intros k [n Hk]. destruct (decide (Products.id p = k)) as [<-|Hne].
      * now rewrite lookup_delete_eq in Hk.
      * rewrite lookup_delete_ne in Hk by done.
        destruct (Hdom k) as [E|Hin]; [eauto|congruence|exact Hin].
Qed.

(** When the products have distinct ids and the cart holds listed products
    only, the count on the cart badge is the number of items on the line
    items that [submitOrder] sends. *)
Theorem cartCount_is_items_ordered (st : MenuPage.state) (order_id : string) :
  NoDup (map Products.id (MenuPage.products st)) →
  (∀ k, is_Some (MenuPage.cart st !! k) → In k (map Products.id (MenuPage.products st))) →
  items_ordered (map (MenuPage.line_item st order_id) (MenuPage.cartItems st))
  = MenuView.cartCount (MenuPage.cart st).
Proof.
  intros Hnd Hdom. rewrite <- (quantities_of_products _ _ Hnd Hdom).
  unfold items_ordered, MenuPage.cartItems. rewrite map_map.
  cbn [MenuPage.line_item OrderItems.quantity].
  clear. induction (MenuPage.products st) as [|p l IH]; [reflexivity|].
  cbn [List.filter map]. rewrite list_sum_cons.
  destruct (Nat.eqb_spec (MenuPage.quantity (MenuPage.cart st) (Products.id p)) 0) as [E|E];
    cbn [negb map]; rewrite ?list_sum_cons, IH; [now rewrite E|reflexivity].
Qed.

Lemma cartCount_is_items_ordered_witness :
  items_ordered (map (MenuPage.line_item (jamie_state "Jamie" jamie_cart) "order-1")
                     (MenuPage.cartItems (jamie_state "Jamie" jamie_cart)))
  = MenuView.cartCount jamie_cart.
Proof.
  apply (cartCount_is_items_ordered (jamie_state "Jamie" jamie_cart) "order-1").
  - apply (bool_decide_unpack _). vm_compute. exact I.
  - intros k [n Hk]. cbn.
    destruct (decide (k = "latte")) as [->|H1]; [now left|].
    destruct (decide (k = "muffin")) as [->|H2]; [right; now left|].
    exfalso. unfold jamie_cart, MenuPage.addToCart in Hk. cbn [MenuPage.cart jamie_state jamie_named] in Hk.
    rewrite lookup_insert_ne, lookup_insert_ne, lookup_insert_ne, lookup_empty in Hk by done.
    discriminate Hk.
Defined.

(** ** The category tabs of the menu *)

Lemma set_from_spec seen xs c :
  In c (MenuView.set_from seen xs) ↔ In c xs ∧ ¬ In c seen.
Proof.
  revert seen. induction xs as [|x xs IH]; intros seen; cbn [MenuView.set_from].
  - cbn. tauto.
  - destruct (existsb (String.eqb x) seen) eqn:E.
    + rewrite IH. apply existsb_exists in E as (y & Hy & ->%String.eqb_eq).
      cbn. split; [tauto|]. intros [[->|H] Hn]; tauto.
    + assert (Hx : ¬ In x seen).
      { intros H. apply not_true_iff_false in E. apply E, existsb_exists.
        exists x. split; [exact H|apply String.eqb_refl]. }
      cbn [In]. rewrite IH. cbn [In].
      destruct (String.eqb_spec x c) as [->|Hne]; [tauto|].
      split; [intros [?|[? ?]]; [congruence|tauto]|intros [[?|?] ?]; [congruence|tauto]].
Qed.

Lemma set_from_NoDup seen xs : NoDup (MenuView.set_from seen xs).
Proof.
  revert seen. induction xs as [|x xs IH]; intros seen; cbn [MenuView.set_from].
  - apply NoDup_nil. exact I.
  - destruct (existsb (String.eqb x) seen); [apply IH|].
    apply NoDup_cons. split; [|apply IH].
    rewrite list_elem_of_In, set_from_spec. cbn. tauto.
Qed.

Lemma truthy_category_Some p c :
  MenuView.truthy_category p = Some c ↔ MenuView.category p = Some c ∧ c ≠ "".
Proof.
  unfold MenuView.truthy_category.
  destruct (MenuView.category p) as [[|a s]|]; split;
    try (intros [H1 H2]); try intros H; try discriminate; try congruence; try (split; congruence).
Qed.

Lemma category_tabs (products : list MenuView.listed) (c : string) :
  In c (MenuView.set_from [] (omap MenuView.truthy_category products))
  ↔ c ≠ "" ∧ ∃ p, In p products ∧ MenuView.category p = Some c.
Proof.
  rewrite set_from_spec, <- list_elem_of_In, list_elem_of_omap.
  split.
  - intros [(p & Hp & Hc) _]. apply truthy_category_Some in Hc as [Hc Hne].
    split; [exact Hne|]. exists p. now rewrite <- list_elem_of_In.
  - intros [Hne (p & Hp & Hc)]. split; [|intros []].
    exists p. split; [now apply list_elem_of_In|]. now apply truthy_category_Some.
Qed.

(** The tabs of the menu: [All] first, then every category that is neither
    null nor empty, each once. *)
Theorem categories_are_the_distinct_categories (products : list MenuView.listed) :
  hd_error (MenuView.categories products) = Some "All"
  ∧ NoDup (tail (MenuView.categories products))
  ∧ ∀ c, In c (tail (MenuView.categories products))
         ↔ c ≠ "" ∧ ∃ p, In p products ∧ MenuView.category p = Some c.
Proof.
  unfold MenuView.categories. cbn [hd_error tail].
  split; [reflexivity|split; [apply set_from_NoDup|]].
  intros c. apply category_tabs.
Qed.

(** On a menu with at least one product, no tab shows an empty list. *)
Theorem no_tab_is_empty (products : list MenuView.listed) (tab : string) :
  products ≠ [] →
  In tab (MenuView.categories products) →
  MenuView.visibleProducts tab products ≠ [].
Proof.
  intros Hne Htab. unfold MenuView.visibleProducts.
  destruct (String.eqb_spec tab "All") as [_|Hall]; [exact Hne|].
  destruct Htab as [E|Htab]; [congruence|].
  apply category_tabs in Htab as [_ (p & Hp & Hc)].
  intros E.
  assert (Hin : In p (List.filter (MenuView.in_category tab) products)).
  { apply filter_In. split; [exact Hp|].
    unfold MenuView.in_category. rewrite Hc. apply String.eqb_refl. }
  rewrite E in Hin. destruct Hin.
Qed.

Lemma no_tab_is_empty_witness :
  MenuView.visibleProducts "Food" sample_menu ≠ [].
Proof.
  apply no_tab_is_empty.
  - discriminate.
  - vm_compute. auto.
Defined.

(** ** The slug form of the welcome page *)

Lemma toLowerCase_empty s : WelcomePage.toLowerCase s = [] → s = [].
Proof. destruct s; [reflexivity|discriminate]. Qed.

Lemma dash_runs_empty s : WelcomePage.dash_runs false s = [] → s = [].
Proof.
  destruct s as [|c s]; [reflexivity|]. cbn [WelcomePage.dash_runs].
  destruct (JS.is_space c); discriminate.
Qed.

(** [handleGo] stays on the page exactly when the slug is empty or white
    space only. *)
Theorem handleGo_navigates_unless_blank (slug : text) :
  ascii_text slug →
  (WelcomePage.handleGo slug = None ↔ blank slug).
Proof.
  intros _. unfold WelcomePage.handleGo, WelcomePage.clean. split.
  - destruct (WelcomePage.dash_runs _ _) eqn:E; [|discriminate]. intros _.
    apply dash_runs_empty, toLowerCase_empty in E. now apply trim_empty_blank.
  - intros H. now rewrite (trim_blank _ H).
Qed.

Lemma lower_not_upper c : WelcomePage.is_upper (WelcomePage.toLowerCase_char c) = false.
Proof.
  unfold WelcomePage.toLowerCase_char. destruct (WelcomePage.is_upper c) eqn:E; [|exact E].
  unfold WelcomePage.is_upper in *.
  apply andb_true_iff in E as [H1%N.leb_le H2%N.leb_le].
  apply andb_false_iff. right. apply N.leb_gt. lia.
Qed.

Lemma dash_runs_slug_like b s :
  Forall (fun c => WelcomePage.is_upper c = false) s →
  slug_like (WelcomePage.dash_runs b s).
Proof.
  unfold slug_like. revert b. induction s as [|c s IH]; intros b H; cbn [WelcomePage.dash_runs].
  - constructor.
  - apply Forall_cons in H as [Hc H].
    destruct (JS.is_space c) eqn:E.
    + destruct b; [now apply IH|].
      constructor; [split; reflexivity|now apply IH].
    + constructor; [auto|now apply IH].
Qed.

Lemma toLowerCase_no_upper s :
  Forall (fun c => WelcomePage.is_upper c = false) (WelcomePage.toLowerCase s).
Proof.
  induction s as [|c s IH]; cbn; constructor; [apply lower_not_upper|exact IH].
Qed.

(** The path [handleGo] navigates to is [/order/] followed by a non-empty
    text without white space and without capital letters. *)
Theorem handleGo_path_is_slug_like (slug path : text) :
  ascii_text slug →
  WelcomePage.handleGo slug = Some path →
  ∃ c, path = (str "/order/" ++ c)%list ∧ c ≠ [] ∧ slug_like c.
Proof.
  unfold WelcomePage.handleGo. intros _ H.
  exists (WelcomePage.clean slug). split; [|split].
  - destruct (WelcomePage.clean slug); [discriminate|]. now injection H as <-.
  - destruct (WelcomePage.clean slug); [discriminate|discriminate].
  - apply dash_runs_slug_like, toLowerCase_no_upper.
Qed.

Lemma trimStart_slug_like s : slug_like s → JS.trimStart s = s.
Proof.
  unfold slug_like. destruct s as [|c s]; [reflexivity|]. cbn [JS.trimStart].
  intros [[-> _] _]%Forall_cons. reflexivity.
Qed.

Lemma trimEnd_slug_like s : slug_like s → JS.trimEnd s = s.
Proof.
  unfold slug_like. induction s as [|c s IH]; [reflexivity|]. cbn [JS.trimEnd].
  intros [[Hc _] H]%Forall_cons. rewrite (IH H), Hc. now destruct s.
Qed.

Lemma toLowerCase_slug_like s : slug_like s → WelcomePage.toLowerCase s = s.
Proof.
  unfold slug_like, WelcomePage.toLowerCase.
  induction s as [|c s IH]; [reflexivity|]. cbn [map].
  intros [[_ Hc] H]%Forall_cons. rewrite (IH H). unfold WelcomePage.toLowerCase_char.
  now rewrite Hc.
Qed.

Lemma dash_runs_slug_like_id b s : slug_like s → WelcomePage.dash_runs b s = s.
Proof.
  unfold slug_like. revert b. induction s as [|c s IH]; intros b; [reflexivity|].
  cbn [WelcomePage.dash_runs].
  intros [[Hc _] H]%Forall_cons. now rewrite Hc, (IH false H).
Qed.

Lemma clean_slug_like (slug : text) :
  slug_like slug → WelcomePage.clean slug = slug.
Proof.
  intros H. unfold WelcomePage.clean, JS.trim.
  now rewrite trimStart_slug_like, trimEnd_slug_like, toLowerCase_slug_like,
    dash_runs_slug_like_id.
Qed.

(** A slug that is already clean (no white space, no capital letter) is
    taken as it is. *)
Theorem handleGo_keeps_slug (slug : text) :
  ascii_text slug → slug_like slug → slug ≠ [] →
  WelcomePage.handleGo slug = Some (str "/order/" ++ slug)%list.
Proof.
  intros _ H Hne. unfold WelcomePage.handleGo. rewrite (clean_slug_like _ H).
  now destruct slug.
Qed.

Lemma handleGo_keeps_slug_witness :
  WelcomePage.handleGo (str "my-coffee-shop")
  = Some (str "/order/" ++ str "my-coffee-shop")%list.
Proof.
  apply handleGo_keeps_slug.
  - unfold ascii_text. cbn. repeat constructor.
  - unfold slug_like. cbn. repeat constructor.
  - discriminate.
Defined.

(** Cleaning a slug twice gives what cleaning it once gives. *)
Theorem clean_idempotent (slug : text) :
  ascii_text slug →
  WelcomePage.clean (WelcomePage.clean slug) = WelcomePage.clean slug.
Proof.
  intros _. apply clean_slug_like. apply dash_runs_slug_like, toLowerCase_no_upper.
Qed.

Lemma ascii_text_my_cafe : ascii_text (str "  My  Cafe ").
Proof. unfold ascii_text. cbn. repeat constructor. Defined.

Lemma handleGo_navigates_unless_blank_witness :
  WelcomePage.handleGo (str "  My  Cafe ") = None ↔ blank (str "  My  Cafe ").
Proof. exact (handleGo_navigates_unless_blank (str "  My  Cafe ") ascii_text_my_cafe). Defined.

Lemma handleGo_path_is_slug_like_witness :
  ∃ c, str "/order/my-cafe" = (str "/order/" ++ c)%list ∧ c ≠ [] ∧ slug_like c.
Proof.
  exact (handleGo_path_is_slug_like (str "  My  Cafe ") (str "/order/my-cafe")
           ascii_text_my_cafe eq_refl).
Defined.

Lemma clean_idempotent_witness :
  WelcomePage.clean (WelcomePage.clean (str "  My  Cafe "))
  = WelcomePage.clean (str "  My  Cafe ").
Proof. exact (clean_idempotent (str "  My  Cafe ") ascii_text_my_cafe). Defined.

(** ** What the dashboard shows *)

(** What [timeAgo] prints for a date that can be read, at a time and for
    a date within the range of [Date]: with [d] the milliseconds between the
    two as the subtraction gives them (the exact difference up to [2^53],
    at most one millisecond off beyond), [just now] when [d] is below one
    minute (also for a date in the future), [m] minutes with [1 ≤ m ≤ 59]
    rounded down below one hour, and [h ≥ 1] hours rounded down from then
    on; never [NaN]. *)
Theorem timeAgo_ranges (now t : Z) :
  (Z.abs now <= DashboardView.max_time)%Z → (Z.abs t <= DashboardView.max_time)%Z →
  let d := DashboardView.time_difference now t in
  ((Z.abs (now - t) <= 2 ^ 53)%Z → d = (now - t)%Z)
  ∧ (Z.abs (d - (now - t)) <= 1)%Z
  ∧ match DashboardView.timeAgo now (Some t) with
    | DashboardView.JustNow => (d < 60000)%Z
    | DashboardView.MinutesAgo m =>
        (1 <= m <= 59 ∧ 60000 * m <= d < 60000 * (m + 1))%Z
    | DashboardView.HoursAgo h =>
        (1 <= h ∧ 3600000 * h <= d < 3600000 * (h + 1))%Z
    | DashboardView.HoursAgoNaN => False
    end.
Proof.
  intros Hnow Ht. cbv zeta. split; [|split].
  - intros H. unfold DashboardView.time_difference. cbv zeta.
    destruct (Z.leb_spec (Z.abs (now - t)) (2 ^ 53)); [reflexivity|lia].
  - unfold DashboardView.time_difference. cbv zeta.
    destruct (Z.leb_spec (Z.abs (now - t)) (2 ^ 53)); [lia|].
    destruct (Z.even (now - t)); [lia|].
    destruct (Z.eqb_spec ((now - t) mod 4) 1); lia.
  - unfold DashboardView.timeAgo.
    destruct (Z.ltb_spec DashboardView.max_time (Z.abs t)) as [Hbig|_]; [lia|]. cbv zeta.
    set (d := DashboardView.time_difference now t).
    destruct (Z.ltb_spec (d / 1000) 60) as [H|H].
    + Z.to_euclidean_division_equations; lia.
    + destruct (Z.ltb_spec (d / 1000) 3600) as [H'|H'];
        Z.to_euclidean_division_equations; lia.
Qed.

Lemma timeAgo_ranges_witness :
  let now := 1730000000000%Z in
  let t := 1729999875000%Z in
  let d := DashboardView.time_difference now t in
  ((Z.abs (now - t) <= 2 ^ 53)%Z → d = (now - t)%Z)
  ∧ (Z.abs (d - (now - t)) <= 1)%Z
  ∧ match DashboardView.timeAgo now (Some t) with
    | DashboardView.JustNow => (d < 60000)%Z
    | DashboardView.MinutesAgo m =>
        (1 <= m <= 59 ∧ 60000 * m <= d < 60000 * (m + 1))%Z
    | DashboardView.HoursAgo h =>
        (1 <= h ∧ 3600000 * h <= d < 3600000 * (h + 1))%Z
    | DashboardView.HoursAgoNaN => False
    end.
Proof.
  apply (timeAgo_ranges 1730000000000 1729999875000);
    apply Z.leb_le; reflexivity.
Defined.

(** The two dates farthest apart: the difference has 54 bits, is rounded
    to a multiple of four, and gives one hour more than the exact
    difference would. *)
Example timeAgo_farthest :
  DashboardView.timeAgo 8640000000000000 (Some (-8639999999999999)%Z)
  = DashboardView.HoursAgo 4800000000.
Proof. reflexivity. Qed.

(** The same in the arithmetic of binary64: the difference of the two
    dates farthest apart, and a quotient by 1000 that is as near below an
    integer as a quotient of time values of that size gets, which the
    division does not round up to the integer. *)
Example time_difference_binary64 :
  (8640000000000000 - -8639999999999999 =? 17280000000000000)%float = true
  ∧ DashboardView.time_difference 8640000000000000 (-8639999999999999)
    = 17280000000000000%Z
  ∧ (let q := (9007199254739999 / 1000)%float in
     (9007199254739 <=? q)%float && (q <? 9007199254740)%float) = true
  ∧ (9007199254739999 / 1000 = 9007199254739)%Z.
Proof. repeat split. Qed.

(** The advance button of an order card and [advanceStatus] agree: when the
    card draws no button, [advanceStatus] returns at once; when it draws
    the button for [next], that status has a label, and the click asks the
    server to set the status to [next]. *)
Theorem advance_button_tells_what_the_click_does
    (o : DashboardPage.order) (now : string) (st : DashboardPage.state) :
  match DashboardView.card_nextStatus o with
  | None => DashboardPage.advanceStatus o now st = Ret (DashboardPage.Returned, st)
  | Some next =>
      is_Some (DashboardPage.STATUS_META_label next)
      ∧ ∃ k, DashboardPage.advanceStatus o now st
             = Ask (UpdateOrderEqId (DashboardPage.advance_patch next now)
                                    (DashboardPage.id o)) k
  end.
Proof.
  unfold DashboardView.card_nextStatus, DashboardPage.advanceStatus.
  cbn -[String.eqb DashboardPage.advance_patch DashboardPage.STATUS_META_label].
  destruct (String.eqb "pending" (DashboardPage.status o));
    [|destruct (String.eqb "preparing" (DashboardPage.status o));
      [|destruct (String.eqb "ready" (DashboardPage.status o));
        [|destruct (String.eqb "fulfilled" (DashboardPage.status o))]]];
    cbn -[DashboardPage.advance_patch]; try reflexivity;
    (split; [eauto|eexists; reflexivity]).
Qed.

Lemma status_with_status s (o : DashboardPage.order) :
  DashboardPage.status (DashboardPage.with_status s o) = s.
Proof. reflexivity. Qed.

Lemma map_advance_other (o : DashboardPage.order) next (l : list DashboardPage.order) :
  ¬ In (DashboardPage.id o) (map DashboardPage.id l) →
  map (fun o' => if String.eqb (DashboardPage.id o') (DashboardPage.id o)
                 then DashboardPage.with_status next o' else o') l = l.
Proof.
  induction l as [|h l IH]; [reflexivity|]. cbn [map In]. intros H.
  destruct (String.eqb_spec (DashboardPage.id h) (DashboardPage.id o)) as [E|_]; [tauto|].
  rewrite IH by tauto. reflexivity.
Qed.

Lemma fulfilled_card_counts (o : DashboardPage.order) (l : list DashboardPage.order) :
  DashboardPage.status o = "ready" → In o l → NoDup (map DashboardPage.id l) →
  let l' := map (fun o' => if String.eqb (DashboardPage.id o') (DashboardPage.id o)
                           then DashboardPage.with_status "fulfilled" o' else o') l in
  let active := fun o' => negb (String.eqb (DashboardPage.status o') "fulfilled") in
  let done := fun o' => String.eqb (DashboardPage.status o') "fulfilled" in
  (length (List.filter active l') + 1 = length (List.filter active l))%nat
  ∧ (length (List.filter done l') = length (List.filter done l) + 1)%nat
  ∧ In (DashboardPage.with_status "fulfilled" o) (List.filter done l').
Proof.
  intros Hs. cbv zeta. induction l as [|h l IH]; intros Hin Hnd; [destruct Hin|].
  cbn [map] in Hnd. apply NoDup_cons in Hnd as [Hh Hnd]. rewrite list_elem_of_In in Hh.
  cbn [map].
  destruct (String.eqb_spec (DashboardPage.id h) (DashboardPage.id o)) as [E|E].
  - assert (h = o) as ->.
    { destruct Hin as [->|Hin]; [reflexivity|]. exfalso. apply Hh. rewrite E. now apply in_map. }
    rewrite map_advance_other by exact Hh.
    cbn [List.filter]. rewrite status_with_status, Hs.
    change ("fulfilled" =? "fulfilled") with true. change ("ready" =? "fulfilled") with false.
    cbn [negb length In]. split; [lia|split; [lia|now left]].
  - destruct Hin as [->|Hin]; [congruence|].
    destruct (IH Hin Hnd) as (H1 & H2 & H3).
    cbn [List.filter]. destruct (String.eqb (DashboardPage.status h) "fulfilled");
      cbn [negb length In]; (split; [lia|split; [lia|auto]]).
Qed.

(** Advancing a [ready] order of a list without duplicate ids, when the
    request resolves, moves its card from the active tab to the completed
    tab: one order fewer there, one more here. *)
Theorem fulfilling_moves_card_to_completed
    (srv : server) (o : DashboardPage.order) (now : string)
    (st : DashboardPage.state) (d : db) (x : option data) (e : option string) (d1 : db) :
  DashboardPage.status o = "ready" →
  In o (DashboardPage.orders st) →
  NoDup (order_ids st) →
  srv (UpdateOrderEqId (DashboardPage.advance_patch "fulfilled" now)
                       (DashboardPage.id o)) d = (Resolved x e, d1) →
  let st' := (run srv (DashboardPage.advanceStatus o now st) d).1.1.2 in
  (length (DashboardView.activeOrders st') + 1
   = length (DashboardView.activeOrders st))%nat
  ∧ (length (DashboardView.fulfilledOrders st')
     = length (DashboardView.fulfilledOrders st) + 1)%nat
  ∧ In (DashboardPage.with_status "fulfilled" o) (DashboardView.fulfilledOrders st').
Proof.
  intros Hs Hin Hnd Hsrv. cbv zeta.
  assert (Hc : chain_successor (DashboardPage.status o) = Some "fulfilled")
    by (now rewrite Hs).
  destruct (advanceStatus_on_forward o now st "fulfilled" Hc) as (k & -> & Hk & _).
  rewrite run_Ask, Hsrv. destruct (Hk x e) as (st' & -> & Horders).
  cbn [run fst snd]. unfold DashboardView.activeOrders, DashboardView.fulfilledOrders.
  rewrite Horders. now apply fulfilled_card_counts.
Qed.

Lemma fulfilling_moves_card_to_completed_witness :
  let o := sample_order "o1" "ready" None in
  let st' := (run (supabase offline)
                  (DashboardPage.advanceStatus o "12:00" (dashboard_of o)) (db_of o)).1.1.2 in
  (length (DashboardView.activeOrders st') + 1
   = length (DashboardView.activeOrders (dashboard_of o)))%nat
  ∧ (length (DashboardView.fulfilledOrders st')
     = length (DashboardView.fulfilledOrders (dashboard_of o)) + 1)%nat
  ∧ In (DashboardPage.with_status "fulfilled" o) (DashboardView.fulfilledOrders st').
Proof.
  intros o.
  apply (fulfilling_moves_card_to_completed (supabase offline) o "12:00" (dashboard_of o)
           (db_of o) None (Some "request failed") (db_of o)).
  - reflexivity.
  - now left.
  - apply (bool_decide_unpack _). vm_compute. exact I.
  - reflexivity.
Defined.

(** ** Errors, frames and the life of an order *)

Lemma advanceStatus_forward_toast o now st next :
  chain_successor (DashboardPage.status o) = Some next →
  ∃ k, DashboardPage.advanceStatus o now st =
       Ask (UpdateOrderEqId (DashboardPage.advance_patch next now) (DashboardPage.id o)) k
     ∧ ∀ x e, ∃ st', k (Resolved x e) = Ret (DashboardPage.Returned, st')
          ∧ DashboardPage.orders st' =
            map (fun o' => if String.eqb (DashboardPage.id o') (DashboardPage.id o)
                           then DashboardPage.with_status next o' else o')
                (DashboardPage.orders st)
          ∧ DashboardPage.toast st' ≠ None.
Proof.
  intros H. unfold DashboardPage.advanceStatus.
  destruct (chain_successor_cases _ _ H) as [[-> ->]|[[-> ->]|[-> ->]]];
    (eexists; split; [reflexivity|]; intros; eexists; split;
     [reflexivity|split; [reflexivity|discriminate]]).
Qed.

(** [advanceStatus] does not read the answer to its update: when the server
    refuses it, the database is as before, and the dashboard still shows
    the order in the next status, with the toast, and the call returns
    normally. *)
Theorem refused_update_still_advances_dashboard
    (e : env) (o : DashboardPage.order) (now : string)
    (st : DashboardPage.state) (d : db) (next : string) :
  chain_successor (DashboardPage.status o) = Some next →
  fails e (UpdateOrderEqId (DashboardPage.advance_patch next now)
                           (DashboardPage.id o)) = true →
  ∃ st', run (supabase e) (DashboardPage.advanceStatus o now st) d
         = ((DashboardPage.Returned, st'), d,
            [UpdateOrderEqId (DashboardPage.advance_patch next now) (DashboardPage.id o)])
    ∧ DashboardPage.orders st' =
      map (fun o' => if String.eqb (DashboardPage.id o') (DashboardPage.id o)
                     then DashboardPage.with_status next o' else o')
          (DashboardPage.orders st)
    ∧ DashboardPage.toast st' ≠ None.
Proof.
  intros Hc Hf.
  destruct (advanceStatus_forward_toast o now st next Hc) as (k & -> & Hk).
  rewrite run_Ask, supabase_update, Hf. unfold failed.
  destruct (Hk None (Some "request failed")) as (st' & -> & Ho & Ht).
  exists st'. now rewrite run_Ret.
Qed.

Lemma advance_db_cases e o now st d :
  db_after e (Advance o now st) d = d
  ∨ ∃ r p, orders_tbl d !! DashboardPage.id o = Some r
           ∧ db_after e (Advance o now st) d
             = {| orders_tbl := <[DashboardPage.id o := Orders.apply_patch p r]> (orders_tbl d);
                  order_items_tbl := order_items_tbl d;
                  push_tbl := push_tbl d |}.
Proof.
  unfold db_after.
  pose proof (advanceStatus_shape o now st) as Hshape.
  destruct (advance_target (DashboardPage.status o)) as [next|].
  - destruct Hshape as (k & -> & Hk).
    rewrite run_Ask, supabase_update. unfold failed.
    destruct (fails e _).
    + destruct (Hk (Resolved None (Some "request failed"))) as [r ->]. now left.
    + unfold update_order.
      destruct (orders_tbl d !! DashboardPage.id o) as [r|] eqn:Hrow.
      * destruct (Orders.status_check _).
        -- destruct (Hk (Resolved None None)) as [r' ->]. right. now exists r, (DashboardPage.advance_patch next now).
        -- destruct (Hk (Resolved None (Some "constraint violated"))) as [r' ->]. now left.
      * destruct (Hk (Resolved None None)) as [r' ->]. now left.
  - rewrite Hshape. now left.
Qed.

Lemma apply_patch_keeps p r :
  Orders.id (Orders.apply_patch p r) = Orders.id r
  ∧ Orders.business_id (Orders.apply_patch p r) = Orders.business_id r
  ∧ Orders.customer_name (Orders.apply_patch p r) = Orders.customer_name r
  ∧ Orders.customer_note (Orders.apply_patch p r) = Orders.customer_note r
  ∧ Orders.total (Orders.apply_patch p r) = Orders.total r
  ∧ Orders.created_at (Orders.apply_patch p r) = Orders.created_at r.
Proof. repeat split. Qed.

(** What [advanceStatus] leaves alone, on any server state and whether or
    not requests fail: the line items, the push subscriptions, every other
    order, and, of the order itself, all columns but [status] and
    [fulfilled_at]; it neither creates nor deletes a row. *)
Theorem advanceStatus_touches_one_order
    (e : env) (o : DashboardPage.order) (now : string)
    (st : DashboardPage.state) (d : db) :
  let d' := db_after e (Advance o now st) d in
  order_items_tbl d' = order_items_tbl d
  ∧ push_tbl d' = push_tbl d
  ∧ (∀ k, k ≠ DashboardPage.id o → orders_tbl d' !! k = orders_tbl d !! k)
  ∧ match orders_tbl d !! DashboardPage.id o, orders_tbl d' !! DashboardPage.id o with
    | None, None => True
    | Some r, Some r' =>
        Orders.id r' = Orders.id r
        ∧ Orders.business_id r' = Orders.business_id r
        ∧ Orders.customer_name r' = Orders.customer_name r
        ∧ Orders.customer_note r' = Orders.customer_note r
        ∧ Orders.total r' = Orders.total r
        ∧ Orders.created_at r' = Orders.created_at r
    | _, _ => False
    end.
Proof.
  cbv zeta. destruct (advance_db_cases e o now st d) as [->|(r & p & Hrow & ->)].
  - repeat split. destruct (orders_tbl d !! DashboardPage.id o); [repeat split|exact I].
  - cbn [orders_tbl order_items_tbl push_tbl]. split; [reflexivity|]. split; [reflexivity|].
    split.
    + intros k Hk. now apply lookup_insert_ne.
    + rewrite Hrow, lookup_insert_eq. apply apply_patch_keeps.
Qed.

Lemma advance_stored_step k r next now d :
  orders_tbl d !! k = Some r → Orders.id r = k →
  advance_target (Orders.status r) = Some next →
  advance_stored k now d
  = {| orders_tbl := <[k := Orders.apply_patch (DashboardPage.advance_patch next now) r]>
                       (orders_tbl d);
       order_items_tbl := order_items_tbl d;
       push_tbl := push_tbl d |}.
Proof.
  intros Hrow Hid Ht. unfold advance_stored. rewrite Hrow. cbv zeta.
  rewrite (advance_db_after_healthy _ _ _ _ _ _ next).
  - unfold patched, DashboardPage.id. cbn [DashboardPage.row]. now rewrite Hid.
  - unfold DashboardPage.id. cbn [DashboardPage.row]. now rewrite Hid.
  - exact Ht.
Qed.

Lemma advance_stored_fulfilled k r now d :
  orders_tbl d !! k = Some r → Orders.status r = "fulfilled" →
  advance_stored k now d = d.
Proof.
  intros Hrow Hs. unfold advance_stored. rewrite Hrow. cbv zeta. unfold db_after.
  rewrite advanceStatus_on_fulfilled by exact Hs. reflexivity.
Qed.

(** The life of an order: from [pending], three calls of [advanceStatus]
    on the stored row go through [preparing] and [ready] to [fulfilled];
    [fulfilled_at] stays as it was until the third call, which sets it to
    its own time; a fourth call changes nothing. *)
Theorem three_advances_fulfil_an_order
    (k : string) (r : Orders.row) (t1 t2 t3 t4 : string) (d : db) :
  orders_tbl d !! k = Some r →
  Orders.id r = k →
  Orders.status r = "pending" →
  let d1 := advance_stored k t1 d in
  let d2 := advance_stored k t2 d1 in
  let d3 := advance_stored k t3 d2 in
  status_in d1 k = Some "preparing"
  ∧ status_in d2 k = Some "ready"
  ∧ status_in d3 k = Some "fulfilled"
  ∧ fulfilled_at_in d2 k = Orders.fulfilled_at r
  ∧ fulfilled_at_in d3 k = Some t3
  ∧ advance_stored k t4 d3 = d3.
Proof.
  intros Hrow Hid Hs. cbv zeta.
  rewrite (advance_stored_step k r "preparing" t1 d Hrow Hid) by (now rewrite Hs).
  set (r1 := Orders.apply_patch (DashboardPage.advance_patch "preparing" t1) r).
  set (d1 := {| orders_tbl := <[k := r1]> (orders_tbl d) |}).
  assert (H1 : orders_tbl d1 !! k = Some r1) by apply lookup_insert_eq.
  rewrite (advance_stored_step k r1 "ready" t2 d1 H1 Hid) by reflexivity.
  set (r2 := Orders.apply_patch (DashboardPage.advance_patch "ready" t2) r1).
  set (d2 := {| orders_tbl := <[k := r2]> (orders_tbl d1) |}).
  assert (H2 : orders_tbl d2 !! k = Some r2) by apply lookup_insert_eq.
  rewrite (advance_stored_step k r2 "fulfilled" t3 d2 H2 Hid) by reflexivity.
  set (r3 := Orders.apply_patch (DashboardPage.advance_patch "fulfilled" t3) r2).
  set (d3 := {| orders_tbl := <[k := r3]> (orders_tbl d2) |}).
  assert (H3 : orders_tbl d3 !! k = Some r3) by apply lookup_insert_eq.
  unfold status_in, fulfilled_at_in. rewrite H1, H2, H3.
  repeat split. now apply (advance_stored_fulfilled k r3).
Qed.

(** An [UPDATE] event for an order that the list does not hold changes
    nothing: the order is not added. *)
Theorem on_update_drops_unknown_order (r : Orders.row) (st : DashboardPage.state) :
  ¬ In (Orders.id r) (order_ids st) →
  DashboardPage.on_update r st = st.
Proof.
  unfold order_ids, DashboardPage.on_update. destruct st as [l t j].
  cbn [DashboardPage.orders DashboardPage.toast DashboardPage.justFulfilled].
  intros H. f_equal. induction l as [|o l IH]; [reflexivity|].
  cbn [map In] in *.
  destruct (String.eqb_spec (DashboardPage.id o) (Orders.id r)) as [E|_]; [tauto|].
  rewrite IH by tauto. reflexivity.
Qed.

(** After an [UPDATE] event, an order of the list with the id of the event
    has the columns of the event and the line items that an order of that
    id had before. *)
Theorem on_update_replaces_row_keeps_items
    (r : Orders.row) (st : DashboardPage.state) (o' : DashboardPage.order) :
  In o' (DashboardPage.orders (DashboardPage.on_update r st)) →
  DashboardPage.id o' = Orders.id r →
  DashboardPage.row o' = r
  ∧ ∃ o, In o (DashboardPage.orders st)
         ∧ DashboardPage.id o = Orders.id r
         ∧ DashboardPage.order_items o' = DashboardPage.order_items o.
Proof.
  unfold DashboardPage.on_update. cbn [DashboardPage.orders].
  intros [o [<- Ho]]%in_map_iff.
  destruct (String.eqb_spec (DashboardPage.id o) (Orders.id r)) as [E|E].
  - intros _. split; [reflexivity|]. exists o. auto.
  - intros H. congruence.
Qed.

(** [subscribeToPush] does not read the answer to its upsert: once the
    browser has subscribed it returns [true] whenever the request resolves,
    also with an error. *)
Theorem subscribeToPush_ignores_the_answer
    (srv : server) (businessId : string) (j : Push.PushSubscriptionJSON)
    (d d1 : db) (x : option data) (err : option string) :
  srv (UpsertPush (Push.push_row businessId j) "endpoint") d = (Resolved x err, d1) →
  run srv (Push.subscribeToPush businessId (granting_browser j)) d
  = ((true, []), d1, [UpsertPush (Push.push_row businessId j) "endpoint"]).
Proof.
  intros H. unfold Push.subscribeToPush, granting_browser.
  cbn -[String.eqb Push.push_row run].
  change ("granted" =? "granted") with true. cbn [negb].
  rewrite run_Ask, H. reflexivity.
Qed.

(** [submitOrder] only adds, on any server state and whether or not
    requests fail: the orders that were there stay as they were, the push
    subscriptions are untouched, and line items are only appended, all of
    them for the order created by this call. *)
Theorem submitOrder_only_adds (e : env) (st : MenuPage.state) (d : db) :
  let d' := db_after e (Intake st) d in
  push_tbl d' = push_tbl d
  ∧ (∀ k r, orders_tbl d !! k = Some r → orders_tbl d' !! k = Some r)
  ∧ ∃ items, order_items_tbl d' = (order_items_tbl d ++ items)%list
             ∧ Forall (fun it => OrderItems.order_id it = uuid e) items
             ∧ (items ≠ [] → orders_tbl d !! uuid e = None
                             ∧ is_Some (orders_tbl d' !! uuid e)).
Proof.
  cbv zeta. unfold db_after, MenuPage.submitOrder.
  assert (Hsame : push_tbl d = push_tbl d
    ∧ (∀ k r, orders_tbl d !! k = Some r → orders_tbl d !! k = Some r)
    ∧ ∃ items, order_items_tbl d = (order_items_tbl d ++ items)%list
             ∧ Forall (fun it => OrderItems.order_id it = uuid e) items
             ∧ (items ≠ [] → orders_tbl d !! uuid e = None
                             ∧ is_Some (orders_tbl d !! uuid e))).
  { split; [reflexivity|]. split; [auto|]. exists []. rewrite app_nil_r.
    split; [reflexivity|]. split; [constructor|]. congruence. }
  destruct (JS.trim (MenuPage.customerName st)); [exact Hsame|].
  destruct (length (MenuPage.cartItems st) =? 0)%nat; [exact Hsame|].
  rewrite run_Ask, supabase_insert_order. unfold failed.
  destruct (fails e _); [exact Hsame|]. cbv zeta.
  destruct (Orders.status_check _); [|exact Hsame].
  destruct (bool_decide_reflect (orders_tbl d !! uuid e = None)) as [Hfresh|_];
    [|exact Hsame].
  cbn [andb]. rewrite run_Ask, supabase_insert_items. unfold failed.
  assert (Hkeep : ∀ k r, orders_tbl d !! k = Some r →
            <[uuid e := Orders.new_row (uuid e) (server_now e) (MenuPage.order_insert st)]>
              (orders_tbl d) !! k = Some r).
  { intros k r Hk. rewrite lookup_insert_ne; [exact Hk|]. intros <-. congruence. }
  destruct (fails e _).
  { cbn. split; [reflexivity|]. split; [exact Hkeep|]. exists []. rewrite app_nil_r.
    split; [reflexivity|]. split; [constructor|]. congruence. }
  destruct (items_reference_orders _ _).
  - cbn. split; [reflexivity|]. split; [exact Hkeep|].
    eexists. split; [reflexivity|]. split.
    + apply List.Forall_forall. intros it [p [<- _]]%in_map_iff. reflexivity.
    + intros _. split; [exact Hfresh|]. rewrite lookup_insert_eq. eauto.
  - cbn. split; [reflexivity|]. split; [exact Hkeep|]. exists []. rewrite app_nil_r.
    split; [reflexivity|]. split; [constructor|]. congruence.
Qed.

Lemma refused_update_still_advances_dashboard_witness :
  let o := sample_order "o1" "pending" None in
  ∃ st', run (supabase offline) (DashboardPage.advanceStatus o "12:00" (dashboard_of o)) (db_of o)
         = ((DashboardPage.Returned, st'), db_of o,
            [UpdateOrderEqId (DashboardPage.advance_patch "preparing" "12:00") (DashboardPage.id o)])
    ∧ DashboardPage.orders st' =
      map (fun o' => if String.eqb (DashboardPage.id o') (DashboardPage.id o)
                     then DashboardPage.with_status "preparing" o' else o')
          (DashboardPage.orders (dashboard_of o))
    ∧ DashboardPage.toast st' ≠ None.
Proof.
  intros o.
  apply (refused_update_still_advances_dashboard offline o "12:00" (dashboard_of o) (db_of o)
           "preparing"); reflexivity.
Defined.

Lemma three_advances_fulfil_an_order_witness :
  let d := db_of (sample_order "o1" "pending" None) in
  let d1 := advance_stored "o1" "12:01" d in
  let d2 := advance_stored "o1" "12:02" d1 in
  let d3 := advance_stored "o1" "12:03" d2 in
  status_in d1 "o1" = Some "preparing"
  ∧ status_in d2 "o1" = Some "ready"
  ∧ status_in d3 "o1" = Some "fulfilled"
  ∧ fulfilled_at_in d2 "o1" = None
  ∧ fulfilled_at_in d3 "o1" = Some "12:03"
  ∧ advance_stored "o1" "12:04" d3 = d3.
Proof.
  apply (three_advances_fulfil_an_order "o1" (sample_row "o1" "pending" None)
           "12:01" "12:02" "12:03" "12:04" (db_of (sample_order "o1" "pending" None)));
    reflexivity.
Defined.

Lemma on_update_drops_unknown_order_witness :
  DashboardPage.on_update (sample_row "o2" "ready" None)
                          (dashboard_of (sample_order "o1" "pending" None))
  = dashboard_of (sample_order "o1" "pending" None).
Proof.
  apply on_update_drops_unknown_order.
  intros [H|[]]. discriminate H.
Defined.

Lemma on_update_replaces_row_keeps_items_witness :
  let o := sample_order "o1" "pending" None in
  let r := sample_row "o1" "ready" None in
  let o' := DashboardPage.merge o r in
  DashboardPage.row o' = r
  ∧ ∃ o0, In o0 (DashboardPage.orders (dashboard_of o))
          ∧ DashboardPage.id o0 = Orders.id r
          ∧ DashboardPage.order_items o' = DashboardPage.order_items o0.
Proof.
  intros o r o'.
  apply (on_update_replaces_row_keeps_items r (dashboard_of o) o').
  - now left.
  - reflexivity.
Defined.

Lemma subscribeToPush_ignores_the_answer_witness :
  let j := {| Push.endpoint := "https://push.example/1"; Push.keys_p256dh := "p";
              Push.keys_auth := "a" |} in
  run (supabase offline) (Push.subscribeToPush "biz-a" (granting_browser j)) empty_db
  = ((true, []), empty_db, [UpsertPush (Push.push_row "biz-a" j) "endpoint"]).
Proof.
  intros j.
  apply (subscribeToPush_ignores_the_answer (supabase offline) "biz-a" j empty_db empty_db
           None (Some "request failed")).
  reflexivity.
Defined.

(** With a [VAPID_PUBLIC_KEY] of length [4k + 1], [subscribeToPush] returns
    [false] on every browser and sends nothing. *)
Theorem undecodable_key_prevents_subscription
    (srv : server) (businessId key : string) (b : Push.browser) (d : db) :
  (String.length key mod 4 = 1)%nat →
  ∃ msgs, run srv (Push.subscribeToPush businessId (with_vapid_key key b)) d
          = ((false, msgs), d, []).
Proof.
  intros Hk. unfold Push.subscribeToPush, with_vapid_key.
  cbn [Push.has_serviceWorker Push.has_PushManager Push.serviceWorker_ready
       Push.requestPermission Push.vapid_key_decodes Push.subscribe].
  rewrite (key_of_length_4k_plus_1 key Hk).
  destruct (Push.has_serviceWorker b); [|cbn; eauto].
  destruct (Push.has_PushManager b); [|cbn; eauto].
  cbn [negb orb].
  destruct (Push.serviceWorker_ready b); [|cbn; eauto].
  destruct (Push.requestPermission b) as [permission|reason]; [|cbn; eauto].
  destruct (String.eqb permission "granted"); cbn; eauto.
Qed.

Lemma undecodable_key_prevents_subscription_witness :
  ∃ msgs, run (supabase (healthy "u" "t"))
              (Push.subscribeToPush "biz-a"
                 (with_vapid_key "BPv_E"
                    (granting_browser {| Push.endpoint := "https://push.example/1";
                                         Push.keys_p256dh := "p"; Push.keys_auth := "a" |})))
              empty_db
          = ((false, msgs), empty_db, []).
Proof.
  apply undecodable_key_prevents_subscription. reflexivity.
Defined.

(** ** What the order insert carries *)

(** What [submitOrder] sends first, whenever it sends anything: the insert
    of an order of the page's business with the status [pending], whose
    name is the name typed without the white space at its two ends, and is
    not empty, and whose note is null exactly when the note typed is blank,
    and is otherwise the note typed without the white space at its two
    ends. *)
Theorem stored_name_is_trimmed
    (st : MenuPage.state) (q : request)
    (k : answer → proc (MenuPage.state * list MenuPage.alert_msg)) :
  MenuPage.submitOrder st = Ask q k →
  ∃ p, q = InsertOrderSelectSingle p
       ∧ Orders.ins_business_id p = MenuPage.business_id st
       ∧ Orders.ins_status p = "pending"
       ∧ trimming (MenuPage.customerName st) (Orders.ins_customer_name p)
       ∧ (Orders.ins_customer_note p = None ↔ blank (MenuPage.customerNote st))
       ∧ ∀ note, Orders.ins_customer_note p = Some note →
                 trimming (MenuPage.customerNote st) note.
Proof.
  unfold MenuPage.submitOrder.
  destruct (JS.trim (MenuPage.customerName st)) as [|c t] eqn:En; [discriminate|].
  destruct (length (MenuPage.cartItems st) =? 0)%nat; [discriminate|].
  intros H. injection H as <- _. eexists. split; [reflexivity|].
  unfold MenuPage.order_insert.
  cbn [Orders.ins_customer_name Orders.ins_customer_note Orders.ins_status
       Orders.ins_business_id].
  split; [reflexivity|]. split; [reflexivity|].
  split; [apply trim_trimming; rewrite En; discriminate|].
  destruct (JS.trim (MenuPage.customerNote st)) as [|c' t'] eqn:Eo.
  - split; [split; [intros _; now apply trim_empty_blank|reflexivity]|discriminate].
  - assert (Ht : trimming (MenuPage.customerNote st) (c' :: t')).
    { rewrite <- Eo. apply trim_trimming. rewrite Eo. discriminate. }
    split.
    + split; [discriminate|]. intros Hb. now apply trimming_not_blank in Ht.
    + intros note Hn. now injection Hn as <-.
Qed.

Lemma stored_name_is_trimmed_witness :
  let st := with_note (str " no sugar ")
              (jamie_named ([160] ++ str "Jamie" ++ [8232; 32])%N%list jamie_cart) in
  ∃ p, InsertOrderSelectSingle (MenuPage.order_insert st) = InsertOrderSelectSingle p
       ∧ Orders.ins_business_id p = MenuPage.business_id st
       ∧ Orders.ins_status p = "pending"
       ∧ trimming (MenuPage.customerName st) (Orders.ins_customer_name p)
       ∧ (Orders.ins_customer_note p = None ↔ blank (MenuPage.customerNote st))
       ∧ ∀ note, Orders.ins_customer_note p = Some note →
                 trimming (MenuPage.customerNote st) note.
Proof.
  intros st.
  eapply (stored_name_is_trimmed st).
  vm_compute. reflexivity.
Defined.

(** What the witness sends: the name and the note without the white space
    around them. *)
Example stored_name_of_witness :
  let st := with_note (str " no sugar ")
              (jamie_named ([160] ++ str "Jamie" ++ [8232; 32])%N%list jamie_cart) in
  Orders.ins_customer_name (MenuPage.order_insert st) = str "Jamie"
  ∧ Orders.ins_customer_note (MenuPage.order_insert st) = Some (str "no sugar").
Proof. split; reflexivity. Qed.

(** The two inserts of [submitOrder] are not one transaction: when the
    name is not blank, the cart holds a listed product, the caller owns the
    business, the total fits its column, the order is stored and the line
    items are refused, then the customer is told that something went wrong,
    the page is not confirmed and the cart is kept, and the database is
    left with the new order, its total rounded to two decimals, and none of
    its items. *)
Theorem refused_items_leave_an_order_without_items
    (a : access) (e : env) (st : MenuPage.state) (d : db) :
  let items := map (MenuPage.line_item st (uuid e)) (MenuPage.cartItems st) in
  ¬ blank (MenuPage.customerName st) →
  MenuPage.cartItems st ≠ [] →
  orders_tbl d !! uuid e = None →
  is_owner a (MenuPage.business_id st) = true →
  fits_numeric_10_2 (sum_of_lines items) →
  (∀ p, fails e (InsertOrderSelectSingle p) = false) →
  fails e (InsertItems items) = true →
  ∃ st' total,
    rounded_to_two_decimals (sum_of_lines items) total
    ∧ run (hosted a e) (MenuPage.submitOrder st) d
      = ((st', [MenuPage.SomethingWentWrong]),
         {| orders_tbl :=
              <[uuid e := Orders.new_row (uuid e) (server_now e)
                            (with_total total (MenuPage.order_insert st))]>
                (orders_tbl d);
            order_items_tbl := order_items_tbl d;
            push_tbl := push_tbl d |},
         [InsertOrderSelectSingle (MenuPage.order_insert st); InsertItems items])
    ∧ MenuPage.confirmed st' = MenuPage.confirmed st
    ∧ MenuPage.orderId st' = MenuPage.orderId st
    ∧ MenuPage.cart st' = MenuPage.cart st
    ∧ MenuPage.submitting st' = false.
Proof.
  intros items Hname Hcart Hfresh Howner (n & Hcents & Hn) Hf1 Hf2.
  unfold MenuPage.submitOrder.
  destruct (JS.trim (MenuPage.customerName st)) as [|c0 s0] eqn:Ht;
    [exfalso; now apply Hname, trim_empty_blank|].
  destruct (Nat.eqb_spec (length (MenuPage.cartItems st)) 0) as [El|_].
  { destruct (MenuPage.cartItems st); [done|discriminate El]. }
  rewrite run_Ask, hosted_insert_order, Hf1.
  cbn [MenuPage.order_insert Orders.ins_total Orders.ins_business_id].
  unfold items in Hcents. rewrite <- (cartTotal_sum_of_lines st (uuid e)) in Hcents.
  destruct (numeric_keeps_total _ n Hcents Hn) as [total Hnum]. rewrite Hnum.
  destruct (numeric_of_total _ _ Hnum) as (n' & Hc' & Hn' & _).
  rewrite Howner, supabase_insert_order, Hf1. cbv zeta.
  rewrite (bool_decide_eq_true_2 _ Hfresh).
  replace (Orders.status_check _) with true by reflexivity.
  cbn [andb data_row Orders.id Orders.new_row].
  rewrite run_Ask. fold items. unfold hosted at 1. rewrite Hf2. unfold failed.
  rewrite run_Ret. eexists _, total. split.
  { unfold items. rewrite <- (cartTotal_sum_of_lines st (uuid e)). now exists n'. }
  split; [reflexivity|]. split; [reflexivity|]. split; [reflexivity|].
  split; reflexivity.
Qed.

Lemma refused_items_leave_an_order_without_items_witness :
  let a := signed_in "owner-1" in
  let e := refusing_items "order-1" "12:00" in
  let st := jamie_state "Jamie" jamie_cart in
  let items := map (MenuPage.line_item st (uuid e)) (MenuPage.cartItems st) in
  ∃ st' total,
    rounded_to_two_decimals (sum_of_lines items) total
    ∧ run (hosted a e) (MenuPage.submitOrder st) empty_db
      = ((st', [MenuPage.SomethingWentWrong]),
         {| orders_tbl :=
              <[uuid e := Orders.new_row (uuid e) (server_now e)
                            (with_total total (MenuPage.order_insert st))]>
                (orders_tbl empty_db);
            order_items_tbl := order_items_tbl empty_db;
            push_tbl := push_tbl empty_db |},
         [InsertOrderSelectSingle (MenuPage.order_insert st); InsertItems items])
    ∧ MenuPage.confirmed st' = MenuPage.confirmed st
    ∧ MenuPage.orderId st' = MenuPage.orderId st
    ∧ MenuPage.cart st' = MenuPage.cart st
    ∧ MenuPage.submitting st' = false.
Proof.
  intros a e st items.
  apply (refused_items_leave_an_order_without_items a e st empty_db).
  - intros Hb. apply Forall_cons in Hb as [Hb _]. vm_compute in Hb.
    repeat (destruct Hb as [Hb|Hb]; [discriminate Hb|]). exact Hb.
  - vm_compute. discriminate.
  - reflexivity.
  - reflexivity.
  - exact jamie_total_fits.
  - reflexivity.
  - reflexivity.
Defined.

(** Behind the policies of the schema only the owner of the business can
    place an order: for any other caller, in particular for a customer, who
    is not signed in, [submitOrder] leaves the database as it is and the
    page unconfirmed, shows one alert, and has sent at most the insert of
    the order. *)
Theorem submitOrder_stores_nothing_unless_owner
    (a : access) (e : env) (st : MenuPage.state) (d : db) :
  is_owner a (MenuPage.business_id st) = false →
  let r := run (hosted a e) (MenuPage.submitOrder st) d in
  r.1.2 = d
  ∧ (∃ alert, r.1.1.2 = [alert])
  ∧ MenuPage.confirmed r.1.1.1 = MenuPage.confirmed st
  ∧ MenuPage.orderId r.1.1.1 = MenuPage.orderId st
  ∧ (r.2 = [] ∨ r.2 = [InsertOrderSelectSingle (MenuPage.order_insert st)]).
Proof.
  intros Hown. cbv zeta. unfold MenuPage.submitOrder.
  destruct (JS.trim (MenuPage.customerName st));
    [cbn; split; [reflexivity|split; [eauto|split; [reflexivity|split; [reflexivity|now left]]]]|].
  destruct (length (MenuPage.cartItems st) =? 0)%nat;
    [cbn; split; [reflexivity|split; [eauto|split; [reflexivity|split; [reflexivity|now left]]]]|].
  rewrite run_Ask, hosted_insert_order.
  cbn [MenuPage.order_insert Orders.ins_business_id]. rewrite Hown.
  unfold refused, failed.
  destruct (fails e _);
    [cbn; split; [reflexivity|split; [eauto|split; [reflexivity|split; [reflexivity|now right]]]]|].
  destruct (numeric_10_2 _);
    cbn; (split; [reflexivity|split; [eauto|split; [reflexivity|split; [reflexivity|now right]]]]).
Qed.

Lemma submitOrder_stores_nothing_unless_owner_witness :
  let st := jamie_state "Jamie" jamie_cart in
  let r := run (hosted customer (healthy "order-1" "t")) (MenuPage.submitOrder st) empty_db in
  r.1.2 = empty_db
  ∧ (∃ alert, r.1.1.2 = [alert])
  ∧ MenuPage.confirmed r.1.1.1 = MenuPage.confirmed st
  ∧ MenuPage.orderId r.1.1.1 = MenuPage.orderId st
  ∧ (r.2 = [] ∨ r.2 = [InsertOrderSelectSingle (MenuPage.order_insert st)]).
Proof.
  intros st.
  apply (submitOrder_stores_nothing_unless_owner customer (healthy "order-1" "t") st empty_db).
  reflexivity.
Defined.
